(** * agentd: the tool-augmented completion orchestrator (src/agentd/patch.py)

    A shallow embedding of [patch_openai_with_mcp]: the server connection
    cache, the schema merger, the tool dispatchers and the two completion
    drivers, with the properties the specification states about them.

    Python objects are modelled as follows.
    - JSON-shaped values (schemas, arguments, replies) are [pyval].
    - A Python [dict] whose insertion order is observable is an association
      list with unique keys ([py_dict]); a dict used as a plain map
      (the server cache, the server lookup, the callable registry) is a
      [gmap].
    - A Python list that is shared by reference lives in a [heap] of list
      objects; variables hold locations.
    - Coroutines are computations in the monad [M]: state passing plus
      Python exceptions.  The outside world (tool servers, the model
      backend, locally registered callables) is an abstract state [W] that
      every external call may read and change. *)

From stdpp Require Import base option list gmap strings pretty sorting.

Set Warnings "-register-all".

(** ** Python values *)

(** The values schemas, arguments and replies are made of: [None], strings,
    lists and dicts with string keys.  Numbers and booleans occur in no
    statement and are left out. *)
Inductive pyval : Type :=
| PNone
| PStr (s : string)
| PList (l : list pyval)
| PDict (d : list (string * pyval)).

(** An insertion-ordered dict with string keys. *)
Abbreviation py_dict V := (list (string * V)).

Fixpoint dict_lookup {V} (k : string) (d : py_dict V) : option V :=
  match d with
  | [] => None
  | (k', v) :: d' => if String.eqb k k' then Some v else dict_lookup k d'
  end.

(** [k in d] *)
Definition dict_mem {V} (k : string) (d : py_dict V) : bool :=
  match dict_lookup k d with Some _ => true | None => false end.

(** [d[k] = v]: an existing key keeps its position, a new key goes last. *)
Fixpoint dict_set {V} (k : string) (v : V) (d : py_dict V) : py_dict V :=
  match d with
  | [] => [(k, v)]
  | (k', v') :: d' =>
      if String.eqb k k' then (k', v) :: d' else (k', v') :: dict_set k v d'
  end.

(** [d.pop(k, None)], the popped value dropped. *)
Fixpoint dict_pop {V} (k : string) (d : py_dict V) : py_dict V :=
  match d with
  | [] => []
  | (k', v') :: d' =>
      if String.eqb k k' then d' else (k', v') :: dict_pop k d'
  end.

(** [d.values()] *)
Definition dict_values {V} (d : py_dict V) : list V := d.*2.

(** [d.get(k)] on a dict of values: [None] when the key is absent. *)
Definition py_get (d : py_dict pyval) (k : string) : pyval :=
  default PNone (dict_lookup k d).

(** Truth value testing: [None], the empty string, the empty list and the
    empty dict are false. *)
Definition truthy (v : pyval) : bool :=
  match v with
  | PNone => false
  | PStr s => negb (String.eqb s "")
  | PList l => match l with [] => false | _ => true end
  | PDict d => match d with [] => false | _ => true end
  end.

(** [a or b] *)
Definition py_or (a b : pyval) : pyval := if truthy a then a else b.

(** Lists and dicts cannot be hashed, so they cannot be dict keys or set
    members. *)
Definition hashable (v : pyval) : bool :=
  match v with
  | PNone | PStr _ => true
  | PList _ | PDict _ => false
  end.

(** ** Exceptions *)

(** An exception object: its class and the argument it was built with.
    Only subclasses of [Exception] are modelled. *)
Record exn : Type := Exn { exn_class : string; exn_arg : string }.

Inductive res (A : Type) : Type :=
| Ok (a : A)
| Raise (e : exn).
Arguments Ok {A} a.
Arguments Raise {A} e.

Definition is_ok {A} (r : res A) : bool :=
  match r with Ok _ => true | Raise _ => false end.

(** ** Objects the orchestrator handles *)

(** A tool-server handle: a Python object ([oid] is its identity) with a
    [name] attribute. *)
Record handle : Type := Handle { name : string; oid : nat }.

(** What [MCPUtil.get_all_function_tools] and [list_tools] return. *)
Record tool_obj : Type := ToolObj {
  t_name : string;
  t_description : pyval;
  t_params_json_schema : pyval
}.

(** Arguments of a requested call: a JSON-encoded string or a mapping. *)
Inductive raw_args : Type :=
| ArgStr (s : string)
| ArgVal (v : pyval).

(** A tool-call request emitted by the model.  [id] and [call_id] are
    attributes that may be absent; [tc_name] and [tc_arguments] are
    [call.function.name] and [call.function.arguments] in a chat response,
    [call.name] and [call.arguments] in a structured response. *)
Record tool_call : Type := ToolCall {
  id : option pyval;
  call_id : option pyval;
  tc_name : string;
  tc_arguments : raw_args
}.

(** Entries of a message history or of a structured input history. *)
Inductive entry : Type :=
| Given (v : pyval)
| AssistantToolCalls (tool_calls : list tool_call)
| ToolMessage (fn_name : string) (content : string) (tool_call_id : pyval)
| FunctionCallOutput (fco_call_id : pyval) (output : string).

(** The four backend entry points: the original SDK method (sync or async)
    and the routing layer's function (sync or async). *)
Inductive endpoint : Type := OrigAsync | OrigSync | RoutedAsync | RoutedSync.

Record request : Type := Request {
  rq_endpoint : endpoint;
  rq_model : string;
  rq_history : list entry;
  rq_tools : option pyval;
  rq_previous_response_id : option pyval;
  rq_api_key : option pyval;
  rq_kwargs : py_dict pyval
}.

(** A chat completion: the tool calls of [choices[0].message] and the rest. *)
Record chat_response : Type := ChatResponse {
  cr_tool_calls : list tool_call;
  cr_body : pyval
}.

(** An item of [resp.output]. *)
Inductive output_item : Type :=
| FunctionCall (c : tool_call)
| OtherItem (v : pyval).

Record response : Type := Response {
  r_id : pyval;
  r_output : list output_item;
  r_body : pyval
}.

Inductive level : Type := Info | Warning | Error.

(** Observable actions, in the order they happen. *)
Inductive event : Type :=
| EvConnect (s : handle)
| EvGetAllFunctionTools (ss : list handle)
| EvListTools (s : handle)
| EvCallTool (s : handle) (fn_name : string) (fn_args : pyval)
| EvLocalCall (fn_name : string) (fn_args : pyval)
| EvChatCall (rq : request) (resp : chat_response)
| EvResponsesCall (rq : request) (resp : response)
| EvLog (lvl : level) (msg : string).

Definition loc := positive.

Section Orchestrator.

(** ** The environment *)

(** The state of everything outside the orchestrator. *)
Context {W : Type}.

(** [server.connect()], [server.list_tools()], [server.call_tool(name, args)]
    followed by [.dict()], and [MCPUtil.get_all_function_tools]. *)
Variable connect : handle -> W -> res unit * W.
Variable list_tools : handle -> W -> res (list tool_obj) * W.
Variable call_tool : handle -> string -> pyval -> W -> res (py_dict pyval) * W.
Variable get_all_function_tools :
  list handle -> pyval -> W -> res (list tool_obj) * W.

(** The registries of [agentd.tool_decorator]: name to schema (insertion
    ordered) and name to callable.  A callable takes the keyword arguments
    and returns its result, awaited if it was a coroutine. *)
Variable SCHEMA_REGISTRY : py_dict (py_dict pyval).
Variable FUNCTION_REGISTRY : gmap string (pyval -> W -> res pyval * W).

(** The model backends.  A backend call returns a response; failures of the
    backend itself (network, credentials) are not modelled. *)
Variable chat_backend : request -> W -> chat_response * W.
Variable responses_backend : request -> W -> response * W.

(** [litellm.utils.get_llm_provider(model)]: provider and API key. *)
Variable get_llm_provider : string -> res (string * pyval).

(** Library functions: [json.loads], [json.dumps], [repr] of a list or a
    dict, and [str] on an exception. *)
Variable json_loads : string -> res pyval.
Variable json_dumps : pyval -> string.
Variable py_repr : pyval -> string.
Variable exn_text : exn -> string.

(** The time the [i]-th coroutine of a gathered batch takes to complete. *)
Variable latency : W -> nat -> nat.

(** ** Coroutines: state and exceptions *)

Record state : Type := State {
  world : W;
  server_cache : gmap string handle;
  heap : gmap loc (list entry);
  trace : list event
}.

Definition M (A : Type) : Type := state -> res A * state.

Definition ret {A} (a : A) : M A := fun st => (Ok a, st).

Definition bind {A B} (m : M A) (k : A -> M B) : M B :=
  fun st =>
    match m st with
    | (Ok a, st') => k a st'
    | (Raise e, st') => (Raise e, st')
    end.

Definition raise {A} (e : exn) : M A := fun st => (Raise e, st).

(** [try: m except Exception as e: h e] *)
Definition try_except {A} (m : M A) (h : exn -> M A) : M A :=
  fun st =>
    match m st with
    | (Ok a, st') => (Ok a, st')
    | (Raise e, st') => h e st'
    end.

Definition lift_res {A} (r : res A) : M A := fun st => (r, st).

Notation "'let*' x := m 'in' k" := (bind m (fun x => k))
  (at level 10, x binder, m at level 100, k at level 200).

(** An external call: it acts on the world and is recorded in the trace. *)
Definition external {A} (f : W -> res A * W) (ev : event) : M A :=
  fun st =>
    let (r, w') := f (world st) in
    (r, State w' (server_cache st) (heap st) (trace st ++ [ev])).

Definition emit (ev : event) : M unit :=
  fun st =>
    (Ok tt, State (world st) (server_cache st) (heap st) (trace st ++ [ev])).

Definition get_cache : M (gmap string handle) :=
  fun st => (Ok (server_cache st), st).

Definition set_cache (c : gmap string handle) : M unit :=
  fun st => (Ok tt, State (world st) c (heap st) (trace st)).

(** [[await f(x) for x in xs]] *)
Fixpoint mapM {A B} (f : A -> M B) (xs : list A) : M (list B) :=
  match xs with
  | [] => ret []
  | x :: xs' => let* y := f x in let* ys := mapM f xs' in ret (y :: ys)
  end.

(** ** Server connection cache *)

Definition _ensure_connected (server : handle) : M handle :=
  let* cache := get_cache in
  let* _ := (if decide (cache !! name server = None) then
               let* _ := external (connect server) (EvConnect server) in
               let* cache' := get_cache in
               set_cache (<[name server := server]> cache')
             else ret tt) in
  let* cache'' := get_cache in
  match cache'' !! name server with
  | Some cached => ret cached
  | None => raise (Exn "KeyError" (name server))
  end.

Definition is_connect (ev : event) : bool :=
  match ev with EvConnect _ => true | _ => false end.

(** The connect actions of a trace. *)
Definition connects (tr : list event) : list event := filter is_connect tr.

(** ** Schema merger *)

Definition type_name (v : pyval) : string :=
  match v with
  | PNone => "NoneType"
  | PStr _ => "str"
  | PList _ => "list"
  | PDict _ => "dict"
  end.

(** [v.get(k)] on an arbitrary value: only a dict has the method. *)
Definition attr_get (v : pyval) (k : string) : res pyval :=
  match v with
  | PDict d => Ok (py_get d k)
  | _ => Raise (Exn "AttributeError"
                  ("'" +:+ type_name v +:+ "' object has no attribute 'get'"))
  end.

Definition res_bind {A B} (r : res A) (k : A -> res B) : res B :=
  match r with Ok a => k a | Raise e => Raise e end.

Definition _normalize_schema (schema : py_dict pyval) : res (py_dict pyval) :=
  if dict_mem "function" schema then
    let fn := py_get schema "function" in
    res_bind (attr_get fn "name") (fun n =>
    res_bind (attr_get fn "description") (fun d =>
    res_bind (attr_get fn "parameters") (fun p =>
    res_bind (if truthy p then Ok p else attr_get fn "params_json_schema")
      (fun p' =>
    Ok [("name", n); ("description", d); ("parameters", p')]))))
  else
    Ok [("name", py_get schema "name");
        ("description", py_get schema "description");
        ("parameters",
          py_or (py_get schema "parameters")
                (py_get schema "params_json_schema"))].

Definition _prepare_mcp_tools (servers : list handle) (strict : pyval)
  : M (list (py_dict pyval)) :=
  let* connected := mapM _ensure_connected servers in
  let* tool_objs :=
    external (get_all_function_tools connected strict)
             (EvGetAllFunctionTools connected) in
  ret (map (fun t => [("name", PStr (t_name t));
                      ("description", t_description t);
                      ("parameters", t_params_json_schema t)]) tool_objs).

(** One turn of the deduplication loop: [deduped] maps a name to the
    schema first seen under it. *)
Definition dedupe_step (deduped : py_dict (py_dict pyval))
  (schema : py_dict pyval) : res (py_dict (py_dict pyval)) :=
  res_bind (_normalize_schema schema) (fun flat =>
  let name := py_get flat "name" in
  if truthy name then
    match name with
    | PStr s =>
        if negb (dict_mem s deduped)
        then Ok (dict_set s schema deduped)
        else Ok deduped
    | _ => Raise (Exn "TypeError"
                    ("unhashable type: '" +:+ type_name name +:+ "'"))
    end
  else Ok deduped).

Fixpoint dedupe (deduped : py_dict (py_dict pyval))
  (combined : list (py_dict pyval)) : res (py_dict (py_dict pyval)) :=
  match combined with
  | [] => Ok deduped
  | schema :: rest =>
      res_bind (dedupe_step deduped schema) (fun d => dedupe d rest)
  end.

(** A tool definition in the wire shape of the completion style. *)
Definition tool_definition (is_responses : bool) (flat : py_dict pyval)
  : pyval :=
  if is_responses then
    PDict [("type", PStr "function");
           ("name", py_get flat "name");
           ("description", py_get flat "description");
           ("parameters", py_get flat "parameters")]
  else
    PDict [("type", PStr "function"); ("function", PDict flat)].

Fixpoint build_tools (is_responses : bool) (schemas : list (py_dict pyval))
  : res (list pyval) :=
  match schemas with
  | [] => Ok []
  | schema :: rest =>
      res_bind (_normalize_schema schema) (fun flat =>
      res_bind (build_tools is_responses rest) (fun tl =>
      Ok (tool_definition is_responses flat :: tl)))
  end.

(** Steps 1 and 2 of [_handle_llm_call] once the advertised schemas are
    known: [combined], [deduped] and [final_tools]. *)
Definition combine (explicit mcp_schemas : list (py_dict pyval))
  : list (py_dict pyval) :=
  explicit ++ mcp_schemas ++ dict_values SCHEMA_REGISTRY.

Definition merge_tools (is_responses : bool)
  (explicit mcp_schemas : list (py_dict pyval)) : res (list pyval) :=
  res_bind (dedupe [] (combine explicit mcp_schemas)) (fun deduped =>
  build_tools is_responses (dict_values deduped)).

(** The name a merged tool definition carries. *)
Definition tool_name (is_responses : bool) (tool : pyval) : pyval :=
  match tool with
  | PDict d =>
      if is_responses then py_get d "name"
      else match py_get d "function" with
           | PDict fn => py_get fn "name"
           | _ => PNone
           end
  | _ => PNone
  end.

Definition tool_description (is_responses : bool) (tool : pyval) : pyval :=
  match tool with
  | PDict d =>
      if is_responses then py_get d "description"
      else match py_get d "function" with
           | PDict fn => py_get fn "description"
           | _ => PNone
           end
  | _ => PNone
  end.

(** ** Tool dispatcher *)

(** [str(v)]: [None] and strings are exact, containers print their repr. *)
Definition py_str (v : pyval) : string :=
  match v with
  | PNone => "None"
  | PStr s => s
  | _ => py_repr v
  end.

(** What a dispatch hands back to the chat loop: a list of messages, or a
    single dict when [is_responses] is set. *)
Inductive part : Type :=
| PartList (entries : list entry)
| PartDict (e : entry).

Definition _process_tool_call (call : tool_call) (fn_name : string)
  (fn_args : pyval) (server_lookup : gmap string handle)
  (provider : string) (is_responses : bool) : M part :=
  let* output :=
    match server_lookup !! fn_name with
    | Some server =>
        let* _ := emit (EvLog Info ("Invoking MCP tool '" +:+ fn_name +:+
                                    "' with args " +:+ py_str fn_args)) in
        try_except
          (let* result := external (call_tool server fn_name fn_args)
                                   (EvCallTool server fn_name fn_args) in
           ret (py_get result "content"))
          (fun e =>
           let* _ := emit (EvLog Error
                             ("MCP tool call failed: " +:+ exn_text e)) in
           ret (PStr ("Error calling MCP tool " +:+ fn_name +:+ ": " +:+
                      exn_text e)))
    | None =>
        let* _ := emit (EvLog Info ("Invoking local @tool function '" +:+
                                    fn_name +:+ "' with args " +:+
                                    py_str fn_args)) in
        match FUNCTION_REGISTRY !! fn_name with
        | None =>
            raise (Exn "KeyError" ("Tool '" +:+ fn_name +:+ "' not registered"))
        | Some fn => external (fn fn_args) (EvLocalCall fn_name fn_args)
        end
    end in
  if is_responses then
    let call_id := default (default PNone (id call)) (call_id call) in
    ret (PartDict (FunctionCallOutput call_id (py_str output)))
  else
    let call_id := default PNone (id call) in
    ret (PartList [AssistantToolCalls [call];
                   ToolMessage fn_name (py_str output) call_id]).

Definition _execute_tool (fn_name : string) (fn_args : pyval)
  (server_lookup : gmap string handle) : M pyval :=
  match server_lookup !! fn_name with
  | Some server =>
      let* res := external (call_tool server fn_name fn_args)
                           (EvCallTool server fn_name fn_args) in
      ret (py_get res "content")
  | None =>
      match FUNCTION_REGISTRY !! fn_name with
      | None => raise (Exn "TypeError" "'NoneType' object is not callable")
      | Some fn => external (fn fn_args) (EvLocalCall fn_name fn_args)
      end
  end.

(** ** Concurrent dispatch: [asyncio.gather] *)

(** The order in which the coroutines of a batch of [n] complete: by
    increasing latency.  Every permutation of the batch is the completion
    order of some latency ([every_order_is_a_completion_order]). *)
Definition sooner (w : W) (i j : nat) : Prop := latency w i <= latency w j.

Definition sooner_dec (w : W) (i j : nat) : Decision (sooner w i j) :=
  decide (latency w i <= latency w j).

Definition completion_order (w : W) (n : nat) : list nat :=
  @merge_sort nat (sooner w) (sooner_dec w) (seq 0 n).

(** The coroutines run to completion one after the other in the given
    order, each dispatch taking effect on the world as one step; each
    completion is recorded with the position of its coroutine in the batch.
    The first exception ends the wait: what the coroutines still pending do
    to the world afterwards is not modelled. *)
Fixpoint run_in_order {A} (tasks : list (M A)) (order : list nat)
  : M (list (nat * A)) :=
  match order with
  | [] => ret []
  | i :: order' =>
      match tasks !! i with
      | Some task =>
          let* r := task in
          let* finished := run_in_order tasks order' in
          ret ((i, r) :: finished)
      | None => run_in_order tasks order'
      end
  end.

Fixpoint completed {A} (i : nat) (finished : list (nat * A)) : option A :=
  match finished with
  | [] => None
  | (j, r) :: finished' =>
      if Nat.eqb i j then Some r else completed i finished'
  end.

(** [await asyncio.gather] over [tasks]: the results, by position. *)
Definition gather {A} (tasks : list (M A)) : M (list A) :=
  fun st =>
    (let* finished :=
       run_in_order tasks (completion_order (world st) (length tasks)) in
     ret (omap (fun i => completed i finished) (seq 0 (length tasks)))) st.

(** ** Message lists as shared objects *)

Definition read_list (l : loc) : M (list entry) :=
  fun st => (Ok (default [] (heap st !! l)), st).

(** [l.extend(es)], and [l.append(e)] as [extend l [e]]. *)
Definition extend (l : loc) (es : list entry) : M unit :=
  fun st =>
    (Ok tt, State (world st) (server_cache st)
                  (<[l := default [] (heap st !! l) ++ es]> (heap st))
                  (trace st)).

(** A new list object. *)
Definition alloc (es : list entry) : M loc :=
  fun st =>
    let l := fresh (dom (heap st)) in
    (Ok l, State (world st) (server_cache st) (<[l := es]> (heap st))
                 (trace st)).

(** ** The completion drivers *)

Definition MAX_TOOL_LOOPS : nat := 20.

Definition _clean_kwargs (kwargs : py_dict pyval) : py_dict pyval :=
  dict_pop "mcp_strict" (dict_pop "mcp_servers" kwargs).

(** The backend entry point a call goes to. *)
Definition select_endpoint (provider : string) (async_mode : bool)
  : endpoint :=
  if String.eqb provider "openai"
  then (if async_mode then OrigAsync else OrigSync)
  else (if async_mode then RoutedAsync else RoutedSync).

Definition parse_arguments (raw : raw_args) : res pyval :=
  match raw with
  | ArgStr s => json_loads s
  | ArgVal v => Ok v
  end.

(** [{s.get('name') for s in explicit if isinstance(s, dict)}] *)
Fixpoint explicit_names (explicit : list (py_dict pyval)) : res (list pyval) :=
  match explicit with
  | [] => Ok []
  | s :: rest =>
      let n := py_get s "name" in
      if hashable n
      then res_bind (explicit_names rest) (fun ns => Ok (n :: ns))
      else Raise (Exn "TypeError"
                    ("unhashable type: '" +:+ type_name n +:+ "'"))
  end.

(** [name in names] for a string [name]. *)
Definition name_in (name : string) (names : list pyval) : bool :=
  existsb (fun v => match v with
                    | PStr s => String.eqb name s
                    | _ => false
                    end) names.

Definition in_lookup (name : string) (server_lookup : gmap string handle)
  : bool :=
  match server_lookup !! name with Some _ => true | None => false end.

Definition tools_truthy (final_tools : option (list pyval)) : bool :=
  match final_tools with
  | Some (_ :: _) => true
  | _ => false
  end.

Definition tools_value (final_tools : option (list pyval)) : pyval :=
  match final_tools with
  | Some l => PList l
  | None => PNone
  end.

Section Call.

(** What steps 1 to 4 of [_handle_llm_call] leave for the drivers. *)
Variable model : string.
Variable provider : string.
Variable api_key : pyval.
Variable async_mode : bool.
Variable explicit : list (py_dict pyval).
Variable server_lookup : gmap string handle.

(** The guard of the chat loop on a requested name. *)
Definition caller_only (names : list pyval) (name : string) : bool :=
  name_in name names && negb (in_lookup name server_lookup)
  && negb (dict_mem name SCHEMA_REGISTRY).

(** The [for call in tool_calls] loop: [None] when the guard made the
    driver return, the coroutines to gather otherwise. *)
Fixpoint build_tasks (names : list pyval) (tool_calls : list tool_call)
  (tasks : list (M part)) : res (option (list (M part))) :=
  match tool_calls with
  | [] => Ok (Some tasks)
  | call :: rest =>
      res_bind (parse_arguments (tc_arguments call)) (fun parsed =>
      if caller_only names (tc_name call) then Ok None
      else build_tasks names rest
             (tasks ++ [_process_tool_call call (tc_name call) parsed
                          server_lookup provider false]))
  end.

(** [current_messages.extend(part)] *)
Definition extend_part (l : loc) (p : part) : M unit :=
  match p with
  | PartList es => extend l es
  | PartDict _ =>
      extend l [Given (PStr "type"); Given (PStr "call_id");
                Given (PStr "output")]
  end.

Fixpoint extend_parts (l : loc) (parts : list part) : M unit :=
  match parts with
  | [] => ret tt
  | p :: rest => let* _ := extend_part l p in extend_parts l rest
  end.

Definition chat_request (messages : list entry)
  (clean_kwargs : py_dict pyval) (final_tools : option (list pyval))
  : request :=
  Request (select_endpoint provider async_mode) model messages
    (if tools_truthy final_tools && dict_mem "tool_choice" clean_kwargs
     then Some (tools_value final_tools) else None)
    None
    (if String.eqb provider "openai" then None else Some api_key)
    clean_kwargs.

Definition chat_call (rq : request) : M chat_response :=
  fun st =>
    let (resp, w') := chat_backend rq (world st) in
    (Ok resp, State w' (server_cache st) (heap st)
                    (trace st ++ [EvChatCall rq resp])).

Definition max_loops_warning : event :=
  EvLog Warning ("Reached max tool loops (" +:+ pretty MAX_TOOL_LOOPS +:+ ")").

(** Lines 295 to 309: the dispatch of one batch.  [false] when the guard
    made the driver return the response, [true] when the results were
    appended to the messages. *)
Definition dispatch_round (current_messages : loc)
  (tool_calls : list tool_call) : M bool :=
  let* names := lift_res (explicit_names explicit) in
  let* tasks := lift_res (build_tasks names tool_calls []) in
  match tasks with
  | None => ret false
  | Some tasks =>
      let* parts := gather tasks in
      let* _ := extend_parts current_messages parts in
      ret true
  end.

(** The [while True] loop of the chat path.  [fuel] bounds the number of
    iterations the model runs; [None] means it ran out. *)
Fixpoint chat_loop (fuel : nat) (current_messages : loc) (loop_count : nat)
  (clean_kwargs : py_dict pyval) (final_tools : option (list pyval))
  : M (option chat_response) :=
  match fuel with
  | 0 => ret None
  | S fuel' =>
      let loop_count := loop_count + 1 in
      let* messages := read_list current_messages in
      let* resp := chat_call (chat_request messages clean_kwargs final_tools) in
      let tool_calls := cr_tool_calls resp in
      if bool_decide (tool_calls = []) || (MAX_TOOL_LOOPS <=? loop_count) then
        let* _ := (if MAX_TOOL_LOOPS <=? loop_count
                   then emit max_loops_warning else ret tt) in
        ret (Some resp)
      else
        let* dispatched := dispatch_round current_messages tool_calls in
        if dispatched : bool then
          chat_loop fuel' current_messages loop_count
            (dict_pop "tool_choice" (dict_pop "tools" clean_kwargs)) None
        else ret (Some resp)
  end.

(** The payload of a structured-response call: a list object, or any
    other value (which is then rendered with [str]). *)
Inductive payload : Type :=
| PayloadList (l : loc)
| PayloadOther (v : pyval).

Definition function_call_of (o : output_item) : option tool_call :=
  match o with
  | FunctionCall c => Some c
  | OtherItem _ => None
  end.

Definition responses_call (rq : request) : M response :=
  fun st =>
    let (resp, w') := responses_backend rq (world st) in
    (Ok resp, State w' (server_cache st) (heap st)
                    (trace st ++ [EvResponsesCall rq resp])).

Definition responses_request (input : list entry) (tools : option pyval)
  (previous_response_id : option pyval) (kwargs : py_dict pyval) : request :=
  Request (select_endpoint provider async_mode) model input tools
    previous_response_id
    (if String.eqb provider "openai" then None else Some api_key)
    kwargs.

(** The arguments of every call are parsed while the list of coroutines is
    built, before any of them runs. *)
Fixpoint parse_all (calls : list tool_call) : res (list pyval) :=
  match calls with
  | [] => Ok []
  | call :: rest =>
      res_bind (parse_arguments (tc_arguments call)) (fun a =>
      res_bind (parse_all rest) (fun args => Ok (a :: args)))
  end.

(** [json.dumps(result) if not isinstance(result, str) else result] *)
Definition output_text (result : pyval) : string :=
  match result with
  | PStr s => s
  | _ => json_dumps result
  end.

(** The [for call, result in zip(calls, results)] loop. *)
Fixpoint append_outputs (follow_input : loc)
  (pairs : list (tool_call * pyval)) : M unit :=
  match pairs with
  | [] => ret tt
  | (call, result) :: rest =>
      match call_id call with
      | Some cid =>
          let* _ := extend follow_input
                      [FunctionCallOutput cid (output_text result)] in
          append_outputs follow_input rest
      | None =>
          raise (Exn "AttributeError" "object has no attribute 'call_id'")
      end
  end.

(** Lines 211 to 227: the dispatch of the function calls of the initial
    response, and their outputs appended to the follow-up input. *)
Definition dispatch_outputs (follow_input : loc) (calls : list tool_call)
  : M unit :=
  let* args := lift_res (parse_all calls) in
  let tasks := zip_with (fun call a =>
                           _execute_tool (tc_name call) a server_lookup)
                        calls args in
  let* results := gather tasks in
  append_outputs follow_input (zip calls results).

(** The structured-response path. *)
Definition responses_flow (payload : payload)
  (clean_kwargs : py_dict pyval) (final_tools : list pyval) : M response :=
  let* input_history :=
    match payload with
    | PayloadList l => let* es := read_list l in alloc es
    | PayloadOther v =>
        alloc [Given (PDict [("role", PStr "user");
                             ("content", PStr (py_str v))])]
    end in
  let* input := read_list input_history in
  let* resp := responses_call
                 (responses_request input (Some (PList final_tools)) None
                    clean_kwargs) in
  let calls := omap function_call_of (r_output resp) in
  if bool_decide (calls = []) then ret resp
  else
    let* _ := dispatch_outputs input_history calls in
    let follow_kwargs := dict_pop "previous_response_id" clean_kwargs in
    let* follow_input := read_list input_history in
    responses_call
      (responses_request follow_input None (Some (r_id resp)) follow_kwargs).

End Call.

(** Step 3 of [_handle_llm_call]: connect the servers and index their
    tools. *)
Fixpoint build_server_lookup (servers : list handle)
  (server_lookup : gmap string handle) : M (gmap string handle) :=
  match servers with
  | [] => ret server_lookup
  | srv :: rest =>
      let* conn := _ensure_connected srv in
      let* ts := external (list_tools conn) (EvListTools conn) in
      build_server_lookup rest
        (foldl (fun m t => <[t_name t := conn]> m) server_lookup ts)
  end.

(** The two completion styles.  The source passes a flag [is_responses]
    beside the payload; here the payload carries the style, so that a chat
    call always comes with a message list. *)
Inductive call_style : Type :=
| ChatStyle (messages : loc)
| ResponsesStyle (input : payload).

Inductive completion : Type :=
| ChatCompletion (r : option chat_response)
| StructuredResponse (r : response).

Definition _handle_llm_call (fuel : nat) (model : string)
  (payload : call_style) (mcp_servers : option (list handle))
  (mcp_strict : pyval) (tools : option (list (py_dict pyval)))
  (kwargs : py_dict pyval) (async_mode : bool) : M completion :=
  let is_responses :=
    match payload with ResponsesStyle _ => true | ChatStyle _ => false end in
  let explicit := default [] tools in
  let servers := default [] mcp_servers in
  let* mcp_schemas :=
    match servers with
    | [] => ret []
    | _ :: _ => _prepare_mcp_tools servers mcp_strict
    end in
  let* final_tools :=
    lift_res (merge_tools is_responses explicit mcp_schemas) in
  let* server_lookup := build_server_lookup servers ∅ in
  let* '(provider, api_key) := lift_res (get_llm_provider model) in
  let clean_kwargs := _clean_kwargs kwargs in
  let clean_kwargs :=
    if tools_truthy (Some final_tools)
       && negb (dict_mem "tool_choice" clean_kwargs)
    then dict_set "tool_choice" (PStr "auto") clean_kwargs
    else clean_kwargs in
  match payload with
  | ResponsesStyle input =>
      let* resp := responses_flow model provider api_key async_mode
                     server_lookup input clean_kwargs final_tools in
      ret (StructuredResponse resp)
  | ChatStyle messages =>
      let* resp := chat_loop model provider api_key async_mode explicit
                     server_lookup fuel messages 0 clean_kwargs
                     (Some final_tools) in
      ret (ChatCompletion resp)
  end.

(** * Properties *)

(** ** Server connection cache *)

Lemma ensure_connected_cached (server cached : handle) (st : state) :
  server_cache st !! name server = Some cached ->
  _ensure_connected server st = (Ok cached, st).
Proof.
  intros Hc. unfold _ensure_connected, bind, get_cache, ret. simpl.
  destruct (decide (server_cache st !! name server = None)) as [Hn|_].
  - congruence.
  - simpl. rewrite Hc. reflexivity.
Qed.

Lemma ensure_connected_absent (server : handle) (st : state) :
  server_cache st !! name server = None ->
  _ensure_connected server st =
    match connect server (world st) with
    | (Ok _, w') =>
        (Ok server, State w' (<[name server := server]> (server_cache st))
                          (heap st) (trace st ++ [EvConnect server]))
    | (Raise e, w') =>
        (Raise e, State w' (server_cache st) (heap st)
                        (trace st ++ [EvConnect server]))
    end.
Proof.
  intros Hc. unfold _ensure_connected, bind, get_cache, set_cache, external, ret.
  simpl. destruct (decide (server_cache st !! name server = None)) as [_|Hn].
  - destruct (connect server (world st)) as [[[]|e] w']; simpl; [|done].
    by rewrite lookup_insert_eq.
  - done.
Qed.

Lemma mapM_ensure_connected_cached (servers : list handle) (n : string)
  (cached : handle) (st : state) :
  Forall (fun s => name s = n) servers ->
  server_cache st !! n = Some cached ->
  mapM _ensure_connected servers st
  = (Ok (replicate (length servers) cached), st).
Proof.
  intros Hall Hc. induction Hall as [|s servers Hs _ IH]; [done|].
  simpl. unfold bind at 1.
  rewrite (ensure_connected_cached s cached st) by (by rewrite Hs).
  unfold bind at 1. rewrite IH. reflexivity.
Qed.

(** Calls made one after the other, each on the state the one before left
    behind, whether that one returned or raised: the outcomes in order and
    the final state. *)
Fixpoint successive_calls (servers : list handle) (st : state)
  : list (res handle) * state :=
  match servers with
  | [] => ([], st)
  | server :: rest =>
      let (r, st1) := _ensure_connected server st in
      let (rs, st') := successive_calls rest st1 in
      (r :: rs, st')
  end.

Lemma successive_calls_cached (servers : list handle) (n : string)
  (cached : handle) (st : state) :
  Forall (fun s => name s = n) servers ->
  server_cache st !! n = Some cached ->
  successive_calls servers st
  = (replicate (length servers) (Ok cached), st).
Proof.
  intros Hall Hc. induction Hall as [|s servers Hs _ IH]; [done|].
  simpl. rewrite (ensure_connected_cached s cached st) by (by rewrite Hs).
  by rewrite IH.
Qed.

(** C5 (as amended).  Connect-if-absent is idempotent.  When the handle's
    name is a key of the cache the cached entry is returned and nothing
    else happens: no connect, no change of state.  And provided the connect
    action does not raise, calls for handles of one name, as many as one
    likes and whatever handle each is given, all return the same handle and
    perform at most one connect: none if the name was cached, and then the
    state is left as it was, and otherwise exactly one, of the first
    handle, by the first call.  Afterwards the cache maps the name to that
    handle and is otherwise as before. *)
Theorem ensure_connected_idempotent :
  (forall (server cached : handle) (st : state),
      server_cache st !! name server = Some cached ->
      _ensure_connected server st = (Ok cached, st))
  /\
  (forall (servers : list handle) (n : string) (st : state),
      Forall (fun s => name s = n) servers -> servers <> [] ->
      (forall s w, s ∈ servers -> is_ok (connect s w).1 = true) ->
      exists h st' evs,
        successive_calls servers st
        = (replicate (length servers) (Ok h), st')
        /\ trace st' = trace st ++ evs
        /\ length (connects evs) <= 1
        /\ server_cache st' !! n = Some h
        /\ server_cache st' = <[n := h]> (server_cache st)
        /\ (server_cache st !! n = Some h /\ evs = [] /\ st' = st
            \/ server_cache st !! n = None /\ head servers = Some h
               /\ evs = [EvConnect h])).
Proof.
  split; [apply ensure_connected_cached|].
  intros servers n st Hall Hne Hconnect.
  destruct (server_cache st !! n) as [cached|] eqn:Hc.
  - exists cached, st, [].
    rewrite (successive_calls_cached servers n cached st Hall Hc).
    rewrite app_nil_r. split_and!; [done|done|simpl; lia|done| |by left].
    by rewrite insert_id.
  - destruct Hall as [|s servers Hs Hall]; [done|].
    simpl. rewrite (ensure_connected_absent s st) by (by rewrite Hs).
    specialize (Hconnect s (world st) ltac:(by left)).
    destruct (connect s (world st)) as [[[]|e] w']; [|done].
    rewrite (successive_calls_cached servers n s)
      by (done || by simpl; rewrite Hs, lookup_insert_eq).
    exists s. eexists _, [EvConnect s]. split; [reflexivity|]. simpl.
    rewrite Hs, lookup_insert_eq.
    split_and!; [done|lia|done|done|]. right. by split_and!.
Qed.

(** ** Schema merger *)

Lemma dict_lookup_elem {V} (k : string) (v : V) (d : py_dict V) :
  dict_lookup k d = Some v -> (k, v) ∈ d.
Proof.
  induction d as [|[k' v'] d IH]; simpl; [done|].
  destruct (String.eqb_spec k k') as [->|Hne].
  - intros [= ->]. left.
  - intros H. right. auto.
Qed.

Lemma dict_lookup_None {V} (k : string) (d : py_dict V) :
  dict_lookup k d = None <-> k ∉ d.*1.
Proof.
  induction d as [|[k' v'] d IH]; simpl.
  - split; [intros _; apply not_elem_of_nil|done].
  - rewrite not_elem_of_cons.
    destruct (String.eqb_spec k k') as [->|Hne].
    + split; [done|]. by intros [? _].
    + rewrite IH. split; [by intros ?|by intros [_ ?]].
Qed.

Lemma dict_set_fresh {V} (k : string) (v : V) (d : py_dict V) :
  dict_lookup k d = None -> dict_set k v d = d ++ [(k, v)].
Proof.
  induction d as [|[k' v'] d IH]; simpl; [done|].
  destruct (String.eqb_spec k k'); [done|].
  intros H. by rewrite IH.
Qed.

Lemma dict_lookup_app {V} (k : string) (d1 d2 : py_dict V) :
  dict_lookup k (d1 ++ d2)
  = match dict_lookup k d1 with
    | Some v => Some v
    | None => dict_lookup k d2
    end.
Proof.
  induction d1 as [|[k' v'] d1 IH]; simpl; [done|].
  by destruct (String.eqb k k').
Qed.

Lemma find_snoc {A} (f : A -> bool) (l : list A) (x : A) :
  List.find f (l ++ [x])
  = match List.find f l with
    | Some y => Some y
    | None => if f x then Some x else None
    end.
Proof.
  induction l as [|y l IH]; simpl; [done|]. by destruct (f y).
Qed.

Lemma find_app_Some {A} (f : A -> bool) (l1 l2 : list A) (x : A) :
  List.find f l1 = Some x -> List.find f (l1 ++ l2) = Some x.
Proof.
  induction l1 as [|y l1 IH]; simpl; [done|]. by destruct (f y).
Qed.

Lemma NoDup_fmap_eq {A B} (f : A -> B) (l : list A) (x y : A) :
  NoDup (f <$> l) -> x ∈ l -> y ∈ l -> f x = f y -> x = y.
Proof.
  induction l as [|a l IH]; simpl; [by intros _ ?%elem_of_nil|].
  rewrite NoDup_cons. intros [Hna Hnd].
  rewrite !elem_of_cons. intros [->|Hx] [->|Hy] Hf; auto.
  - destruct Hna. rewrite Hf. by apply list_elem_of_fmap_2.
  - destruct Hna. rewrite <- Hf. by apply list_elem_of_fmap_2.
Qed.

(** The name under which the merger files a schema. *)
Definition normalized_name (schema : py_dict pyval) : res pyval :=
  res_bind (_normalize_schema schema) (fun flat => Ok (py_get flat "name")).

(** A well-formed declaration: it normalizes, and its name is a string or
    is missing (or is some other false value). *)
Definition mergeable (schema : py_dict pyval) : bool :=
  match normalized_name schema with
  | Ok (PStr _) => true
  | Ok v => negb (truthy v)
  | Raise _ => false
  end.

Definition named (n : string) (schema : py_dict pyval) : bool :=
  match normalized_name schema with
  | Ok (PStr s) => String.eqb s n
  | _ => false
  end.

(** The first declaration of a list whose normalized name is [n]. *)
Definition first_named (n : string) (l : list (py_dict pyval))
  : option (py_dict pyval) :=
  List.find (named n) l.

(** The loop invariant of the deduplication: after the declarations [seen],
    [deduped] has unique keys and maps every non-empty name to the first
    declaration seen under it. *)
Definition dedupe_inv (deduped : py_dict (py_dict pyval))
  (seen : list (py_dict pyval)) : Prop :=
  NoDup deduped.*1
  /\ forall n, dict_lookup n deduped
               = if String.eqb n "" then None else first_named n seen.

Lemma dedupe_step_inv (deduped : py_dict (py_dict pyval))
  (seen : list (py_dict pyval)) (schema : py_dict pyval) :
  dedupe_inv deduped seen -> mergeable schema = true ->
  exists deduped', dedupe_step deduped schema = Ok deduped'
                   /\ dedupe_inv deduped' (seen ++ [schema]).
Proof.
  intros [Hnd Hlk] Hm. unfold dedupe_step.
  destruct (_normalize_schema schema) as [flat|e] eqn:Hnorm; simpl;
    [|by unfold mergeable, normalized_name in Hm; rewrite Hnorm in Hm].
  assert (Hnn : normalized_name schema = Ok (py_get flat "name")).
  { unfold normalized_name. by rewrite Hnorm. }
  unfold mergeable in Hm. rewrite Hnn in Hm.
  assert (Hfalse : (forall n, n <> "" -> py_get flat "name" <> PStr n) ->
             dedupe_inv deduped (seen ++ [schema])).
  { intros Hne. split; [done|]. intros n. rewrite Hlk.
    destruct (String.eqb_spec n "") as [|Hn]; [done|].
    unfold first_named. rewrite find_snoc.
    destruct (List.find (named n) seen); [done|].
    unfold named. rewrite Hnn. destruct (py_get flat "name") as [|s| |]; try done.
    destruct (String.eqb_spec s n) as [->|]; [|done]. by destruct (Hne n). }
  destruct (py_get flat "name") as [|s|l|d] eqn:Hname; simpl in *.
  - exists deduped. split; [done|]. by apply Hfalse.
  - destruct (String.eqb_spec s "") as [->|Hs]; simpl.
    + exists deduped. split; [done|]. apply Hfalse.
      intros n Hn [= <-]. done.
    + unfold dict_mem. destruct (dict_lookup s deduped) as [old|] eqn:Hold; simpl.
      * exists deduped. split; [done|]. split; [done|]. intros n. rewrite Hlk.
        destruct (String.eqb_spec n "") as [|Hn]; [done|].
        unfold first_named. rewrite find_snoc.
        destruct (List.find (named n) seen) eqn:Hf; [done|].
        unfold named. rewrite Hnn.
        destruct (String.eqb_spec s n) as [->|]; [|done].
        rewrite Hlk in Hold. destruct (String.eqb_spec n ""); [done|].
        unfold first_named in Hold. congruence.
      * exists (dict_set s schema deduped). split; [done|].
        rewrite dict_set_fresh by done. split.
        -- rewrite fmap_app. simpl. apply NoDup_app. split_and!; [done| |].
           ++ intros k Hk ->%list_elem_of_singleton.
              by apply dict_lookup_None in Hold.
           ++ apply NoDup_singleton.
        -- intros n. rewrite dict_lookup_app, Hlk. simpl.
           unfold first_named. rewrite find_snoc.
           replace (named n schema) with (String.eqb s n)
             by (by unfold named; rewrite Hnn).
           destruct (String.eqb_spec n "") as [->|Hn].
           ++ destruct (String.eqb_spec "" s) as [<-|]; done.
           ++ destruct (List.find (named n) seen) eqn:Hf; [done|].
              destruct (String.eqb_spec n s) as [->|Hns].
              ** by rewrite String.eqb_refl.
              ** destruct (String.eqb_spec s n); [congruence|done].
  - destruct l; [|done]. exists deduped. split; [done|].
    by apply Hfalse.
  - destruct d; [|done]. exists deduped. split; [done|].
    by apply Hfalse.
Qed.

Lemma dedupe_inv_run (combined seen : list (py_dict pyval))
  (deduped : py_dict (py_dict pyval)) :
  dedupe_inv deduped seen -> Forall (fun s => mergeable s = true) combined ->
  exists deduped', dedupe deduped combined = Ok deduped'
                   /\ dedupe_inv deduped' (seen ++ combined).
Proof.
  intros Hinv Hall. revert deduped seen Hinv.
  induction Hall as [|s combined Hs _ IH]; intros deduped seen Hinv; simpl.
  - exists deduped. by rewrite app_nil_r.
  - destruct (dedupe_step_inv deduped seen s Hinv Hs) as (d1 & -> & Hinv1).
    simpl. destruct (IH d1 (seen ++ [s]) Hinv1) as (d2 & -> & Hinv2).
    exists d2. split; [done|]. by rewrite <- app_assoc in Hinv2.
Qed.

Lemma first_named_normalizes (n : string) (l : list (py_dict pyval))
  (s : py_dict pyval) :
  first_named n l = Some s ->
  exists flat, _normalize_schema s = Ok flat /\ py_get flat "name" = PStr n.
Proof.
  intros [_ Hn]%List.find_some. unfold named, normalized_name in Hn.
  destruct (_normalize_schema s) as [flat|]; simpl in Hn; [|done].
  exists flat. split; [done|].
  destruct (py_get flat "name") as [|s'| |]; try done.
  by apply String.eqb_eq in Hn as ->.
Qed.

Lemma tool_name_definition (is_responses : bool) (flat : py_dict pyval) :
  tool_name is_responses (tool_definition is_responses flat)
  = py_get flat "name".
Proof. by destruct is_responses. Qed.

Lemma tool_description_definition (is_responses : bool)
  (flat : py_dict pyval) :
  tool_description is_responses (tool_definition is_responses flat)
  = py_get flat "description".
Proof. by destruct is_responses. Qed.

Lemma build_tools_entries (is_responses : bool)
  (deduped : py_dict (py_dict pyval)) (seen : list (py_dict pyval)) :
  (forall n s, (n, s) ∈ deduped -> first_named n seen = Some s) ->
  exists merged,
    build_tools is_responses (dict_values deduped) = Ok merged
    /\ tool_name is_responses <$> merged = PStr <$> deduped.*1
    /\ forall t, t ∈ merged <->
         exists n s flat, (n, s) ∈ deduped /\ _normalize_schema s = Ok flat
                          /\ t = tool_definition is_responses flat.
Proof.
  unfold dict_values.
  induction deduped as [|[n s] d IH]; intros Hd.
  - exists []. split_and!; [done..|]. intros t. split.
    + by intros ?%elem_of_nil.
    + by intros (? & ? & ? & ?%elem_of_nil & _).
  - destruct (first_named_normalizes n seen s) as (flat & Hflat & Hname).
    { apply Hd. left. }
    destruct IH as (merged & Hb & Hnames & Hmem).
    { intros n' s' H. apply Hd. by right. }
    rewrite !fmap_cons. cbn [build_tools snd fst].
    rewrite Hflat. cbn [res_bind]. rewrite Hb. cbn [res_bind].
    exists (tool_definition is_responses flat :: merged).
    split_and!; [done| |].
    + by rewrite fmap_cons, tool_name_definition, Hname, Hnames.
    + intros t. rewrite elem_of_cons, Hmem. split.
      * intros [->|(n' & s' & f' & Hin & Hn & ->)].
        -- exists n, s, flat. split_and!; [left|done..].
        -- exists n', s', f'. split_and!; [by right|done..].
      * intros (n' & s' & f' & Hin & Hn & ->).
        apply elem_of_cons in Hin as [[= -> ->]|Hin].
        -- left. congruence.
        -- right. by exists n', s', f'.
Qed.

(** The merge in the terms of the code: for declarations that normalize the
    merged list holds, for each non-empty name, the definition built from
    the first declaration that the normalizer files under that name. *)
Lemma merge_tools_entries (is_responses : bool)
  (explicit mcp_schemas : list (py_dict pyval)) :
  Forall (fun s => mergeable s = true) (combine explicit mcp_schemas) ->
  exists merged,
    merge_tools is_responses explicit mcp_schemas = Ok merged
    /\ NoDup (tool_name is_responses <$> merged)
    /\ (forall t, t ∈ merged ->
          exists n, tool_name is_responses t = PStr n /\ n <> "")
    /\ (forall t, t ∈ merged <->
          exists n s flat,
            n <> ""
            /\ first_named n (combine explicit mcp_schemas) = Some s
            /\ _normalize_schema s = Ok flat
            /\ t = tool_definition is_responses flat)
    /\ (forall n s t,
          n <> "" -> first_named n explicit = Some s ->
          t ∈ merged -> tool_name is_responses t = PStr n ->
          exists flat, _normalize_schema s = Ok flat
                       /\ tool_description is_responses t
                          = py_get flat "description").
Proof.
  intros Hall. unfold merge_tools.
  destruct (dedupe_inv_run (combine explicit mcp_schemas) [] []) as
    (deduped & -> & Hnd & Hlk); [|done|].
  { split; [constructor|]. intros n. simpl. by destruct (String.eqb n ""). }
  simpl in *.
  assert (Hin : forall n s, (n, s) ∈ deduped <->
            n <> "" /\ first_named n (combine explicit mcp_schemas) = Some s).
  { intros n s. split.
    - intros Hin. assert (dict_lookup n deduped = Some s) as Hl.
      { destruct (dict_lookup n deduped) as [s'|] eqn:Hl.
        - f_equal. apply dict_lookup_elem in Hl.
          assert ((n, s').1 = (n, s).1) as Heq by done.
          apply (NoDup_fmap_eq fst deduped _ _ Hnd Hl Hin) in Heq.
          congruence.
        - apply dict_lookup_None in Hl. destruct Hl.
          by apply (list_elem_of_fmap_2 fst) in Hin. }
      rewrite Hlk in Hl. by destruct (String.eqb_spec n "").
    - intros [Hn Hf]. apply dict_lookup_elem. rewrite Hlk.
      by destruct (String.eqb_spec n ""). }
  destruct (build_tools_entries is_responses deduped
              (combine explicit mcp_schemas)) as (merged & -> & Hnames & Hmem).
  { intros n s H. by apply Hin. }
  exists merged.
  assert (Hchar : forall t, t ∈ merged <->
            exists n s flat,
              n <> ""
              /\ first_named n (combine explicit mcp_schemas) = Some s
              /\ _normalize_schema s = Ok flat
              /\ t = tool_definition is_responses flat).
  { intros t. rewrite Hmem. split.
    - intros (n & s & flat & H & Hn & ->). apply Hin in H as [? ?].
      by exists n, s, flat.
    - intros (n & s & flat & Hne & Hf & Hn & ->).
      exists n, s, flat. split_and!; [|done..]. by apply Hin. }
  assert (Hnodup : NoDup (tool_name is_responses <$> merged)).
  { rewrite Hnames. apply NoDup_fmap_2; [|done]. by intros ?? [=]. }
  split_and!; [done|done| |done|].
  - intros t (n & s & flat & Hne & Hf & Hn & ->)%Hchar. exists n.
    split; [|done]. rewrite tool_name_definition.
    destruct (first_named_normalizes _ _ _ Hf) as (flat' & Hn' & Hname).
    congruence.
  - intros n s t Hne Hf Ht Hname.
    destruct (first_named_normalizes _ _ _ Hf) as (flat & Hn & Hfn).
    exists flat. split; [done|].
    assert (tool_definition is_responses flat ∈ merged) as Ht'.
    { apply Hchar. exists n, s, flat. split_and!; [done| |done..].
      unfold combine, first_named. by apply find_app_Some. }
    assert (t = tool_definition is_responses flat) as ->.
    { apply (NoDup_fmap_eq (tool_name is_responses) merged); [done..|].
      by rewrite tool_name_definition, Hfn. }
    apply tool_description_definition.
Qed.

(** ** The merge as the specification words it

    The definitions of this part read a declaration the way the
    specification describes the two shapes, and do not use the normalizer
    of the code. *)

(** The mapping that holds the fields of a declaration: the mapping under
    [function] for the nested shape, the declaration itself for the flat
    shape. *)
Definition declared_fields (schema : py_dict pyval) : py_dict pyval :=
  match dict_lookup "function" schema with
  | Some (PDict fn) => fn
  | _ => schema
  end.

(** The name a declaration declares; none if the name is missing, [None]
    or empty. *)
Definition declared_name (schema : py_dict pyval) : option string :=
  match dict_lookup "name" (declared_fields schema) with
  | Some (PStr s) => if String.eqb s "" then None else Some s
  | _ => None
  end.

Definition declared_description (schema : py_dict pyval) : pyval :=
  match dict_lookup "description" (declared_fields schema) with
  | Some d => d
  | None => PNone
  end.

Definition declares (n : string) (schema : py_dict pyval) : bool :=
  bool_decide (declared_name schema = Some n).

(** A declaration in one of the two shapes: what it holds under [function],
    if anything, is a mapping, and its name is a string, [None] or
    missing. *)
Definition well_formed (schema : py_dict pyval) : bool :=
  match dict_lookup "function" schema with
  | None | Some (PDict _) =>
      match dict_lookup "name" (declared_fields schema) with
      | None | Some PNone | Some (PStr _) => true
      | Some _ => false
      end
  | Some _ => false
  end.

Lemma well_formed_normalizes (schema : py_dict pyval) :
  well_formed schema = true ->
  exists flat,
    _normalize_schema schema = Ok flat
    /\ py_get flat "name" = py_get (declared_fields schema) "name"
    /\ py_get flat "description" = declared_description schema.
Proof.
  unfold well_formed, _normalize_schema, declared_description,
    declared_fields, dict_mem, py_get.
  destruct (dict_lookup "function" schema) as [[| | |fn]|]; try done; simpl.
  - intros _. destruct (truthy _); simpl; by eexists.
  - intros _. by eexists.
Qed.

Lemma well_formed_mergeable (schema : py_dict pyval) :
  well_formed schema = true -> mergeable schema = true.
Proof.
  intros Hwf. destruct (well_formed_normalizes schema Hwf)
    as (flat & Hn & Hname & _).
  unfold mergeable, normalized_name. rewrite Hn. simpl. rewrite Hname.
  unfold well_formed in Hwf. unfold py_get.
  destruct (dict_lookup "function" schema) as [[| | |fn]|]; try done;
    by destruct (dict_lookup "name" _) as [[| | |]|].
Qed.

Lemma well_formed_named (n : string) (schema : py_dict pyval) :
  well_formed schema = true -> n <> "" ->
  named n schema = declares n schema.
Proof.
  intros Hwf Hne. destruct (well_formed_normalizes schema Hwf)
    as (flat & Hn & Hname & _).
  unfold named, normalized_name, declares, declared_name.
  rewrite Hn. simpl. rewrite Hname. unfold py_get.
  destruct (dict_lookup "name" (declared_fields schema)) as [[|s| |]|];
    simpl; try done.
  destruct (String.eqb_spec s n) as [->|Hsn].
  - apply String.eqb_neq in Hne as ->. by rewrite bool_decide_eq_true_2.
  - destruct (String.eqb s ""); rewrite bool_decide_eq_false_2; congruence.
Qed.

Lemma find_ext_Forall {A} (f g : A -> bool) (l : list A) :
  Forall (fun x => f x = g x) l -> List.find f l = List.find g l.
Proof.
  induction 1 as [|x l Hx _ IH]; [done|]. simpl. by rewrite Hx, IH.
Qed.

Lemma find_never {A} (f : A -> bool) (l : list A) :
  (forall x, f x = false) -> List.find f l = None.
Proof.
  intros Hf. induction l as [|x l IH]; [done|]. simpl. by rewrite Hf.
Qed.

Lemma declares_nonempty (n : string) (schema : py_dict pyval) :
  declares n schema = true -> n <> "".
Proof.
  unfold declares, declared_name. intros H%bool_decide_eq_true.
  destruct (dict_lookup "name" _) as [[|s| |]|]; try done.
  destruct (String.eqb_spec s ""); [done|]. by injection H as <-.
Qed.

(** C4. For declarations in one of the two shapes the merge succeeds, and
    the merged list has at most one entry per name, each name a non-empty
    string: a declaration whose name is empty or missing leaves no entry.
    A name is in the merged list exactly if some declaration declares it,
    and its entry carries the description of the first declaration of that
    name in the order caller-supplied, then server-advertised, then
    registry, nested or flat; so a name the caller declares carries the
    caller's description whatever the servers and the registry say. *)
Theorem merge_tools_first_wins (is_responses : bool)
  (explicit mcp_schemas : list (py_dict pyval)) :
  Forall (fun s => well_formed s = true)
    (explicit ++ mcp_schemas ++ SCHEMA_REGISTRY.*2) ->
  exists merged,
    merge_tools is_responses explicit mcp_schemas = Ok merged
    /\ NoDup (tool_name is_responses <$> merged)
    /\ (forall t, t ∈ merged ->
          exists n, tool_name is_responses t = PStr n /\ n <> "")
    /\ (forall n,
          match List.find (declares n)
                  (explicit ++ mcp_schemas ++ SCHEMA_REGISTRY.*2) with
          | Some s =>
              exists t, t ∈ merged
                        /\ tool_name is_responses t = PStr n
                        /\ tool_description is_responses t
                           = declared_description s
          | None =>
              forall t, t ∈ merged -> tool_name is_responses t <> PStr n
          end)
    /\ (forall n s t,
          List.find (declares n) explicit = Some s ->
          t ∈ merged -> tool_name is_responses t = PStr n ->
          tool_description is_responses t = declared_description s).
Proof.
  intros Hwf.
  assert (Hall : Forall (fun s => mergeable s = true)
                   (combine explicit mcp_schemas)).
  { eapply Forall_impl; [exact Hwf|]. apply well_formed_mergeable. }
  destruct (merge_tools_entries is_responses explicit mcp_schemas Hall)
    as (merged & Hm & Hnd & Hnames & Hchar & Hcaller).
  assert (Hfind : forall n, n <> "" ->
            List.find (declares n)
              (explicit ++ mcp_schemas ++ SCHEMA_REGISTRY.*2)
            = first_named n (combine explicit mcp_schemas)).
  { intros n Hne. symmetry. apply find_ext_Forall.
    eapply Forall_impl; [exact Hwf|]. intros s Hs.
    by apply well_formed_named. }
  assert (Hentry : forall n s,
            n <> "" ->
            first_named n (combine explicit mcp_schemas) = Some s ->
            exists t, t ∈ merged /\ tool_name is_responses t = PStr n
                      /\ tool_description is_responses t
                         = declared_description s).
  { intros n s Hne Hf.
    destruct (first_named_normalizes _ _ _ Hf) as (flat & Hn & Hname).
    assert (well_formed s = true) as Hs.
    { rewrite Forall_forall in Hwf. apply Hwf.
      apply find_some in Hf as [Hin _]. by apply list_elem_of_In. }
    destruct (well_formed_normalizes s Hs) as (flat' & Hn' & _ & Hdesc).
    assert (flat' = flat) as -> by congruence.
    exists (tool_definition is_responses flat). split_and!.
    - apply Hchar. by exists n, s, flat.
    - by rewrite tool_name_definition.
    - by rewrite tool_description_definition. }
  exists merged. split_and!; [done..| |].
  - intros n. destruct (decide (n = "")) as [->|Hne].
    + assert (List.find (declares "")
                (explicit ++ mcp_schemas ++ SCHEMA_REGISTRY.*2) = None) as ->.
      { apply find_never. intros s.
        destruct (declares "" s) eqn:Hd; [|done].
        by apply declares_nonempty in Hd. }
      intros t Ht Hname. destruct (Hnames t Ht) as (n & Hn & Hne).
      congruence.
    + rewrite (Hfind n Hne).
      destruct (first_named n (combine explicit mcp_schemas)) as [s|] eqn:Hf.
      * by apply Hentry.
      * intros t (n' & s' & flat & Hne' & Hf' & Hn' & ->)%Hchar Hname.
        rewrite tool_name_definition in Hname.
        destruct (first_named_normalizes _ _ _ Hf') as (flat' & Hn'' & Hnm).
        assert (flat' = flat) as -> by congruence.
        rewrite Hnm in Hname. injection Hname as ->. congruence.
  - intros n s t Hf Ht Hname.
    assert (n <> "") as Hne.
    { apply find_some in Hf as [_ Hd]. by apply declares_nonempty in Hd. }
    assert (first_named n explicit = Some s) as Hf'.
    { rewrite <- Hf. unfold first_named. apply find_ext_Forall.
      apply Forall_app in Hwf as [Hwf _].
      eapply Forall_impl; [exact Hwf|]. intros s' Hs'.
      by apply well_formed_named. }
    destruct (Hcaller n s t Hne Hf' Ht Hname) as (flat & Hn & ->).
    assert (well_formed s = true) as Hs.
    { apply Forall_app in Hwf as [Hwf _]. rewrite Forall_forall in Hwf.
      apply Hwf. apply find_some in Hf as [Hin _]. by apply list_elem_of_In. }
    destruct (well_formed_normalizes s Hs) as (flat' & Hn' & _ & Hdesc).
    congruence.
Qed.

(** ** Reasoning about coroutines *)

Lemma bind_ok {A B} (m : M A) (k : A -> M B) (st st' : state) (a : A) :
  m st = (Ok a, st') -> bind m k st = k a st'.
Proof. intros H. unfold bind. by rewrite H. Qed.

(** Events a tool dispatch may leave in the trace. *)
Definition tool_event (ev : event) : bool :=
  match ev with
  | EvCallTool _ _ _ | EvLocalCall _ _ | EvLog Info _ | EvLog Error _ => true
  | _ => false
  end.

(** A computation that only dispatches: it leaves the heap and the server
    cache alone and adds only tool events to the trace. *)
Definition dispatch_only {A} (m : M A) : Prop :=
  forall st r st',
    m st = (r, st') ->
    heap st' = heap st /\ server_cache st' = server_cache st
    /\ exists evs, trace st' = trace st ++ evs /\ Forall tool_event evs.

Definition never_raises {A} (m : M A) : Prop :=
  forall st, exists a st', m st = (Ok a, st').

Lemma dispatch_only_ret {A} (a : A) : dispatch_only (ret a).
Proof.
  intros st r st' [= <- <-]. split_and!; [done..|].
  exists []. by rewrite app_nil_r.
Qed.

Lemma dispatch_only_raise {A} (e : exn) : dispatch_only (@raise A e).
Proof.
  intros st r st' [= <- <-]. split_and!; [done..|].
  exists []. by rewrite app_nil_r.
Qed.

Lemma dispatch_only_bind {A B} (m : M A) (k : A -> M B) :
  dispatch_only m -> (forall a, dispatch_only (k a)) -> dispatch_only (bind m k).
Proof.
  intros Hm Hk st r st' H. unfold bind in H.
  destruct (m st) as [[a|e] st1] eqn:Hm1.
  - destruct (Hm _ _ _ Hm1) as (Hh & Hc & evs1 & Ht & Hf).
    destruct (Hk a _ _ _ H) as (Hh' & Hc' & evs2 & Ht' & Hf').
    split_and!; [congruence..|]. exists (evs1 ++ evs2).
    rewrite Ht', Ht, app_assoc. split; [done|]. by apply Forall_app.
  - injection H as <- <-. by apply (Hm _ _ _ Hm1).
Qed.

Lemma dispatch_only_try {A} (m : M A) (h : exn -> M A) :
  dispatch_only m -> (forall e, dispatch_only (h e)) ->
  dispatch_only (try_except m h).
Proof.
  intros Hm Hh st r st' H. unfold try_except in H.
  destruct (m st) as [[a|e] st1] eqn:Hm1.
  - injection H as <- <-. by apply (Hm _ _ _ Hm1).
  - destruct (Hm _ _ _ Hm1) as (Hh1 & Hc & evs1 & Ht & Hf).
    destruct (Hh e _ _ _ H) as (Hh' & Hc' & evs2 & Ht' & Hf').
    split_and!; [congruence..|]. exists (evs1 ++ evs2).
    rewrite Ht', Ht, app_assoc. split; [done|]. by apply Forall_app.
Qed.

Lemma dispatch_only_external {A} (f : W -> res A * W) (ev : event) :
  tool_event ev = true -> dispatch_only (external f ev).
Proof.
  intros Hev st r st' H. unfold external in H.
  destruct (f (world st)) as [r1 w']. injection H as <- <-. simpl.
  split_and!; [done..|]. exists [ev]. split; [done|].
  constructor; [by rewrite Hev|constructor].
Qed.

Lemma dispatch_only_emit (ev : event) :
  tool_event ev = true -> dispatch_only (emit ev).
Proof.
  intros Hev st r st' [= <- <-]. simpl.
  split_and!; [done..|]. exists [ev]. split; [done|].
  constructor; [by rewrite Hev|constructor].
Qed.

(** ** Tool dispatcher *)

(** The two messages a chat dispatch hands back. *)
Definition chat_part (call : tool_call) (text : string) : part :=
  PartList [AssistantToolCalls [call];
            ToolMessage (tc_name call) text (default PNone (id call))].

Definition error_text (fn_name : string) (e : exn) : string :=
  "Error calling MCP tool " +:+ fn_name +:+ ": " +:+ exn_text e.

Lemma process_tool_call_dispatch_only call fn_name fn_args server_lookup
  provider is_responses :
  dispatch_only (_process_tool_call call fn_name fn_args server_lookup
                   provider is_responses).
Proof.
  unfold _process_tool_call. apply dispatch_only_bind.
  - destruct (server_lookup !! fn_name) as [server|].
    + apply dispatch_only_bind; [by apply dispatch_only_emit|]. intros _.
      apply dispatch_only_try.
      * apply dispatch_only_bind; [by apply dispatch_only_external|].
        intros a. apply dispatch_only_ret.
      * intros e. apply dispatch_only_bind; [by apply dispatch_only_emit|].
        intros _. apply dispatch_only_ret.
    + apply dispatch_only_bind; [by apply dispatch_only_emit|]. intros _.
      destruct (FUNCTION_REGISTRY !! fn_name).
      * by apply dispatch_only_external.
      * apply dispatch_only_raise.
  - intros output. destruct is_responses; apply dispatch_only_ret.
Qed.

Lemma execute_tool_dispatch_only fn_name fn_args server_lookup :
  dispatch_only (_execute_tool fn_name fn_args server_lookup).
Proof.
  unfold _execute_tool. destruct (server_lookup !! fn_name) as [server|].
  - apply dispatch_only_bind; [by apply dispatch_only_external|].
    intros a. apply dispatch_only_ret.
  - destruct (FUNCTION_REGISTRY !! fn_name).
    + by apply dispatch_only_external.
    + apply dispatch_only_raise.
Qed.

(** A chat dispatch that resolves to a tool server never raises: the reply's
    [content] (or [None]) or the error text becomes the tool message. *)
Lemma process_tool_call_server call fn_name fn_args server_lookup provider
  server st :
  server_lookup !! fn_name = Some server ->
  exists text st',
    _process_tool_call call fn_name fn_args server_lookup provider false st
    = (Ok (PartList [AssistantToolCalls [call];
                     ToolMessage fn_name text (default PNone (id call))]),
       st')
    /\ text = match call_tool server fn_name fn_args (world st) with
              | (Ok reply, _) => py_str (py_get reply "content")
              | (Raise e, _) => error_text fn_name e
              end.
Proof.
  intros Hs. unfold _process_tool_call, bind, emit, try_except, external, ret.
  rewrite Hs. simpl.
  destruct (call_tool server fn_name fn_args (world st)) as [[reply|e] w'];
    simpl; eauto.
Qed.

(** A chat dispatch of a local callable: the lookup failure, or the
    callable's own outcome. *)
Lemma process_tool_call_local call fn_name fn_args server_lookup provider st :
  server_lookup !! fn_name = None ->
  exists st1,
    _process_tool_call call fn_name fn_args server_lookup provider false st
    = match FUNCTION_REGISTRY !! fn_name with
      | None =>
          (Raise (Exn "KeyError" ("Tool '" +:+ fn_name +:+ "' not registered")),
           st1)
      | Some fn =>
          match fn fn_args (world st) with
          | (Ok output, w') =>
              (Ok (PartList [AssistantToolCalls [call];
                             ToolMessage fn_name (py_str output)
                               (default PNone (id call))]),
               State w' (server_cache st1) (heap st1)
                     (trace st1 ++ [EvLocalCall fn_name fn_args]))
          | (Raise e, w') =>
              (Raise e,
               State w' (server_cache st1) (heap st1)
                     (trace st1 ++ [EvLocalCall fn_name fn_args]))
          end
      end.
Proof.
  intros Hs. unfold _process_tool_call, bind, emit, external, raise, ret.
  rewrite Hs. simpl. eexists (State _ _ _ _).
  destruct (FUNCTION_REGISTRY !! fn_name) as [fn|]; simpl; [|reflexivity].
  destruct (fn fn_args (world st)) as [[output|e] w']; reflexivity.
Qed.

(** ** Concurrent dispatch *)

Lemma completion_order_perm (w : W) (n : nat) :
  completion_order w n ≡ₚ seq 0 n.
Proof. apply merge_sort_Permutation. Qed.

Lemma completion_order_lt (w : W) (n i : nat) :
  i ∈ completion_order w n -> i < n.
Proof.
  rewrite completion_order_perm, list_elem_of_In, in_seq. lia.
Qed.

Lemma run_in_order_fst {A} (tasks : list (M A)) (order : list nat)
  (st st' : state) (finished : list (nat * A)) :
  Forall (fun i => i < length tasks) order ->
  run_in_order tasks order st = (Ok finished, st') ->
  finished.*1 = order.
Proof.
  intros Hall. revert st finished.
  induction Hall as [|i order Hi _ IH]; intros st finished; simpl.
  - by intros [= <- _].
  - destruct (lookup_lt_is_Some_2 tasks i Hi) as [task ->].
    unfold bind at 1. destruct (task st) as [[r|e] st1]; [|done].
    unfold bind at 1.
    destruct (run_in_order tasks order st1) as [[finished1|e] st2] eqn:Hrun;
      [|done].
    intros [= <- <-]. simpl. f_equal. by eapply IH.
Qed.

Lemma completed_Some {A} (i : nat) (finished : list (nat * A)) :
  i ∈ finished.*1 -> is_Some (completed i finished).
Proof.
  induction finished as [|[j r'] finished IH]; simpl; [by intros ?%elem_of_nil|].
  destruct (Nat.eqb_spec i j) as [->|Hne]; [by eexists|].
  intros [?|?]%elem_of_cons; [done|by apply IH].
Qed.

Lemma completed_None {A} (i : nat) (finished : list (nat * A)) :
  i ∉ finished.*1 -> completed i finished = None.
Proof.
  induction finished as [|[j r'] finished IH]; simpl; [done|].
  rewrite not_elem_of_cons. intros [Hne Hni].
  destruct (Nat.eqb_spec i j); [done|by apply IH].
Qed.

Lemma omap_all_Some {A B} (f : A -> option B) (l : list A) :
  Forall (fun x => is_Some (f x)) l ->
  length (omap f l) = length l
  /\ forall i x, l !! i = Some x -> omap f l !! i = f x.
Proof.
  induction 1 as [|x l [y Hy] _ [IHlen IHlk]]; [done|].
  change (omap f (x :: l))
    with (match f x with Some y => y :: omap f l | None => omap f l end).
  rewrite Hy. split; [simpl; by f_equal|].
  intros [|i] x'; simpl; [by intros [= <-]|apply IHlk].
Qed.

(** What [gather] returns when no coroutine raises: the results by position
    in the batch, whatever the order [finished] in which they completed. *)
Lemma gather_ok {A} (tasks : list (M A)) (st st' : state) (rs : list A) :
  gather tasks st = (Ok rs, st') ->
  exists finished,
    run_in_order tasks (completion_order (world st) (length tasks)) st
    = (Ok finished, st')
    /\ finished.*1 = completion_order (world st) (length tasks)
    /\ length rs = length tasks
    /\ forall i, rs !! i = completed i finished.
Proof.
  unfold gather, bind, ret.
  destruct (run_in_order _ _ st) as [[finished|e] st1] eqn:Hrun; [|done].
  intros [= <- <-]. exists finished.
  assert (finished.*1 = completion_order (world st) (length tasks)) as Hfst.
  { eapply run_in_order_fst; [|done].
    apply Forall_forall. intros i. apply completion_order_lt. }
  destruct (omap_all_Some (fun i => completed i finished) (seq 0 (length tasks)))
    as [Hlen Hlk].
  { apply Forall_forall. intros i Hi. apply completed_Some.
    rewrite Hfst, completion_order_perm. done. }
  rewrite length_seq in Hlen. split_and!; [done..|].
  intros i. destruct (decide (i < length tasks)) as [Hi|Hi].
  - apply Hlk. by rewrite lookup_seq_lt.
  - rewrite lookup_ge_None_2 by lia. symmetry. apply completed_None.
    rewrite Hfst. intros Hin%completion_order_lt. lia.
Qed.

Lemma gather_raise {A} (tasks : list (M A)) (st st' : state) (e : exn) :
  gather tasks st = (Raise e, st') ->
  run_in_order tasks (completion_order (world st) (length tasks)) st
  = (Raise e, st').
Proof.
  unfold gather, bind, ret.
  destruct (run_in_order _ _ st) as [[finished|e'] st1]; [done|].
  by intros [= <- <-].
Qed.

Lemma run_in_order_dispatch_only {A} (tasks : list (M A)) (order : list nat) :
  Forall dispatch_only tasks -> dispatch_only (run_in_order tasks order).
Proof.
  intros Hall. induction order as [|i order IH]; simpl.
  - apply dispatch_only_ret.
  - destruct (tasks !! i) as [task|] eqn:Hi; [|done].
    apply dispatch_only_bind.
    + eapply Forall_lookup_1; eauto.
    + intros r. apply dispatch_only_bind; [done|]. intros. apply dispatch_only_ret.
Qed.

Lemma gather_dispatch_only {A} (tasks : list (M A)) :
  Forall dispatch_only tasks -> dispatch_only (gather tasks).
Proof.
  intros Hall st r st' H. unfold gather in H.
  eapply (dispatch_only_bind (run_in_order tasks _) _); [|..|exact H].
  - by apply run_in_order_dispatch_only.
  - intros. apply dispatch_only_ret.
Qed.

Lemma run_in_order_never_raises {A} (tasks : list (M A)) (order : list nat) :
  Forall never_raises tasks -> never_raises (run_in_order tasks order).
Proof.
  intros Hall. induction order as [|i order IH]; intros st; simpl.
  - by eexists _, _.
  - destruct (tasks !! i) as [task|] eqn:Hi; [|done].
    destruct (Forall_lookup_1 _ _ _ _ Hall Hi st) as (r & st1 & Hr).
    destruct (IH st1) as (finished & st2 & Hd).
    exists ((i, r) :: finished), st2.
    rewrite (bind_ok _ _ _ _ _ Hr), (bind_ok _ _ _ _ _ Hd). done.
Qed.

Lemma gather_never_raises {A} (tasks : list (M A)) :
  Forall never_raises tasks -> never_raises (gather tasks).
Proof.
  intros Hall st. unfold gather.
  destruct (run_in_order_never_raises tasks
              (completion_order (world st) (length tasks)) Hall st)
    as (finished & st1 & Hd).
  rewrite (bind_ok _ _ _ _ _ Hd). by eexists _, _.
Qed.

Lemma run_in_order_results {A} (tasks : list (M A)) (order : list nat)
  (st st' : state) (finished : list (nat * A)) :
  run_in_order tasks order st = (Ok finished, st') ->
  forall i r, (i, r) ∈ finished ->
    exists task sa sb, tasks !! i = Some task /\ task sa = (Ok r, sb).
Proof.
  revert st finished. induction order as [|j order IH]; intros st finished; simpl.
  - intros [= <- _] i r ?%elem_of_nil. done.
  - destruct (tasks !! j) as [task|] eqn:Hj; [|by apply IH].
    unfold bind at 1. destruct (task st) as [[r1|e] st1] eqn:Ht; [|done].
    unfold bind at 1.
    destruct (run_in_order tasks order st1) as [[fin1|e] st2] eqn:Hrun; [|done].
    intros [= <- <-] i r [[= -> ->]|Hin]%elem_of_cons.
    + by exists task, st, st1.
    + by eapply IH.
Qed.

(** ** The chat loop: one batch *)

Section Drivers.

Variable provider : string.
Variable explicit : list (py_dict pyval).
Variable server_lookup : gmap string handle.

(** The coroutine the loop creates for a request. *)
Definition chat_task (call : tool_call) (parsed : pyval) : M part :=
  _process_tool_call call (tc_name call) parsed server_lookup provider false.

Definition call_entries (call : tool_call) (text : string) : list entry :=
  [AssistantToolCalls [call];
   ToolMessage (tc_name call) text (default PNone (id call))].

Definition part_entries (p : part) : list entry :=
  match p with
  | PartList es => es
  | PartDict _ =>
      [Given (PStr "type"); Given (PStr "call_id"); Given (PStr "output")]
  end.

Definition part_text (p : part) : string :=
  match p with
  | PartList [_; ToolMessage _ text _] => text
  | _ => ""
  end.

(** The content of the list object at [l]. *)
Definition contents (st : state) (l : loc) : list entry :=
  default [] (heap st !! l).

Lemma chat_task_shape (call : tool_call) (parsed : pyval) (st st' : state)
  (p : part) :
  chat_task call parsed st = (Ok p, st') ->
  p = PartList (call_entries call (part_text p)).
Proof.
  unfold chat_task. destruct (server_lookup !! tc_name call) as [srv|] eqn:Hs.
  - destruct (process_tool_call_server call (tc_name call) parsed
                server_lookup provider srv st Hs) as (text & st1 & -> & _).
    by intros [= <- _].
  - destruct (process_tool_call_local call (tc_name call) parsed
                server_lookup provider st Hs) as (st1 & ->).
    destruct (FUNCTION_REGISTRY !! tc_name call) as [fn|]; [|done].
    destruct (fn parsed (world st)) as [[out|e] w']; [|done].
    by intros [= <- _].
Qed.

Lemma parse_all_length (calls : list tool_call) (args : list pyval) :
  parse_all calls = Ok args -> length args = length calls.
Proof.
  revert args. induction calls as [|c calls IH]; intros args; simpl.
  - by intros [= <-].
  - destruct (parse_arguments (tc_arguments c)); [|done]. simpl.
    destruct (parse_all calls) as [args'|]; [|done]. simpl.
    intros [= <-]. simpl. f_equal. by apply IH.
Qed.

Lemma build_tasks_Some (names : list pyval) (calls : list tool_call)
  (acc tasks : list (M part)) :
  build_tasks provider server_lookup names calls acc
  = Ok (Some tasks) ->
  exists args,
    parse_all calls = Ok args
    /\ tasks = acc ++ zip_with chat_task calls args
    /\ Forall (fun c => caller_only server_lookup names (tc_name c) = false)
         calls.
Proof.
  revert acc. induction calls as [|c calls IH]; intros acc; simpl.
  - intros [= <-]. exists []. by rewrite app_nil_r.
  - destruct (parse_arguments (tc_arguments c)) as [a|]; [|done].
    simpl. destruct (caller_only server_lookup names (tc_name c)) eqn:Hg;
      [done|].
    intros (args & -> & -> & Hall)%IH. exists (a :: args). simpl.
    split_and!; [done| |by constructor]. by rewrite <- app_assoc.
Qed.

(** A request the loop can serve: its arguments parse and the guard lets it
    through. *)
Definition admitted (names : list pyval) (call : tool_call) : Prop :=
  is_ok (parse_arguments (tc_arguments call)) = true
  /\ caller_only server_lookup names (tc_name call) = false.

Lemma build_tasks_admitted (names : list pyval) (calls : list tool_call)
  (acc : list (M part)) :
  Forall (admitted names) calls ->
  exists args,
    parse_all calls = Ok args
    /\ build_tasks provider server_lookup names calls acc
       = Ok (Some (acc ++ zip_with chat_task calls args)).
Proof.
  intros Hall. revert acc.
  induction Hall as [|c calls [Hp Hg] _ IH]; intros acc; simpl.
  - exists []. by rewrite app_nil_r.
  - destruct (parse_arguments (tc_arguments c)) as [a|]; [|done].
    simpl. rewrite Hg.
    destruct (IH (acc ++ [chat_task c a])) as (args & Hpa & Hb).
    rewrite Hpa. exists (a :: args). split; [done|].
    etrans; [exact Hb|]. simpl. by rewrite <- app_assoc.
Qed.

(** The guard: a request that names a caller-only tool ends the loop over
    the requests, provided the arguments up to it parse. *)
Lemma build_tasks_guard (names : list pyval)
  (before after : list tool_call) (call : tool_call) (acc : list (M part)) :
  Forall (fun c => is_ok (parse_arguments (tc_arguments c)) = true) before ->
  is_ok (parse_arguments (tc_arguments call)) = true ->
  caller_only server_lookup names (tc_name call) = true ->
  build_tasks provider server_lookup names (before ++ call :: after) acc
  = Ok None.
Proof.
  intros Hall Hp Hg. revert acc.
  induction Hall as [|c calls Hp' _ IH]; intros acc; simpl.
  - destruct (parse_arguments (tc_arguments call)); [|done].
    simpl. by rewrite Hg.
  - destruct (parse_arguments (tc_arguments c)); [|done].
    simpl. destruct (caller_only server_lookup names (tc_name c)); [done|].
    apply IH.
Qed.

Lemma extend_spec (l : loc) (es : list entry) (st : state) :
  exists h,
    extend l es st = (Ok tt, State (world st) (server_cache st) h (trace st))
    /\ default [] (h !! l) = contents st l ++ es
    /\ forall l', l' <> l -> h !! l' = heap st !! l'.
Proof.
  eexists. split; [reflexivity|]. split.
  - by rewrite lookup_insert_eq.
  - intros l' Hne. by rewrite lookup_insert_ne.
Qed.

Lemma extend_parts_spec (l : loc) (parts : list part) (st : state) :
  exists h,
    extend_parts l parts st
    = (Ok tt, State (world st) (server_cache st) h (trace st))
    /\ default [] (h !! l) = contents st l ++ concat (part_entries <$> parts)
    /\ forall l', l' <> l -> h !! l' = heap st !! l'.
Proof.
  revert st. induction parts as [|p parts IH]; intros st; simpl.
  - exists (heap st). split; [by destruct st|]. by rewrite app_nil_r.
  - destruct (extend_spec l (part_entries p) st) as (h1 & He & Hl & Hf).
    assert (extend_part l p st
            = (Ok tt, State (world st) (server_cache st) h1 (trace st))) as Hp.
    { by destruct p. }
    rewrite (bind_ok _ _ _ _ _ Hp).
    destruct (IH (State (world st) (server_cache st) h1 (trace st)))
      as (h2 & -> & Hl2 & Hf2).
    exists h2. simpl in *. split; [done|]. split.
    + unfold contents in Hl2. simpl in Hl2. by rewrite Hl2, Hl, <- app_assoc.
    + intros l' Hne. by rewrite Hf2, Hf.
Qed.

Lemma completed_Some_elem {A} (i : nat) (r : A) (finished : list (nat * A)) :
  completed i finished = Some r -> (i, r) ∈ finished.
Proof.
  induction finished as [|[j r'] finished IH]; simpl; [done|].
  destruct (Nat.eqb_spec i j) as [->|].
  - intros [= ->]. left.
  - intros H. right. auto.
Qed.

Lemma chat_tasks_dispatch_only (calls : list tool_call) (args : list pyval) :
  Forall dispatch_only (zip_with chat_task calls args).
Proof.
  revert args. induction calls as [|c calls IH]; intros [|a args]; simpl;
    try constructor; [|apply IH].
  apply process_tool_call_dispatch_only.
Qed.

(** What a completed batch leaves behind.  [finished] lists the dispatches
    in the order they completed; the messages are appended in the order of
    the requests. *)
Lemma dispatch_round_true (l : loc) (calls : list tool_call)
  (st st' : state) :
  dispatch_round provider explicit server_lookup l calls st = (Ok true, st') ->
  exists names args finished st1 texts,
    explicit_names explicit = Ok names
    /\ parse_all calls = Ok args
    /\ Forall (fun c => caller_only server_lookup names (tc_name c) = false)
         calls
    /\ run_in_order (zip_with chat_task calls args)
         (completion_order (world st) (length calls)) st = (Ok finished, st1)
    /\ finished.*1 = completion_order (world st) (length calls)
    /\ length texts = length calls
    /\ (forall i call text,
          calls !! i = Some call -> texts !! i = Some text ->
          completed i finished = Some (PartList (call_entries call text)))
    /\ contents st' l
       = contents st l ++ concat (zip_with call_entries calls texts)
    /\ (forall l', l' <> l -> heap st' !! l' = heap st !! l')
    /\ world st' = world st1 /\ server_cache st' = server_cache st
    /\ exists evs, trace st' = trace st ++ evs /\ Forall tool_event evs.
Proof.
  unfold dispatch_round, bind, lift_res, ret.
  destruct (explicit_names explicit) as [names|] eqn:Hnames; [|done].
  destruct (build_tasks provider server_lookup names calls [])
    as [[tasks|]|] eqn:Hb; [|done..].
  apply build_tasks_Some in Hb as (args & Hargs & -> & Hguard). simpl.
  pose proof (parse_all_length _ _ Hargs) as Hlen.
  destruct (gather (zip_with chat_task calls args) st) as [[parts|e] st1]
    eqn:Hg; [|done].
  pose proof (gather_dispatch_only _ (chat_tasks_dispatch_only calls args)
                _ _ _ Hg) as (Hheap & Hcache & evs & Htrace & Hevs).
  apply gather_ok in Hg as (finished & Hrun & Hfst & Hplen & Hparts).
  rewrite length_zip_with, Hlen, Nat.min_id in Hrun, Hfst, Hplen.
  destruct (extend_parts_spec l parts st1) as (h & -> & Hh & Hframe).
  intros [= <-]. simpl.
  exists names, args, finished, st1, (part_text <$> parts).
  assert (Hshape : forall i call p,
            calls !! i = Some call -> parts !! i = Some p ->
            p = PartList (call_entries call (part_text p))).
  { intros i call p Hc Hp. rewrite Hparts in Hp.
    apply completed_Some_elem in Hp.
    destruct (run_in_order_results _ _ _ _ _ Hrun i p Hp)
      as (task & sa & sb & Ht & Hrun1).
    rewrite lookup_zip_with, Hc in Ht. simpl in Ht.
    destruct (args !! i) as [a|]; [|done]. injection Ht as <-.
    by eapply chat_task_shape. }
  split_and!; try done.
  - by rewrite length_fmap.
  - intros i call text Hc Ht. rewrite list_lookup_fmap in Ht.
    destruct (parts !! i) as [p|] eqn:Hp; [|done]. injection Ht as <-.
    rewrite <- Hparts, Hp. f_equal. by eapply Hshape.
  - unfold contents at 1. simpl. rewrite Hh. unfold contents. rewrite Hheap.
    do 2 f_equal. apply list_eq. intros i.
    rewrite list_lookup_fmap, lookup_zip_with, list_lookup_fmap.
    destruct (calls !! i) as [call|] eqn:Hc; simpl.
    + destruct (parts !! i) as [p|] eqn:Hp; [|done]. simpl.
      rewrite (Hshape i call p Hc Hp) at 1. done.
    + apply lookup_ge_None in Hc. rewrite lookup_ge_None_2 by lia. done.
  - intros l' Hne. by rewrite Hframe, Hheap.
  - by exists evs.
Qed.

(** A batch that appends nothing: the guard fired, or something raised. *)
Lemma dispatch_round_other (l : loc) (calls : list tool_call)
  (st st' : state) (r : res bool) :
  dispatch_round provider explicit server_lookup l calls st = (r, st') ->
  r <> Ok true ->
  heap st' = heap st /\ server_cache st' = server_cache st
  /\ (r = Ok false -> st' = st)
  /\ exists evs, trace st' = trace st ++ evs /\ Forall tool_event evs.
Proof.
  unfold dispatch_round, bind, lift_res, ret.
  assert (Hsame : heap st = heap st /\ server_cache st = server_cache st
            /\ (r = Ok false -> st = st)
            /\ exists evs, trace st = trace st ++ evs /\ Forall tool_event evs).
  { split_and!; try done. exists []. by rewrite app_nil_r. }
  destruct (explicit_names explicit) as [names|]; [|by intros [= <- <-]].
  destruct (build_tasks provider server_lookup names calls [])
    as [[tasks|]|] eqn:Hb; [|by intros [= <- <-]..].
  apply build_tasks_Some in Hb as (args & Hargs & -> & Hguard). simpl.
  destruct (gather (zip_with chat_task calls args) st) as [[parts|e] st1]
    eqn:Hg.
  - destruct (extend_parts_spec l parts st1) as (h & -> & _).
    by intros [= <- _] ?.
  - pose proof (gather_dispatch_only _ (chat_tasks_dispatch_only calls args)
                  _ _ _ Hg) as (Hheap & Hcache & evs & Htrace & Hevs).
    intros [= <- <-] _. split_and!; try done. by exists evs.
Qed.

(** ** The chat loop *)

Variable model : string.
Variable api_key : pyval.
Variable async_mode : bool.

Abbreviation chat_loop' :=
  (chat_loop model provider api_key async_mode explicit server_lookup).
Abbreviation chat_request' := (chat_request model provider api_key async_mode).
Abbreviation dispatch_round' := (dispatch_round provider explicit server_lookup).

Definition is_chat_call (ev : event) : bool :=
  match ev with EvChatCall _ _ => true | _ => false end.

(** The model calls of a trace. *)
Definition chat_calls (tr : list event) : list event := filter is_chat_call tr.

(** One iteration of the loop, spelled out. *)
Lemma chat_loop_step (fuel : nat) (l : loc) (loop_count : nat)
  (clean_kwargs : py_dict pyval) (final_tools : option (list pyval))
  (st : state) :
  chat_loop' (S fuel) l loop_count clean_kwargs final_tools st
  = let rq := chat_request' (contents st l) clean_kwargs final_tools in
    let resp := (chat_backend rq (world st)).1 in
    let st1 := State (chat_backend rq (world st)).2 (server_cache st) (heap st)
                     (trace st ++ [EvChatCall rq resp]) in
    if bool_decide (cr_tool_calls resp = [])
       || (MAX_TOOL_LOOPS <=? loop_count + 1)
    then
      (Ok (Some resp),
       if MAX_TOOL_LOOPS <=? loop_count + 1
       then State (world st1) (server_cache st1) (heap st1)
                  (trace st1 ++ [max_loops_warning])
       else st1)
    else
      match dispatch_round' l (cr_tool_calls resp) st1 with
      | (Ok true, st2) =>
          chat_loop' fuel l (loop_count + 1)
            (dict_pop "tool_choice" (dict_pop "tools" clean_kwargs)) None st2
      | (Ok false, st2) => (Ok (Some resp), st2)
      | (Raise e, st2) => (Raise e, st2)
      end.
Proof.
  cbn [chat_loop]. unfold bind at 1. unfold read_list at 1.
  fold (contents st l). unfold bind at 1. unfold chat_call at 1.
  destruct (chat_backend _ (world st)) as [resp w'] eqn:Hb. cbn [fst snd].
  destruct (bool_decide (cr_tool_calls resp = [])
            || (MAX_TOOL_LOOPS <=? loop_count + 1)) eqn:Hc.
  - destruct (MAX_TOOL_LOOPS <=? loop_count + 1); reflexivity.
  - unfold bind at 1.
    destruct (dispatch_round' l (cr_tool_calls resp) _) as [[[]|e] st2];
      reflexivity.
Qed.

(** A request the dispatcher serves without raising: a tool of a connected
    server, or a registered callable that does not raise. *)
Definition servable (call : tool_call) : Prop :=
  in_lookup (tc_name call) server_lookup = true
  \/ exists fn, FUNCTION_REGISTRY !! tc_name call = Some fn
                /\ forall a w, is_ok (fn a w).1 = true.

Lemma chat_task_never_raises (call : tool_call) (parsed : pyval) :
  servable call -> never_raises (chat_task call parsed).
Proof.
  intros Hs st. unfold chat_task.
  destruct (server_lookup !! tc_name call) as [srv|] eqn:Hl.
  - destruct (process_tool_call_server call (tc_name call) parsed
                server_lookup provider srv st Hl) as (text & st' & -> & _).
    by eexists _, _.
  - destruct Hs as [Hs|(fn & Hfn & Hok)].
    { unfold in_lookup in Hs. by rewrite Hl in Hs. }
    destruct (process_tool_call_local call (tc_name call) parsed
                server_lookup provider st Hl) as (st1 & ->).
    rewrite Hfn. specialize (Hok parsed (world st)).
    destruct (fn parsed (world st)) as [[out|e] w']; [|done].
    by eexists _, _.
Qed.

Lemma dispatch_round_admitted (names : list pyval) (l : loc)
  (calls : list tool_call) (st : state) :
  explicit_names explicit = Ok names ->
  Forall (admitted names) calls -> Forall servable calls ->
  exists st', dispatch_round' l calls st = (Ok true, st').
Proof.
  intros Hn Ha Hs. unfold dispatch_round, bind, lift_res, ret. rewrite Hn.
  destruct (build_tasks_admitted names calls [] Ha) as (args & Hargs & ->).
  simpl.
  assert (Forall never_raises (zip_with chat_task calls args)) as Hnr.
  { clear Hargs Ha. revert args.
    induction Hs as [|c calls Hc _ IH]; intros [|a args]; simpl;
      try constructor; [|apply IH].
    by apply chat_task_never_raises. }
  destruct (gather_never_raises _ Hnr st) as (parts & st1 & ->).
  destruct (extend_parts_spec l parts st1) as (h & -> & _).
  by eexists.
Qed.

Lemma tool_events_no_chat_calls (evs : list event) :
  Forall tool_event evs -> chat_calls evs = [].
Proof.
  unfold chat_calls. induction 1 as [|ev evs Hev _ IH]; [done|].
  rewrite filter_cons, IH. by destruct ev.
Qed.

(** The guard when it fires.  Take a round of the chat loop whose response
    requests, at some position, a tool whose name is among the names the
    guard collects from the caller's declarations but neither a key of the
    server lookup nor of the registry's schemas, and suppose the arguments
    of the requests up to and including that one parse.  Then the driver
    returns that response as it is: no tool of the batch is dispatched
    (after the model call the trace gains nothing, or only the loop-cap
    warning) and no list object changes. *)
Lemma caller_only_request_returns_response (fuel : nat) (l : loc)
  (loop_count : nat) (clean_kwargs : py_dict pyval)
  (final_tools : option (list pyval)) (st : state) (names : list pyval)
  (before after : list tool_call) (call : tool_call) :
  let rq := chat_request model provider api_key async_mode (contents st l)
              clean_kwargs final_tools in
  let resp := (chat_backend rq (world st)).1 in
  explicit_names explicit = Ok names ->
  cr_tool_calls resp = before ++ call :: after ->
  Forall (fun c => is_ok (parse_arguments (tc_arguments c)) = true)
    (before ++ [call]) ->
  name_in (tc_name call) names = true ->
  in_lookup (tc_name call) server_lookup = false ->
  dict_mem (tc_name call) SCHEMA_REGISTRY = false ->
  exists st' evs,
    chat_loop model provider api_key async_mode explicit server_lookup
      (S fuel) l loop_count clean_kwargs final_tools st
    = (Ok (Some resp), st')
    /\ heap st' = heap st
    /\ trace st' = trace st ++ EvChatCall rq resp :: evs
    /\ (evs = [] \/ evs = [max_loops_warning]).
Proof.
  intros rq resp Hn Hcalls Hparse Hin Hlk Hreg.
  apply Forall_app in Hparse as [Hbefore Hcall].
  apply Forall_inv in Hcall.
  rewrite chat_loop_step. cbn zeta. fold rq. fold resp.
  destruct (bool_decide (cr_tool_calls resp = [])
            || (MAX_TOOL_LOOPS <=? loop_count + 1)) eqn:Hc.
  - destruct (MAX_TOOL_LOOPS <=? loop_count + 1).
    + eexists _, [max_loops_warning]. split_and!; [done|done| |by right].
      simpl. by rewrite <- app_assoc.
    + eexists _, []. split_and!; [done|done|done|by left].
  - assert (dispatch_round provider explicit server_lookup l
              (cr_tool_calls resp)
              (State (chat_backend rq (world st)).2 (server_cache st) (heap st)
                     (trace st ++ [EvChatCall rq resp]))
            = (Ok false, State (chat_backend rq (world st)).2 (server_cache st)
                               (heap st) (trace st ++ [EvChatCall rq resp])))
      as ->.
    { unfold dispatch_round, bind, lift_res, ret. rewrite Hn, Hcalls.
      rewrite (build_tasks_guard names before after call []);
        [done|done|done|].
      unfold caller_only. by rewrite Hin, Hlk, Hreg. }
    eexists _, []. split_and!; [done|done|done|by left].
Qed.

(** The loop from iteration [loop_count + 1] on, when every response
    requests tools that are admitted and served: it stops at the cap. *)
Lemma chat_loop_to_cap (names : list pyval) (l : loc) :
  explicit_names explicit = Ok names ->
  (forall rq w,
      cr_tool_calls (chat_backend rq w).1 <> []
      /\ Forall (admitted names) (cr_tool_calls (chat_backend rq w).1)
      /\ Forall servable (cr_tool_calls (chat_backend rq w).1)) ->
  forall (k loop_count fuel : nat) (clean_kwargs : py_dict pyval)
         (final_tools : option (list pyval)) (st : state),
    loop_count + S k = MAX_TOOL_LOOPS -> S k <= fuel ->
    exists rq resp st' evs,
      chat_loop' fuel l loop_count clean_kwargs final_tools st
      = (Ok (Some resp), st')
      /\ trace st' = trace st ++ evs
      /\ length (chat_calls evs) = S k
      /\ last (chat_calls evs) = Some (EvChatCall rq resp)
      /\ last evs = Some max_loops_warning.
Proof.
  intros Hn Hmodel k.
  induction k as [|k IH]; intros loop_count fuel kw ft st Hk Hfuel;
    (destruct fuel as [|fuel]; [lia|]); rewrite chat_loop_step; cbn zeta;
    set (rq := chat_request' (contents st l) kw ft);
    destruct (Hmodel rq (world st)) as (Hne & Ha & Hs).
  - replace (MAX_TOOL_LOOPS <=? loop_count + 1) with true
      by (symmetry; apply Nat.leb_le; lia).
    rewrite orb_true_r.
    eexists rq, _, _, [EvChatCall rq (chat_backend rq (world st)).1;
                       max_loops_warning].
    split_and!; [reflexivity| |reflexivity..].
    simpl. by rewrite <- app_assoc.
  - replace (MAX_TOOL_LOOPS <=? loop_count + 1) with false
      by (symmetry; apply Nat.leb_gt; lia).
    rewrite bool_decide_eq_false_2 by done. simpl orb. cbv iota.
    set (st1 := State _ _ _ _).
    destruct (dispatch_round_admitted names l _ st1 Hn Ha Hs) as (st2 & Hd).
    rewrite Hd.
    destruct (dispatch_round_true _ _ _ _ Hd)
      as (? & ? & ? & ? & ? & _ & _ & _ & _ & _ & _ & _ & _ & _ & _ & _
          & tevs & Ht2 & Htool).
    destruct (IH (loop_count + 1) fuel
                (dict_pop "tool_choice" (dict_pop "tools" kw)) None st2)
      as (rq' & resp' & st' & evs & -> & Ht' & Hlen & Hlast & Hwarn);
      [lia..|].
    exists rq', resp', st', (EvChatCall rq (chat_backend rq (world st)).1
                             :: tevs ++ evs).
    assert (chat_calls (EvChatCall rq (chat_backend rq (world st)).1
                        :: tevs ++ evs)
            = EvChatCall rq (chat_backend rq (world st)).1 :: chat_calls evs)
      as Hcc.
    { unfold chat_calls. rewrite filter_cons, filter_app. simpl.
      fold (chat_calls tevs). by rewrite tool_events_no_chat_calls. }
    split_and!; [done| | | |].
    + rewrite Ht', Ht2. subst st1. simpl. by rewrite <- !app_assoc.
    + rewrite Hcc. simpl. by rewrite Hlen.
    + rewrite Hcc. destruct (chat_calls evs); [done|]. by rewrite last_cons_cons.
    + destruct evs as [|ev evs]; [done|].
      rewrite app_comm_cons, last_app. by rewrite Hwarn.
Qed.

(** C3 (as amended).  If every response of the model requests at least one
    tool call, every such request is admitted (its arguments parse and the
    caller-only guard lets it through) and served without raising (by a
    connected server, or by a registered callable that does not raise), then
    the chat loop returns after exactly 20 model calls, with the response of
    the 20th call as it is, and its last action is the max-tool-loops
    warning; nothing is raised, and any fuel of at least 20 iterations is
    enough.  And whenever a response requests no tool call, the loop returns
    that response at once. *)
Theorem chat_loop_stops_at_cap (l : loc) :
  (forall names,
      explicit_names explicit = Ok names ->
      (forall rq w,
          cr_tool_calls (chat_backend rq w).1 <> []
          /\ Forall (admitted names) (cr_tool_calls (chat_backend rq w).1)
          /\ Forall servable (cr_tool_calls (chat_backend rq w).1)) ->
      forall fuel clean_kwargs final_tools st,
        MAX_TOOL_LOOPS <= fuel ->
        exists rq resp st' evs,
          chat_loop model provider api_key async_mode explicit server_lookup
            fuel l 0 clean_kwargs final_tools st
          = (Ok (Some resp), st')
          /\ trace st' = trace st ++ evs
          /\ length (chat_calls evs) = 20
          /\ last (chat_calls evs) = Some (EvChatCall rq resp)
          /\ last evs = Some max_loops_warning)
  /\
  (forall fuel loop_count clean_kwargs final_tools st,
      let rq := chat_request model provider api_key async_mode
                  (contents st l) clean_kwargs final_tools in
      let resp := (chat_backend rq (world st)).1 in
      cr_tool_calls resp = [] ->
      exists st',
        chat_loop model provider api_key async_mode explicit server_lookup
          (S fuel) l loop_count clean_kwargs final_tools st
        = (Ok (Some resp), st')
        /\ heap st' = heap st
        /\ chat_calls (trace st')
           = chat_calls (trace st) ++ [EvChatCall rq resp]).
Proof.
  split.
  - intros names Hn Hmodel fuel kw ft st Hfuel.
    by apply (chat_loop_to_cap names l Hn Hmodel 19 0 fuel kw ft st).
  - intros fuel loop_count kw ft st rq resp Hnone.
    rewrite chat_loop_step. cbn zeta. fold rq. fold resp.
    rewrite bool_decide_eq_true_2 by done. simpl orb. cbv iota.
    eexists. split_and!; [done| |].
    + by destruct (MAX_TOOL_LOOPS <=? loop_count + 1).
    + unfold chat_calls.
      destruct (MAX_TOOL_LOOPS <=? loop_count + 1); simpl;
        rewrite !filter_app, <- ?app_assoc; f_equal; reflexivity.
Qed.

(** ** The structured-response path *)

(** The coroutine created for a function call of the initial response. *)
Definition response_task (call : tool_call) (parsed : pyval) : M pyval :=
  _execute_tool (tc_name call) parsed server_lookup.

Definition output_entry (call : tool_call) (result : pyval) : entry :=
  FunctionCallOutput (default PNone (call_id call)) (output_text result).

Definition is_responses_call (ev : event) : bool :=
  match ev with EvResponsesCall _ _ => true | _ => false end.

(** The backend calls of a trace, structured-response style. *)
Definition responses_calls (tr : list event) : list event :=
  filter is_responses_call tr.

Lemma tool_events_no_responses_calls (evs : list event) :
  Forall tool_event evs -> responses_calls evs = [].
Proof.
  unfold responses_calls. induction 1 as [|ev evs Hev _ IH]; [done|].
  rewrite filter_cons, IH. by destruct ev.
Qed.

Lemma response_tasks_dispatch_only (calls : list tool_call)
  (args : list pyval) :
  Forall dispatch_only (zip_with response_task calls args).
Proof.
  revert args. induction calls as [|c calls IH]; intros [|a args]; simpl;
    try constructor; [|apply IH].
  apply execute_tool_dispatch_only.
Qed.

(** The append loop changes the follow-up input only; it stops with an
    exception at the first call that has no [call_id]. *)
Lemma append_outputs_spec (l : loc) (pairs : list (tool_call * pyval))
  (st : state) :
  exists r h,
    append_outputs l pairs st
    = (r, State (world st) (server_cache st) h (trace st))
    /\ (forall l', l' <> l -> h !! l' = heap st !! l')
    /\ (r = Ok tt ->
        Forall (fun p => is_Some (call_id p.1)) pairs
        /\ default [] (h !! l)
           = contents st l ++ ((fun p => output_entry p.1 p.2) <$> pairs)).
Proof.
  revert st. induction pairs as [|[call result] pairs IH]; intros st; simpl.
  - exists (Ok tt), (heap st). split; [by destruct st|]. split; [done|].
    intros _. split; [constructor|]. by rewrite app_nil_r.
  - destruct (call_id call) as [cid|] eqn:Hcid.
    + destruct (extend_spec l [FunctionCallOutput cid (output_text result)] st)
        as (h1 & He & Hl & Hf).
      rewrite (bind_ok _ _ _ _ _ He).
      destruct (IH (State (world st) (server_cache st) h1 (trace st)))
        as (r & h2 & -> & Hf2 & Hok).
      exists r, h2. simpl in *. split; [done|]. split.
      * intros l' Hne. by rewrite Hf2, Hf.
      * intros Hr. destruct (Hok Hr) as [Hall Hc]. split.
        -- constructor; [simpl; rewrite Hcid; by eexists|done].
        -- unfold contents in Hc. simpl in Hc. rewrite Hc, Hl, <- app_assoc.
           unfold output_entry. simpl. by rewrite Hcid.
    + eexists _, (heap st). split; [by destruct st|]. split; [done|].
      intros [=].
Qed.

(** What a completed dispatch of function calls leaves behind: the outputs
    in the follow-up input, in the order of the calls. *)
Lemma dispatch_outputs_ok (l : loc) (calls : list tool_call)
  (st st' : state) :
  dispatch_outputs server_lookup l calls st = (Ok tt, st') ->
  exists args finished st1 results,
    parse_all calls = Ok args
    /\ run_in_order (zip_with response_task calls args)
         (completion_order (world st) (length calls)) st = (Ok finished, st1)
    /\ finished.*1 = completion_order (world st) (length calls)
    /\ length results = length calls
    /\ (forall i, results !! i = completed i finished)
    /\ Forall (fun c => is_Some (call_id c)) calls
    /\ contents st' l = contents st l ++ zip_with output_entry calls results
    /\ (forall l', l' <> l -> heap st' !! l' = heap st !! l')
    /\ world st' = world st1 /\ server_cache st' = server_cache st
    /\ exists evs, trace st' = trace st ++ evs /\ Forall tool_event evs.
Proof.
  unfold dispatch_outputs, bind, lift_res.
  destruct (parse_all calls) as [args|] eqn:Hargs; [|done].
  pose proof (parse_all_length _ _ Hargs) as Hlen.
  fold response_task.
  destruct (gather (zip_with response_task calls args) st)
    as [[results|e] st1] eqn:Hg; [|done].
  pose proof (gather_dispatch_only _ (response_tasks_dispatch_only calls args)
                _ _ _ Hg) as (Hheap & Hcache & evs & Htrace & Hevs).
  apply gather_ok in Hg as (finished & Hrun & Hfst & Hrlen & Hres).
  rewrite length_zip_with, Hlen, Nat.min_id in Hrun, Hfst, Hrlen.
  destruct (append_outputs_spec l (zip calls results) st1)
    as (r & h & -> & Hframe & Hok).
  intros [= -> <-]. destruct (Hok eq_refl) as [Hids Hc]. simpl.
  exists args, finished, st1, results. split_and!; try done.
  - apply Forall_forall. intros c Hc'.
    apply list_elem_of_lookup in Hc' as [i Hi].
    destruct (lookup_lt_is_Some_2 results i) as [r Hr].
    { rewrite Hrlen. by eapply lookup_lt_Some. }
    rewrite Forall_forall in Hids. apply (Hids (c, r)).
    apply list_elem_of_lookup. exists i.
    by rewrite lookup_zip_with, Hi, Hr.
  - unfold contents at 1. simpl. rewrite Hc. unfold contents. rewrite Hheap.
    f_equal. clear. revert results.
    induction calls as [|c calls IH]; intros [|r results]; simpl; [done..|].
    by rewrite IH.
  - intros l' Hne. by rewrite Hframe, Hheap.
  - by exists evs.
Qed.

Lemma dispatch_outputs_frame (l : loc) (calls : list tool_call)
  (st st' : state) (r : res unit) :
  dispatch_outputs server_lookup l calls st = (r, st') ->
  (forall l', l' <> l -> heap st' !! l' = heap st !! l')
  /\ server_cache st' = server_cache st
  /\ exists evs, trace st' = trace st ++ evs /\ Forall tool_event evs.
Proof.
  unfold dispatch_outputs, bind, lift_res.
  destruct (parse_all calls) as [args|].
  - fold response_task.
    destruct (gather (zip_with response_task calls args) st)
      as [[results|e] st1] eqn:Hg;
      pose proof (gather_dispatch_only _
                    (response_tasks_dispatch_only calls args) _ _ _ Hg)
        as (Hheap & Hcache & evs & Htrace & Hevs).
    + destruct (append_outputs_spec l (zip calls results) st1)
        as (r' & h & -> & Hframe & _).
      intros [= <- <-]. simpl. split_and!; [|done|by exists evs].
      intros l' Hne. by rewrite Hframe, Hheap.
    + intros [= <- <-]. split_and!; [|done|by exists evs].
      intros l' _. by rewrite Hheap.
  - intros [= <- <-]. split_and!; [done..|].
    exists []. by rewrite app_nil_r.
Qed.

(** The input history the driver starts from: a copy of the caller's list,
    or a single user message made of the payload's text. *)
Definition initial_input (payload : payload) (st : state) : list entry :=
  match payload with
  | PayloadList l => contents st l
  | PayloadOther v =>
      [Given (PDict [("role", PStr "user"); ("content", PStr (py_str v))])]
  end.

(** The structured-response path, spelled out. *)
Lemma responses_flow_unfold (payload : payload)
  (clean_kwargs : py_dict pyval) (final_tools : list pyval) (st : state) :
  responses_flow model provider api_key async_mode server_lookup payload
    clean_kwargs final_tools st
  = let l0 := fresh (dom (heap st)) in
    let input := initial_input payload st in
    let rq := responses_request model provider api_key async_mode input
                (Some (PList final_tools)) None clean_kwargs in
    let resp := (responses_backend rq (world st)).1 in
    let st1 := State (responses_backend rq (world st)).2 (server_cache st)
                     (<[l0 := input]> (heap st))
                     (trace st ++ [EvResponsesCall rq resp]) in
    let calls := omap function_call_of (r_output resp) in
    if bool_decide (calls = []) then (Ok resp, st1)
    else
      match dispatch_outputs server_lookup l0 calls st1 with
      | (Ok _, st2) =>
          let rq2 := responses_request model provider api_key async_mode
                       (contents st2 l0) None (Some (r_id resp))
                       (dict_pop "previous_response_id" clean_kwargs) in
          (Ok (responses_backend rq2 (world st2)).1,
           State (responses_backend rq2 (world st2)).2 (server_cache st2)
                 (heap st2)
                 (trace st2 ++
                  [EvResponsesCall rq2 (responses_backend rq2 (world st2)).1]))
      | (Raise e, st2) => (Raise e, st2)
      end.
Proof.
  unfold responses_flow. unfold bind at 1.
  assert (forall es, alloc es st
            = (Ok (fresh (dom (heap st))),
               State (world st) (server_cache st)
                     (<[fresh (dom (heap st)) := es]> (heap st)) (trace st)))
    as Halloc by done.
  assert ((match payload with
           | PayloadList l => let* es := read_list l in alloc es
           | PayloadOther v =>
               alloc [Given (PDict [("role", PStr "user");
                                    ("content", PStr (py_str v))])]
           end) st
          = (Ok (fresh (dom (heap st))),
             State (world st) (server_cache st)
                   (<[fresh (dom (heap st)) := initial_input payload st]>
                      (heap st)) (trace st))) as ->.
  { destruct payload; [|apply Halloc]. unfold bind, read_list. apply Halloc. }
  unfold bind at 1. unfold read_list at 1. cbn [heap].
  rewrite lookup_insert_eq. cbn [default].
  unfold bind at 1. unfold responses_call at 1. cbn [world server_cache heap trace].
  destruct (responses_backend _ (world st)) as [resp w1] eqn:Hb. cbn [fst snd].
  cbn zeta.
  destruct (bool_decide (omap function_call_of (r_output resp) = []));
    [reflexivity|].
  unfold bind at 1.
  destruct (dispatch_outputs _ _ _ _) as [[[]|e] st2]; [|reflexivity].
  unfold bind at 1. unfold read_list at 1. fold (contents st2 (fresh (dom (heap st)))).
  unfold responses_call.
  by destruct (responses_backend _ (world st2)).
Qed.


(** C7. The results of a batch are appended in the order of the requests,
    whatever the order in which the dispatches complete.  In both drivers
    the dispatches of a batch complete in the order [completion_order]
    (any order, as the latencies decide), recorded in [finished]; the
    entries appended to the conversation follow the requests instead: the
    [i]-th appended group belongs to the [i]-th request, carries the result
    its own dispatch produced, and is tagged with its identifier.  A chat
    batch that does not complete appends nothing. *)
Theorem results_appended_in_request_order :
  (forall (l : loc) (calls : list tool_call) (st st' : state),
      dispatch_round provider explicit server_lookup l calls st
      = (Ok true, st') ->
      exists args finished st1 texts,
        parse_all calls = Ok args
        /\ run_in_order (zip_with chat_task calls args)
             (completion_order (world st) (length calls)) st
           = (Ok finished, st1)
        /\ finished.*1 = completion_order (world st) (length calls)
        /\ length texts = length calls
        /\ (forall i call text,
              calls !! i = Some call -> texts !! i = Some text ->
              completed i finished
              = Some (PartList
                        [AssistantToolCalls [call];
                         ToolMessage (tc_name call) text
                           (default PNone (id call))]))
        /\ contents st' l
           = contents st l
             ++ concat (zip_with
                          (fun call text =>
                             [AssistantToolCalls [call];
                              ToolMessage (tc_name call) text
                                (default PNone (id call))])
                          calls texts))
  /\
  (forall (l : loc) (calls : list tool_call) (st st' : state)
          (r : res bool),
      dispatch_round provider explicit server_lookup l calls st = (r, st') ->
      r <> Ok true -> heap st' = heap st)
  /\
  (forall (l : loc) (calls : list tool_call) (st st' : state),
      dispatch_outputs server_lookup l calls st = (Ok tt, st') ->
      exists args finished st1 results,
        parse_all calls = Ok args
        /\ run_in_order
             (zip_with (fun call a =>
                          _execute_tool (tc_name call) a server_lookup)
                       calls args)
             (completion_order (world st) (length calls)) st
           = (Ok finished, st1)
        /\ finished.*1 = completion_order (world st) (length calls)
        /\ length results = length calls
        /\ (forall i, results !! i = completed i finished)
        /\ Forall (fun c => is_Some (call_id c)) calls
        /\ contents st' l
           = contents st l
             ++ zip_with (fun call result =>
                            FunctionCallOutput (default PNone (call_id call))
                              (output_text result))
                         calls results).
Proof.
  split_and!.
  - intros l calls st st' H.
    destruct (dispatch_round_true l calls st st' H)
      as (names & args & finished & st1 & texts & _ & Ha & _ & Hrun & Hfst
          & Hlen & Hdone & Hc & _).
    by exists args, finished, st1, texts.
  - intros l calls st st' r H Hr.
    by destruct (dispatch_round_other l calls st st' r H Hr) as [? _].
  - intros l calls st st' H.
    destruct (dispatch_outputs_ok l calls st st' H)
      as (args & finished & st1 & results & Ha & Hrun & Hfst & Hlen & Hres
          & Hids & Hc & _).
    by exists args, finished, st1, results.
Qed.

(** ** Aliasing of the message list *)

Definition chat_pair (ev : event) : option (request * chat_response) :=
  match ev with
  | EvChatCall rq resp => Some (rq, resp)
  | _ => None
  end.


Lemma tool_events_no_chat_pairs (evs : list event) :
  Forall tool_event evs -> omap chat_pair evs = [].
Proof.
  induction 1 as [|ev evs Hev _ IH]; [done|].
  destruct ev as [| | | | | | |[]]; try done; simpl; by rewrite IH.
Qed.


(** The loop needs no more fuel than the iterations left below the cap: with
    that much it does not run out, and more fuel changes nothing. *)
Lemma chat_loop_enough_fuel (l : loc) (k : nat) :
  forall loop_count fuel1 fuel2 clean_kwargs final_tools st,
    1 <= k -> MAX_TOOL_LOOPS <= loop_count + k -> k <= fuel1 -> k <= fuel2 ->
    chat_loop' fuel1 l loop_count clean_kwargs final_tools st
    = chat_loop' fuel2 l loop_count clean_kwargs final_tools st
    /\ (chat_loop' fuel1 l loop_count clean_kwargs final_tools st).1
       <> Ok None.
Proof.
  induction k as [|k IH]; intros n fuel1 fuel2 kw ft st Hk Hcap H1 H2; [lia|].
  destruct fuel1 as [|fuel1]; [lia|]. destruct fuel2 as [|fuel2]; [lia|].
  rewrite !chat_loop_step. cbn zeta.
  set (rq := chat_request' (contents st l) kw ft).
  set (resp := (chat_backend rq (world st)).1).
  set (st1 := State (chat_backend rq (world st)).2 (server_cache st) (heap st)
                    (trace st ++ [EvChatCall rq resp])).
  destruct (bool_decide (cr_tool_calls resp = [])
            || (MAX_TOOL_LOOPS <=? n + 1)) eqn:Hc; [done|].
  apply orb_false_iff in Hc as [_ Hlt]. apply Nat.leb_gt in Hlt.
  destruct (dispatch_round' l (cr_tool_calls resp) st1) as [[[]|e] st2];
    [|done..].
  apply IH; lia.
Qed.



(** ** The chat loop against an arbitrary model *)

Lemma tool_events_no_warning (evs : list event) :
  Forall tool_event evs -> max_loops_warning ∉ evs.
Proof.
  intros Hf Hin. rewrite Forall_forall in Hf. by apply Hf in Hin.
Qed.

(** With [k + 1] iterations left below the cap the loop makes between one
    and [k + 1] model calls, and warns exactly when it made them all. *)
Lemma chat_loop_bounded (l : loc) (k : nat) :
  forall loop_count fuel clean_kwargs final_tools st r st',
    loop_count + S k = MAX_TOOL_LOOPS -> S k <= fuel ->
    chat_loop' fuel l loop_count clean_kwargs final_tools st = (r, st') ->
    r <> Ok None
    /\ exists evs,
         trace st' = trace st ++ evs
         /\ 1 <= length (chat_calls evs) /\ length (chat_calls evs) <= S k
         /\ (max_loops_warning ∈ evs <-> length (chat_calls evs) = S k).
Proof.
  induction k as [|k IH]; intros n fuel kw ft st r st' Hn Hfuel;
    (destruct fuel as [|fuel]; [lia|]);
    rewrite chat_loop_step; cbn zeta;
    set (rq := chat_request' (contents st l) kw ft);
    set (resp := (chat_backend rq (world st)).1);
    set (st1 := State (chat_backend rq (world st)).2 (server_cache st)
                      (heap st) (trace st ++ [EvChatCall rq resp])).
  - assert ((MAX_TOOL_LOOPS <=? n + 1) = true) as ->
      by (apply Nat.leb_le; lia).
    rewrite orb_true_r. intros [= <- <-]. split; [done|].
    exists [EvChatCall rq resp; max_loops_warning]. split_and!.
    + simpl. by rewrite <- app_assoc.
    + simpl. lia.
    + simpl. lia.
    + split; [done|]. intros _. apply elem_of_cons. right.
      apply elem_of_cons. by left.
  - assert ((MAX_TOOL_LOOPS <=? n + 1) = false) as ->
      by (apply Nat.leb_gt; lia).
    rewrite orb_false_r.
    assert (Hone : forall tevs,
              Forall tool_event tevs ->
              1 <= length (chat_calls (EvChatCall rq resp :: tevs))
              /\ length (chat_calls (EvChatCall rq resp :: tevs)) <= S (S k)
              /\ (max_loops_warning ∈ EvChatCall rq resp :: tevs
                  <-> length (chat_calls (EvChatCall rq resp :: tevs))
                      = S (S k))).
    { intros tevs Htool.
      assert (chat_calls (EvChatCall rq resp :: tevs) = [EvChatCall rq resp])
        as ->.
      { unfold chat_calls. rewrite filter_cons_True by done.
        fold (chat_calls tevs). by rewrite (tool_events_no_chat_calls _ Htool). }
      simpl. split; [lia|]. split; [lia|]. split; [|lia].
      intros [Hw|Hw]%elem_of_cons; [done|].
      by apply tool_events_no_warning in Hw. }
    destruct (bool_decide (cr_tool_calls resp = [])).
    + intros [= <- <-]. split; [done|]. exists [EvChatCall rq resp].
      split; [done|]. by apply (Hone []).
    + destruct (dispatch_round' l (cr_tool_calls resp) st1) as [[[]|e] st2]
        eqn:Hd.
      * intros Hloop.
        destruct (dispatch_round_true l _ _ _ Hd)
          as (? & ? & ? & ? & ? & _ & _ & _ & _ & _ & _ & _ & _
              & _ & _ & _ & tevs & Ht & Htool).
        destruct (IH (n + 1) fuel _ _ _ _ _ ltac:(lia) ltac:(lia) Hloop)
          as (Hr & evs & Ht' & Hlen & Hlen' & Hw).
        split; [done|]. exists (EvChatCall rq resp :: tevs ++ evs).
        split. { rewrite Ht', Ht. simpl. by rewrite <- !app_assoc. }
        unfold chat_calls. rewrite filter_cons_True by done.
        rewrite filter_app. fold (chat_calls tevs). fold (chat_calls evs).
        rewrite (tool_events_no_chat_calls _ Htool). simpl.
        split; [lia|]. split; [lia|].
        rewrite elem_of_cons, elem_of_app. split.
        -- intros [Hw'|[Hw'|Hw']]; [done| |].
           ++ by apply tool_events_no_warning in Hw'.
           ++ apply Hw in Hw'. lia.
        -- intros Hl. right. right. apply Hw. lia.
      * destruct (dispatch_round_other l _ _ _ _ Hd)
          as (_ & _ & _ & tevs & Ht & Htool); [done|].
        intros [= <- <-]. split; [done|].
        exists (EvChatCall rq resp :: tevs).
        split. { rewrite Ht. simpl. by rewrite <- app_assoc. }
        by apply Hone.
      * destruct (dispatch_round_other l _ _ _ _ Hd)
          as (_ & _ & _ & tevs & Ht & Htool); [done|].
        intros [= <- <-]. split; [done|].
        exists (EvChatCall rq resp :: tevs).
        split. { rewrite Ht. simpl. by rewrite <- app_assoc. }
        by apply Hone.
Qed.

(** X1. Whatever the model answers and whatever the tools do, a chat
    completion makes at least one and at most [MAX_TOOL_LOOPS] model calls
    and then ends (with a response or with an exception, never by running
    on); the max-tool-loops warning is logged exactly when the
    [MAX_TOOL_LOOPS]-th call was made. *)
Theorem chat_loop_never_exceeds_cap (l : loc) (fuel : nat)
  (clean_kwargs : py_dict pyval) (final_tools : option (list pyval))
  (st st' : state) (r : res (option chat_response)) :
  MAX_TOOL_LOOPS <= fuel ->
  chat_loop model provider api_key async_mode explicit server_lookup
    fuel l 0 clean_kwargs final_tools st = (r, st') ->
  r <> Ok None
  /\ exists evs,
       trace st' = trace st ++ evs
       /\ 1 <= length (chat_calls evs)
       /\ length (chat_calls evs) <= MAX_TOOL_LOOPS
       /\ (max_loops_warning ∈ evs
           <-> length (chat_calls evs) = MAX_TOOL_LOOPS).
Proof.
  intros Hfuel Hrun.
  by apply (chat_loop_bounded l 19 0 fuel _ _ _ _ _ eq_refl Hfuel Hrun).
Qed.

(** ** Options and tool declarations of the requests of a run *)

Lemma dict_lookup_pop_ne {V} (k k' : string) (d : py_dict V) :
  k <> k' -> dict_lookup k (dict_pop k' d) = dict_lookup k d.
Proof.
  intros Hne. induction d as [|[k0 v0] d IH]; [done|]. simpl.
  destruct (String.eqb k' k0) eqn:E'.
  - apply String.eqb_eq in E' as <-.
    by apply String.eqb_neq in Hne as ->.
  - simpl. by rewrite IH.
Qed.

Lemma dict_lookup_pop {V} (k : string) (d : py_dict V) :
  NoDup d.*1 -> dict_lookup k (dict_pop k d) = None.
Proof.
  induction d as [|[k0 v0] d IH]; [done|]. simpl.
  intros [Hnotin Hnd]%NoDup_cons.
  destruct (String.eqb k k0) eqn:E.
  - apply String.eqb_eq in E as ->. by apply dict_lookup_None.
  - simpl. rewrite E. by apply IH.
Qed.

Lemma dict_pop_keys {V} (k : string) (d : py_dict V) :
  (dict_pop k d).*1 ⊆ d.*1.
Proof.
  induction d as [|[k0 v0] d IH]; [done|]. simpl.
  destruct (String.eqb k k0); simpl.
  - intros x Hx. by right.
  - intros x [->|Hx]%elem_of_cons; [left|right; by apply IH].
Qed.

Lemma dict_pop_NoDup {V} (k : string) (d : py_dict V) :
  NoDup d.*1 -> NoDup (dict_pop k d).*1.
Proof.
  induction d as [|[k0 v0] d IH]; [done|]. simpl.
  intros [Hnotin Hnd]%NoDup_cons.
  destruct (String.eqb k k0); [done|]. simpl.
  apply NoDup_cons. split; [|by apply IH].
  intros Hin. by apply dict_pop_keys in Hin.
Qed.

(** A request that carries no tool declarations and no [tool_choice], and
    otherwise the options [kw]. *)
Definition without_tools (kw : py_dict pyval) (rq : request) : Prop :=
  rq_tools rq = None
  /\ dict_lookup "tool_choice" (rq_kwargs rq) = None
  /\ forall k, k <> "tool_choice" -> k <> "tools" ->
       dict_lookup k (rq_kwargs rq) = dict_lookup k kw.

Lemma without_tools_popped (kw : py_dict pyval) (h : list entry) :
  NoDup kw.*1 ->
  without_tools kw
    (chat_request' h (dict_pop "tool_choice" (dict_pop "tools" kw)) None).
Proof.
  intros Hnd. split_and!; [done| |].
  - simpl. by apply dict_lookup_pop, dict_pop_NoDup.
  - intros k H1 H2. simpl. by rewrite !dict_lookup_pop_ne.
Qed.

Lemma without_tools_trans (kw : py_dict pyval) (rq : request) :
  without_tools (dict_pop "tool_choice" (dict_pop "tools" kw)) rq ->
  without_tools kw rq.
Proof.
  intros (Ht & Hc & Hk). split_and!; [done..|].
  intros k H1 H2. by rewrite Hk, !dict_lookup_pop_ne.
Qed.

(** The requests of a run of the loop: the first is built from what the
    loop starts with, the later ones carry no tools. *)
Lemma chat_loop_requests (l : loc) (fuel : nat) (loop_count : nat)
  (clean_kwargs : py_dict pyval) (final_tools : option (list pyval))
  (st st' : state) (r : res (option chat_response)) :
  NoDup clean_kwargs.*1 ->
  chat_loop' fuel l loop_count clean_kwargs final_tools st = (r, st') ->
  exists evs,
    trace st' = trace st ++ evs
    /\ (forall rq resp,
          head (omap chat_pair evs) = Some (rq, resp) ->
          rq = chat_request' (contents st l) clean_kwargs final_tools)
    /\ Forall (fun p => without_tools clean_kwargs p.1)
         (tail (omap chat_pair evs)).
Proof.
  revert loop_count clean_kwargs final_tools st r st'.
  induction fuel as [|fuel IH]; intros n kw ft st r st' Hnd.
  { intros [= <- <-]. exists []. rewrite app_nil_r. by split_and!. }
  rewrite chat_loop_step. cbn zeta.
  set (rq := chat_request' (contents st l) kw ft).
  set (resp := (chat_backend rq (world st)).1).
  set (st1 := State (chat_backend rq (world st)).2 (server_cache st) (heap st)
                    (trace st ++ [EvChatCall rq resp])).
  assert (Hone : forall tevs,
            Forall tool_event tevs ->
            (forall rq' resp',
                head (omap chat_pair (EvChatCall rq resp :: tevs))
                = Some (rq', resp') -> rq' = rq)
            /\ Forall (fun p => without_tools kw p.1)
                 (tail (omap chat_pair (EvChatCall rq resp :: tevs)))).
  { intros tevs Htool.
    change (omap chat_pair (EvChatCall rq resp :: tevs))
      with ((rq, resp) :: omap chat_pair tevs).
    rewrite (tool_events_no_chat_pairs _ Htool). split; [|done].
    by intros rq' resp' [= <- _]. }
  destruct (bool_decide (cr_tool_calls resp = [])
            || (MAX_TOOL_LOOPS <=? n + 1)) eqn:Hc.
  - destruct (MAX_TOOL_LOOPS <=? n + 1); intros [= <- <-].
    + exists [EvChatCall rq resp; max_loops_warning]. split_and!.
      * simpl. by rewrite <- app_assoc.
      * by intros rq' resp' [= <- _].
      * done.
    + exists [EvChatCall rq resp]. split; [done|]. by apply (Hone []).
  - destruct (dispatch_round' l (cr_tool_calls resp) st1) as [[[]|e] st2]
      eqn:Hd.
    + intros Hloop.
      destruct (dispatch_round_true l _ _ _ Hd)
        as (? & ? & ? & ? & ? & _ & _ & _ & _ & _ & _ & _ & _
            & _ & _ & _ & tevs & Ht & Htool).
      destruct (IH _ _ _ _ _ _
                  (dict_pop_NoDup _ _ (dict_pop_NoDup "tools" _ Hnd)) Hloop)
        as (evs & Ht' & Hhd & Htl).
      exists (EvChatCall rq resp :: tevs ++ evs). split_and!.
      * rewrite Ht', Ht. simpl. by rewrite <- !app_assoc.
      * by intros rq' resp' [= <- _].
      * change (omap chat_pair (EvChatCall rq resp :: tevs ++ evs))
          with ((rq, resp) :: omap chat_pair (tevs ++ evs)).
        rewrite omap_app, (tool_events_no_chat_pairs _ Htool). simpl.
        destruct (omap chat_pair evs) as [|[rq2 resp2] later]; [done|].
        constructor.
        -- rewrite (Hhd rq2 resp2 eq_refl). by apply without_tools_popped.
        -- eapply Forall_impl; [exact Htl|].
           intros p. apply without_tools_trans.
    + destruct (dispatch_round_other l _ _ _ _ Hd)
        as (_ & _ & _ & tevs & Ht & Htool); [done|].
      intros [= <- <-]. exists (EvChatCall rq resp :: tevs).
      split. { rewrite Ht. simpl. by rewrite <- app_assoc. }
      by apply Hone.
    + destruct (dispatch_round_other l _ _ _ _ Hd)
        as (_ & _ & _ & tevs & Ht & Htool); [done|].
      intros [= <- <-]. exists (EvChatCall rq resp :: tevs).
      split. { rewrite Ht. simpl. by rewrite <- app_assoc. }
      by apply Hone.
Qed.

(** X2. In a chat completion the tool declarations travel with the first
    model request only.  The first request is built from the message list,
    the options and the merged tools as they are when the loop starts;
    every later request of the same call carries no tools and no
    [tool_choice], and every other option unchanged. *)
Theorem tools_sent_with_first_request_only (l : loc) (fuel : nat)
  (loop_count : nat) (clean_kwargs : py_dict pyval)
  (final_tools : option (list pyval)) (st st' : state)
  (r : res (option chat_response)) :
  NoDup clean_kwargs.*1 ->
  chat_loop model provider api_key async_mode explicit server_lookup
    fuel l loop_count clean_kwargs final_tools st = (r, st') ->
  exists evs,
    trace st' = trace st ++ evs
    /\ (forall rq resp,
          head (omap chat_pair evs) = Some (rq, resp) ->
          rq = chat_request model provider api_key async_mode
                 (contents st l) clean_kwargs final_tools)
    /\ Forall (fun p => rq_tools p.1 = None
                        /\ dict_lookup "tool_choice" (rq_kwargs p.1) = None
                        /\ forall k, k <> "tool_choice" -> k <> "tools" ->
                             dict_lookup k (rq_kwargs p.1)
                             = dict_lookup k clean_kwargs)
         (tail (omap chat_pair evs)).
Proof. apply chat_loop_requests. Qed.

(** ** What a driver does besides calling the model *)

(** A model request as the drivers build it for the resolved provider. *)
Definition routed (rq : request) : Prop :=
  rq_model rq = model
  /\ rq_endpoint rq = select_endpoint provider async_mode
  /\ rq_api_key rq
     = if String.eqb provider "openai" then None else Some api_key.

(** The events of a driver: tool dispatches, log lines and routed model
    requests; never a connect or a tool listing. *)
Definition driver_event (ev : event) : Prop :=
  match ev with
  | EvChatCall rq _ | EvResponsesCall rq _ => routed rq
  | EvCallTool _ _ _ | EvLocalCall _ _ | EvLog _ _ => True
  | EvConnect _ | EvGetAllFunctionTools _ | EvListTools _ => False
  end.

Lemma tool_events_driver_events (evs : list event) :
  Forall tool_event evs -> Forall driver_event evs.
Proof.
  intros Hf. eapply Forall_impl; [exact Hf|].
  intros ev Hev. by destruct ev as [| | | | | | |[]].
Qed.

Lemma chat_loop_driver_events (l : loc) (fuel : nat) :
  forall loop_count clean_kwargs final_tools st r st',
    chat_loop' fuel l loop_count clean_kwargs final_tools st = (r, st') ->
    server_cache st' = server_cache st
    /\ exists evs,
         trace st' = trace st ++ evs
         /\ Forall driver_event evs /\ responses_calls evs = [].
Proof.
  induction fuel as [|fuel IH]; intros n kw ft st r st'.
  { intros [= <- <-]. split; [done|]. exists []. by rewrite app_nil_r. }
  rewrite chat_loop_step. cbn zeta.
  set (rq := chat_request' (contents st l) kw ft).
  set (resp := (chat_backend rq (world st)).1).
  set (st1 := State (chat_backend rq (world st)).2 (server_cache st) (heap st)
                    (trace st ++ [EvChatCall rq resp])).
  assert (Hrq : driver_event (EvChatCall rq resp)) by done.
  assert (Hone : forall tevs st2,
            server_cache st2 = server_cache st1 ->
            trace st2 = trace st1 ++ tevs -> Forall tool_event tevs ->
            server_cache st2 = server_cache st
            /\ exists evs,
                 trace st2 = trace st ++ evs
                 /\ Forall driver_event evs /\ responses_calls evs = []).
  { intros tevs st2 Hc Ht Htool. split; [done|].
    exists (EvChatCall rq resp :: tevs). split_and!.
    - rewrite Ht. simpl. by rewrite <- app_assoc.
    - constructor; [done|by apply tool_events_driver_events].
    - unfold responses_calls. rewrite filter_cons_False by (by intros []).
      by apply tool_events_no_responses_calls. }
  destruct (bool_decide (cr_tool_calls resp = [])
            || (MAX_TOOL_LOOPS <=? n + 1)) eqn:Hc.
  - destruct (MAX_TOOL_LOOPS <=? n + 1); intros [= <- <-].
    + split; [done|]. exists [EvChatCall rq resp; max_loops_warning].
      split_and!; [by simpl; rewrite <- app_assoc|by repeat constructor|done].
    + apply (Hone []); [done|by rewrite app_nil_r|done].
  - destruct (dispatch_round' l (cr_tool_calls resp) st1) as [[[]|e] st2]
      eqn:Hd.
    + intros Hloop.
      destruct (dispatch_round_true l _ _ _ Hd)
        as (? & ? & ? & ? & ? & _ & _ & _ & _ & _ & _ & _ & _
            & _ & _ & Hcache & tevs & Ht & Htool).
      destruct (IH _ _ _ _ _ _ Hloop) as (Hcache' & evs & Ht' & Hf & Hno).
      split; [by rewrite Hcache', Hcache|].
      exists (EvChatCall rq resp :: tevs ++ evs). split_and!.
      * rewrite Ht', Ht. simpl. by rewrite <- !app_assoc.
      * constructor; [done|].
        apply Forall_app. split; [by apply tool_events_driver_events|done].
      * unfold responses_calls. rewrite filter_cons_False by (by intros []).
        rewrite filter_app. fold (responses_calls tevs).
        fold (responses_calls evs).
        by rewrite (tool_events_no_responses_calls _ Htool), Hno.
    + destruct (dispatch_round_other l _ _ _ _ Hd)
        as (_ & Hcache & _ & tevs & Ht & Htool); [done|].
      intros [= <- <-]. by apply (Hone tevs).
    + destruct (dispatch_round_other l _ _ _ _ Hd)
        as (_ & Hcache & _ & tevs & Ht & Htool); [done|].
      intros [= <- <-]. by apply (Hone tevs).
Qed.

Lemma responses_flow_driver_events (payload : payload)
  (clean_kwargs : py_dict pyval) (final_tools : list pyval)
  (st st' : state) (r : res response) :
  responses_flow model provider api_key async_mode server_lookup payload
    clean_kwargs final_tools st = (r, st') ->
  server_cache st' = server_cache st
  /\ exists evs,
       trace st' = trace st ++ evs
       /\ Forall driver_event evs /\ chat_calls evs = [].
Proof.
  rewrite responses_flow_unfold. cbn zeta.
  set (l0 := fresh (dom (heap st))).
  set (rq := responses_request model provider api_key async_mode
               (initial_input payload st) (Some (PList final_tools)) None
               clean_kwargs).
  set (resp := (responses_backend rq (world st)).1).
  set (st1 := State (responses_backend rq (world st)).2 (server_cache st)
                    (<[l0 := initial_input payload st]> (heap st))
                    (trace st ++ [EvResponsesCall rq resp])).
  assert (Hrq : driver_event (EvResponsesCall rq resp)) by done.
  destruct (bool_decide (omap function_call_of (r_output resp) = [])).
  { intros [= <- <-]. split; [done|]. exists [EvResponsesCall rq resp].
    split_and!; [done|by repeat constructor|done]. }
  destruct (dispatch_outputs server_lookup l0 _ st1) as [[[]|e] st2] eqn:Hd;
    destruct (dispatch_outputs_frame _ _ _ _ _ Hd)
      as (_ & Hcache & tevs & Ht & Htool);
    intros [= <- <-]; (split; [done|]).
  - eexists (EvResponsesCall rq resp :: tevs ++ [EvResponsesCall _ _]).
    split_and!.
    + simpl. rewrite Ht. simpl. by rewrite <- !app_assoc.
    + constructor; [done|]. apply Forall_app.
      split; [by apply tool_events_driver_events|by repeat constructor].
    + unfold chat_calls. rewrite filter_cons_False by (by intros []).
      rewrite filter_app. fold (chat_calls tevs).
      by rewrite (tool_events_no_chat_calls _ Htool).
  - exists (EvResponsesCall rq resp :: tevs). split_and!.
    + rewrite Ht. simpl. by rewrite <- app_assoc.
    + constructor; [done|by apply tool_events_driver_events].
    + unfold chat_calls. rewrite filter_cons_False by (by intros []).
      by apply tool_events_no_chat_calls.
Qed.

(** The request of a model call. *)
Definition model_request (ev : event) : option request :=
  match ev with
  | EvChatCall rq _ | EvResponsesCall rq _ => Some rq
  | _ => None
  end.

Lemma chat_loop_first_request (l : loc) (fuel : nat) (loop_count : nat)
  (clean_kwargs : py_dict pyval) (final_tools : option (list pyval))
  (st st' : state) (r : res (option chat_response)) :
  chat_loop' (S fuel) l loop_count clean_kwargs final_tools st = (r, st') ->
  exists resp evs,
    trace st' = trace st ++
      EvChatCall (chat_request' (contents st l) clean_kwargs final_tools) resp
      :: evs.
Proof.
  rewrite chat_loop_step. cbn zeta.
  set (rq := chat_request' (contents st l) clean_kwargs final_tools).
  set (resp := (chat_backend rq (world st)).1).
  set (st1 := State (chat_backend rq (world st)).2 (server_cache st) (heap st)
                    (trace st ++ [EvChatCall rq resp])).
  destruct (bool_decide (cr_tool_calls resp = [])
            || (MAX_TOOL_LOOPS <=? loop_count + 1)).
  - destruct (MAX_TOOL_LOOPS <=? loop_count + 1); intros [= <- <-].
    + exists resp, [max_loops_warning]. simpl. by rewrite <- app_assoc.
    + by exists resp, [].
  - destruct (dispatch_round' l (cr_tool_calls resp) st1) as [[[]|e] st2]
      eqn:Hd.
    + intros Hloop.
      destruct (dispatch_round_true l _ _ _ Hd)
        as (? & ? & ? & ? & ? & _ & _ & _ & _ & _ & _ & _ & _
            & _ & _ & _ & tevs & Ht & _).
      destruct (chat_loop_driver_events _ _ _ _ _ _ _ _ Hloop)
        as (_ & evs & Ht' & _).
      exists resp, (tevs ++ evs). rewrite Ht', Ht. simpl.
      by rewrite <- !app_assoc.
    + destruct (dispatch_round_other l _ _ _ _ Hd)
        as (_ & _ & _ & tevs & Ht & _); [done|].
      intros [= <- <-]. exists resp, tevs. rewrite Ht. simpl.
      by rewrite <- app_assoc.
    + destruct (dispatch_round_other l _ _ _ _ Hd)
        as (_ & _ & _ & tevs & Ht & _); [done|].
      intros [= <- <-]. exists resp, tevs. rewrite Ht. simpl.
      by rewrite <- app_assoc.
Qed.

Lemma responses_flow_first_request (payload : payload)
  (clean_kwargs : py_dict pyval) (final_tools : list pyval)
  (st st' : state) (r : res response) :
  responses_flow model provider api_key async_mode server_lookup payload
    clean_kwargs final_tools st = (r, st') ->
  exists resp evs,
    trace st' = trace st ++
      EvResponsesCall
        (responses_request model provider api_key async_mode
           (initial_input payload st) (Some (PList final_tools)) None
           clean_kwargs) resp
      :: evs.
Proof.
  rewrite responses_flow_unfold. cbn zeta.
  set (l0 := fresh (dom (heap st))).
  set (rq := responses_request model provider api_key async_mode
               (initial_input payload st) (Some (PList final_tools)) None
               clean_kwargs).
  set (resp := (responses_backend rq (world st)).1).
  set (st1 := State (responses_backend rq (world st)).2 (server_cache st)
                    (<[l0 := initial_input payload st]> (heap st))
                    (trace st ++ [EvResponsesCall rq resp])).
  destruct (bool_decide (omap function_call_of (r_output resp) = [])).
  { intros [= <- <-]. by exists resp, []. }
  destruct (dispatch_outputs server_lookup l0 _ st1) as [[[]|e] st2] eqn:Hd;
    destruct (dispatch_outputs_frame _ _ _ _ _ Hd)
      as (_ & _ & tevs & Ht & _);
    intros [= <- <-].
  - eexists resp, (tevs ++ [_]). simpl. rewrite Ht. simpl.
    by rewrite <- !app_assoc.
  - exists resp, tevs. rewrite Ht. simpl. by rewrite <- app_assoc.
Qed.

(** ** Chat calls that cannot fail *)

Lemma chat_loop_returns (names : list pyval) (l : loc) :
  explicit_names explicit = Ok names ->
  (forall rq w,
      Forall (admitted names) (cr_tool_calls (chat_backend rq w).1)
      /\ Forall servable (cr_tool_calls (chat_backend rq w).1)) ->
  forall (k loop_count fuel : nat) (clean_kwargs : py_dict pyval)
         (final_tools : option (list pyval)) (st : state),
    loop_count + S k = MAX_TOOL_LOOPS -> S k <= fuel ->
    exists resp st' rq evs,
      chat_loop' fuel l loop_count clean_kwargs final_tools st
      = (Ok (Some resp), st')
      /\ trace st' = trace st ++ evs
      /\ last (omap chat_pair evs) = Some (rq, resp).
Proof.
  intros Hn Hmodel k.
  induction k as [|k IH]; intros n fuel kw ft st Hk Hfuel;
    (destruct fuel as [|fuel]; [lia|]); rewrite chat_loop_step; cbn zeta;
    set (rq := chat_request' (contents st l) kw ft);
    set (resp := (chat_backend rq (world st)).1);
    destruct (Hmodel rq (world st)) as (Ha & Hs).
  - replace (MAX_TOOL_LOOPS <=? n + 1) with true
      by (symmetry; apply Nat.leb_le; lia).
    rewrite orb_true_r.
    eexists resp, _, rq, [EvChatCall rq resp; max_loops_warning].
    split_and!; [reflexivity| |reflexivity].
    simpl. by rewrite <- app_assoc.
  - replace (MAX_TOOL_LOOPS <=? n + 1) with false
      by (symmetry; apply Nat.leb_gt; lia).
    rewrite orb_false_r.
    destruct (bool_decide (cr_tool_calls resp = [])).
    { by eexists resp, _, rq, [EvChatCall rq resp]. }
    set (st1 := State (chat_backend rq (world st)).2 (server_cache st)
                      (heap st) (trace st ++ [EvChatCall rq resp])).
    destruct (dispatch_round_admitted names l (cr_tool_calls resp) st1
                Hn Ha Hs) as (st2 & Hd).
    rewrite Hd.
    destruct (dispatch_round_true _ _ _ _ Hd)
      as (? & ? & ? & ? & ? & _ & _ & _ & _ & _ & _ & _ & _ & _ & _ & _
          & tevs & Ht2 & Htool).
    destruct (IH (n + 1) fuel
                (dict_pop "tool_choice" (dict_pop "tools" kw)) None st2)
      as (resp' & st' & rq' & evs & -> & Ht' & Hlast); [lia..|].
    exists resp', st', rq', (EvChatCall rq resp :: tevs ++ evs).
    split_and!; [done| |].
    + rewrite Ht', Ht2. subst st1. simpl. by rewrite <- !app_assoc.
    + change (omap chat_pair (EvChatCall rq resp :: tevs ++ evs))
        with ((rq, resp) :: omap chat_pair (tevs ++ evs)).
      rewrite omap_app, (tool_events_no_chat_pairs _ Htool). simpl.
      destruct (omap chat_pair evs); [done|]. by rewrite last_cons_cons.
Qed.

(** X6. A chat completion whose tools are all served cannot fail: if the
    requests of the model are admitted (their arguments parse and the
    caller-only guard lets them through) and served by a server of the
    lookup, whatever that server does, or by a registered callable that
    does not raise, then the call returns a response, and that response is
    the one of the last model call made. *)
Theorem served_tools_never_fail_a_chat_call (l : loc) (names : list pyval)
  (fuel : nat) (clean_kwargs : py_dict pyval)
  (final_tools : option (list pyval)) (st : state) :
  explicit_names explicit = Ok names ->
  (forall rq w,
      Forall (admitted names) (cr_tool_calls (chat_backend rq w).1)
      /\ Forall servable (cr_tool_calls (chat_backend rq w).1)) ->
  MAX_TOOL_LOOPS <= fuel ->
  exists resp st' rq evs,
    chat_loop model provider api_key async_mode explicit server_lookup
      fuel l 0 clean_kwargs final_tools st
    = (Ok (Some resp), st')
    /\ trace st' = trace st ++ evs
    /\ last (omap chat_pair evs) = Some (rq, resp).
Proof.
  intros Hn Hmodel Hfuel.
  by apply (chat_loop_returns names l Hn Hmodel 19 0).
Qed.

(** ** A local callable that raises *)

Lemma completion_order_one (w : W) : completion_order w 1 = [0].
Proof. apply Permutation_singleton_r, (completion_order_perm w 1). Qed.

(** X7. Only remote failures are contained.  When the model requests one
    call of a registered local callable (the name is not in the server
    lookup, the arguments parse, the caller-only guard lets it through) and
    the callable raises, the chat completion raises that exception to the
    caller: no further model call is made and the message list is left as
    it was. *)
Theorem local_tool_failure_aborts_chat_call (fuel : nat) (l : loc)
  (loop_count : nat) (clean_kwargs : py_dict pyval)
  (final_tools : option (list pyval)) (st : state) (names : list pyval)
  (call : tool_call) (parsed : pyval) (fn : pyval -> W -> res pyval * W)
  (e : exn) (w' : W) :
  let rq := chat_request model provider api_key async_mode (contents st l)
              clean_kwargs final_tools in
  let resp := (chat_backend rq (world st)).1 in
  loop_count + 1 < MAX_TOOL_LOOPS ->
  cr_tool_calls resp = [call] ->
  explicit_names explicit = Ok names ->
  parse_arguments (tc_arguments call) = Ok parsed ->
  caller_only server_lookup names (tc_name call) = false ->
  server_lookup !! tc_name call = None ->
  FUNCTION_REGISTRY !! tc_name call = Some fn ->
  fn parsed (chat_backend rq (world st)).2 = (Raise e, w') ->
  exists st',
    chat_loop model provider api_key async_mode explicit server_lookup
      (S fuel) l loop_count clean_kwargs final_tools st
    = (Raise e, st')
    /\ heap st' = heap st
    /\ world st' = w'
    /\ chat_calls (trace st') = chat_calls (trace st) ++ [EvChatCall rq resp].
Proof.
  intros rq resp Hcap Hcalls Hn Hparse Hguard Hl Hreg Hfn.
  rewrite chat_loop_step. cbn zeta. fold rq. fold resp. rewrite Hcalls.
  replace (MAX_TOOL_LOOPS <=? loop_count + 1) with false
    by (symmetry; apply Nat.leb_gt; lia).
  rewrite bool_decide_eq_false_2 by done. simpl orb. cbv iota.
  unfold dispatch_round, bind at 1, lift_res at 1. rewrite Hn.
  unfold bind at 1, lift_res at 1. simpl build_tasks.
  rewrite Hparse. simpl res_bind. rewrite Hguard.
  unfold bind at 1, gather, bind at 1. simpl length.
  rewrite completion_order_one. simpl run_in_order.
  unfold bind at 1, _process_tool_call, bind at 1. rewrite Hl, Hreg.
  unfold bind at 1, emit, external. simpl. rewrite Hfn.
  eexists. split_and!; [reflexivity|done..| ].
  simpl. unfold chat_calls. rewrite !filter_app, !filter_cons, !filter_nil.
  simpl. by rewrite !app_nil_r.
Qed.

End Drivers.

(** ** The orchestration call *)

Definition setup_event (ev : event) : bool :=
  match ev with
  | EvConnect _ | EvGetAllFunctionTools _ | EvListTools _ => true
  | _ => false
  end.

(** A computation of the setup steps: it leaves the heap alone and records
    only connects and tool listings. *)
Definition setup_only {A} (m : M A) : Prop :=
  forall st r st',
    m st = (r, st') ->
    heap st' = heap st
    /\ exists evs, trace st' = trace st ++ evs /\ Forall setup_event evs.

Lemma setup_only_pure {A} (r : res A) : setup_only (lift_res r).
Proof.
  intros st r' st' [= <- <-]. split; [done|]. exists []. by rewrite app_nil_r.
Qed.

Lemma setup_only_ret {A} (a : A) : setup_only (ret a).
Proof. apply (setup_only_pure (Ok a)). Qed.

Lemma setup_only_bind {A B} (m : M A) (k : A -> M B) :
  setup_only m -> (forall a, setup_only (k a)) -> setup_only (bind m k).
Proof.
  intros Hm Hk st r st' H. unfold bind in H.
  destruct (m st) as [[a|e] st1] eqn:Hm1.
  - destruct (Hm _ _ _ Hm1) as (Hh & evs1 & Ht & Hf).
    destruct (Hk a _ _ _ H) as (Hh' & evs2 & Ht' & Hf').
    split; [congruence|]. exists (evs1 ++ evs2).
    rewrite Ht', Ht, app_assoc. split; [done|]. by apply Forall_app.
  - injection H as <- <-. by apply (Hm _ _ _ Hm1).
Qed.

Lemma setup_only_external {A} (f : W -> res A * W) (ev : event) :
  setup_event ev = true -> setup_only (external f ev).
Proof.
  intros Hev st r st' H. unfold external in H.
  destruct (f (world st)) as [r1 w']. injection H as <- <-. simpl.
  split; [done|]. exists [ev]. split; [done|].
  constructor; [by rewrite Hev|constructor].
Qed.

Lemma ensure_connected_setup_only (server : handle) :
  setup_only (_ensure_connected server).
Proof.
  intros st r st' H.
  destruct (server_cache st !! name server) as [cached|] eqn:Hc.
  - rewrite (ensure_connected_cached server cached st Hc) in H.
    injection H as <- <-. split; [done|]. exists []. by rewrite app_nil_r.
  - rewrite (ensure_connected_absent server st Hc) in H.
    destruct (connect server (world st)) as [[[]|e] w']; injection H as <- <-;
      (split; [done|]); exists [EvConnect server]; split; try done;
      by repeat constructor.
Qed.

Lemma mapM_setup_only {A B} (f : A -> M B) (xs : list A) :
  (forall x, setup_only (f x)) -> setup_only (mapM f xs).
Proof.
  intros Hf. induction xs as [|x xs IH]; simpl; [apply setup_only_ret|].
  apply setup_only_bind; [done|]. intros y.
  apply setup_only_bind; [done|]. intros ys. apply setup_only_ret.
Qed.

Lemma prepare_mcp_tools_setup_only (servers : list handle) (strict : pyval) :
  setup_only (_prepare_mcp_tools servers strict).
Proof.
  unfold _prepare_mcp_tools. apply setup_only_bind.
  - apply mapM_setup_only, ensure_connected_setup_only.
  - intros connected. apply setup_only_bind.
    + by apply setup_only_external.
    + intros. apply setup_only_ret.
Qed.

Lemma build_server_lookup_setup_only (servers : list handle)
  (server_lookup : gmap string handle) :
  setup_only (build_server_lookup servers server_lookup).
Proof.
  revert server_lookup. induction servers as [|srv servers IH];
    intros server_lookup; simpl; [apply setup_only_ret|].
  apply setup_only_bind; [apply ensure_connected_setup_only|]. intros conn.
  apply setup_only_bind; [by apply setup_only_external|]. intros ts. apply IH.
Qed.




(** What the dispatchers of the orchestrator make of a successful remote
    call: the output is the [content] field of the structured reply, and
    [None] when the reply has no such field: in [_execute_tool] the value
    itself, in [_process_tool_call] its text in the tool message (the text
    [None] when the field is missing). *)
Lemma remote_output_is_content (call : tool_call) (fn_name : string)
  (fn_args : pyval) (server_lookup : gmap string handle) (provider : string)
  (server : handle) (st : state) (reply : py_dict pyval) (w' : W) :
  server_lookup !! fn_name = Some server ->
  call_tool server fn_name fn_args (world st) = (Ok reply, w') ->
  let output := match dict_lookup "content" reply with
                | Some v => v
                | None => PNone
                end in
  (exists st', _execute_tool fn_name fn_args server_lookup st
               = (Ok output, st'))
  /\ (exists st',
        _process_tool_call call fn_name fn_args server_lookup provider false st
        = (Ok (PartList [AssistantToolCalls [call];
                         ToolMessage fn_name (py_str output)
                           (default PNone (id call))]), st'))
  /\ (dict_lookup "content" reply = None -> py_str output = "None").
Proof.
  intros Hs Hcall output. split_and!.
  - unfold _execute_tool, bind, external, ret. rewrite Hs, Hcall.
    by eexists.
  - destruct (process_tool_call_server call fn_name fn_args server_lookup
                provider server st Hs) as (text & st' & -> & ->).
    rewrite Hcall. by eexists.
  - intros Hnone. subst output. by rewrite Hnone.
Qed.

(** ** The two shapes of a declaration *)

Lemma normalize_schema_nested (schema fn : py_dict pyval) :
  dict_lookup "function" schema = Some (PDict fn) ->
  dict_mem "function" fn = false ->
  _normalize_schema schema = _normalize_schema fn.
Proof.
  intros Hs Hfn. unfold _normalize_schema at 1. unfold dict_mem, py_get.
  rewrite Hs. simpl. unfold _normalize_schema. rewrite Hfn.
  unfold py_or. by destruct (truthy (py_get fn "parameters")).
Qed.

(** Two declarations the normalizer does not tell apart. *)
Definition same_flat (s s' : py_dict pyval) : Prop :=
  _normalize_schema s = _normalize_schema s'.

Definition same_entry (p p' : string * py_dict pyval) : Prop :=
  p.1 = p'.1 /\ same_flat p.2 p'.2.

Lemma dict_lookup_same (k : string) (d d' : py_dict (py_dict pyval)) :
  Forall2 same_entry d d' ->
  dict_mem k d = dict_mem k d'.
Proof.
  unfold dict_mem. induction 1 as [|[k1 s1] [k2 s2] d d' [Hk _] _ IH]; [done|].
  simpl in *. subst k2. by destruct (String.eqb k k1).
Qed.

Lemma dict_set_same (k : string) (s s' : py_dict pyval)
  (d d' : py_dict (py_dict pyval)) :
  same_flat s s' -> Forall2 same_entry d d' ->
  Forall2 same_entry (dict_set k s d) (dict_set k s' d').
Proof.
  intros Hs. induction 1 as [|[k1 s1] [k2 s2] d d' [Hk Hv] Hd IH]; simpl.
  { by repeat constructor. }
  simpl in Hk. subst k2. destruct (String.eqb k k1).
  - by constructor.
  - by constructor.
Qed.

Lemma dedupe_step_same (d d' : py_dict (py_dict pyval))
  (s s' : py_dict pyval) :
  Forall2 same_entry d d' -> same_flat s s' ->
  match dedupe_step d s, dedupe_step d' s' with
  | Ok r, Ok r' => Forall2 same_entry r r'
  | Raise e, Raise e' => e = e'
  | _, _ => False
  end.
Proof.
  intros Hd Hs. unfold dedupe_step. rewrite <- Hs.
  destruct (_normalize_schema s) as [flat|e]; [|done]. simpl.
  destruct (truthy (py_get flat "name")); [|done].
  destruct (py_get flat "name") as [|n| |]; try done.
  rewrite <- (dict_lookup_same n d d' Hd).
  destruct (dict_mem n d); simpl; [done|]. by apply dict_set_same.
Qed.

Lemma dedupe_same (l l' : list (py_dict pyval)) :
  Forall2 same_flat l l' ->
  forall d d', Forall2 same_entry d d' ->
  match dedupe d l, dedupe d' l' with
  | Ok r, Ok r' => Forall2 same_entry r r'
  | Raise e, Raise e' => e = e'
  | _, _ => False
  end.
Proof.
  induction 1 as [|s s' l l' Hs _ IH]; intros d d' Hd; simpl; [done|].
  pose proof (dedupe_step_same d d' s s' Hd Hs) as Hstep.
  destruct (dedupe_step d s) as [r|e], (dedupe_step d' s') as [r'|e'];
    try done; simpl. by apply IH.
Qed.

Lemma build_tools_same (is_responses : bool) (l l' : list (py_dict pyval)) :
  Forall2 same_flat l l' ->
  build_tools is_responses l = build_tools is_responses l'.
Proof.
  induction 1 as [|s s' l l' Hs _ IH]; [done|]. simpl.
  by rewrite Hs, IH.
Qed.

Lemma merge_tools_same (is_responses : bool)
  (explicit explicit' mcp_schemas : list (py_dict pyval)) :
  Forall2 same_flat explicit explicit' ->
  merge_tools is_responses explicit mcp_schemas
  = merge_tools is_responses explicit' mcp_schemas.
Proof.
  intros He. unfold merge_tools.
  assert (Forall2 same_flat (combine explicit mcp_schemas)
            (combine explicit' mcp_schemas)) as Hc.
  { unfold combine. apply Forall2_app; [done|].
    apply Forall_Forall2_diag, Forall_forall. by intros. }
  pose proof (dedupe_same _ _ Hc [] [] ltac:(constructor)) as Hd.
  destruct (dedupe [] (combine explicit mcp_schemas)) as [r|e],
    (dedupe [] (combine explicit' mcp_schemas)) as [r'|e']; try done; simpl.
  - apply build_tools_same. unfold dict_values.
    apply Forall2_fmap. eapply Forall2_impl; [exact Hd|]. by intros ?? [_ ?].
  - by subst.
Qed.

(** X3. The merger does not tell the two shapes of a declaration apart:
    where caller declarations given in the nested shape (the schema under
    [function]) are replaced by their inner flat dicts, the merged tool list
    is the same, and so is the exception when the merge fails.  Whatever
    else the outer dict of a nested declaration holds is ignored. *)
Theorem merge_tools_shape_independent (is_responses : bool)
  (explicit explicit' mcp_schemas : list (py_dict pyval)) :
  Forall2 (fun s s' =>
             s = s'
             \/ (dict_lookup "function" s = Some (PDict s')
                 /\ dict_mem "function" s' = false))
    explicit explicit' ->
  merge_tools is_responses explicit mcp_schemas
  = merge_tools is_responses explicit' mcp_schemas.
Proof.
  intros H. apply merge_tools_same.
  eapply Forall2_impl; [exact H|].
  intros s s' [->|[Hs Hfn]]; [done|]. by apply normalize_schema_nested.
Qed.

(** ** Options the wrapper consumes *)

(** X4. [_clean_kwargs] removes the options [mcp_servers] and [mcp_strict]
    and nothing else: every other option keeps its value, and the options
    that remain keep their order. *)
Theorem clean_kwargs_removes_mcp_options_only (kwargs : py_dict pyval) :
  NoDup kwargs.*1 ->
  (forall k,
      dict_lookup k (_clean_kwargs kwargs)
      = if bool_decide (k = "mcp_servers" \/ k = "mcp_strict") then None
        else dict_lookup k kwargs)
  /\ sublist (_clean_kwargs kwargs) kwargs
  /\ NoDup (_clean_kwargs kwargs).*1.
Proof.
  intros Hnd. unfold _clean_kwargs. split_and!.
  - intros k. case_bool_decide as Hk.
    + destruct Hk as [->| ->].
      * rewrite dict_lookup_pop_ne by done. by apply dict_lookup_pop.
      * by apply dict_lookup_pop, dict_pop_NoDup.
    + rewrite !dict_lookup_pop_ne; [done|intros ->; tauto..].
  - assert (forall (k : string) (d : py_dict pyval), sublist (dict_pop k d) d)
      as Hsub.
    { intros k d. induction d as [|[k0 v0] d IH]; [done|]. simpl.
      destruct (String.eqb k k0); [by apply sublist_cons|by apply sublist_skip]. }
    etrans; apply Hsub.
  - by do 2 apply dict_pop_NoDup.
Qed.

(** ** The two dispatchers side by side *)

(** X5. Where [_execute_tool] returns a value, [_process_tool_call] run on
    the same request from the same state returns the text of that value, in
    a tool message after the assistant entry or, with [is_responses] set, in
    a function-call output whose identifier is the [call_id] of the request,
    else its [id], else [None]; both leave the world as [_execute_tool]
    does.  A server in the lookup is preferred to a registered callable of
    the same name by both. *)
Theorem dispatchers_agree_on_success (call : tool_call) (fn_name : string)
  (fn_args : pyval) (server_lookup : gmap string handle) (provider : string)
  (st st' : state) (v : pyval) :
  _execute_tool fn_name fn_args server_lookup st = (Ok v, st') ->
  (exists st1,
      _process_tool_call call fn_name fn_args server_lookup provider false st
      = (Ok (PartList [AssistantToolCalls [call];
                       ToolMessage fn_name (py_str v)
                         (default PNone (id call))]), st1)
      /\ world st1 = world st')
  /\ (exists st1,
        _process_tool_call call fn_name fn_args server_lookup provider true st
        = (Ok (PartDict
                 (FunctionCallOutput
                    (match call_id call, id call with
                     | Some c, _ => c
                     | None, Some i => i
                     | None, None => PNone
                     end)
                    (py_str v))), st1)
        /\ world st1 = world st')
  /\ (forall server,
        server_lookup !! fn_name = Some server ->
        exists reply,
          call_tool server fn_name fn_args (world st) = (Ok reply, world st')
          /\ v = py_get reply "content").
Proof.
  unfold _execute_tool, _process_tool_call.
  destruct (server_lookup !! fn_name) as [server|] eqn:Hl.
  - unfold bind, try_except, external, emit, ret. simpl.
    destruct (call_tool server fn_name fn_args (world st)) as [[reply|e] w']
      eqn:Hc; intros [= <- <-]. split_and!.
    + by eexists.
    + eexists. split; [by destruct (call_id call), (id call)|done].
    + intros ? [= <-]. by exists reply.
  - destruct (FUNCTION_REGISTRY !! fn_name) as [fn|]; [|done].
    unfold bind, external, emit, ret. simpl.
    destruct (fn fn_args (world st)) as [[out|e] w'] eqn:Hc;
      intros [= <- <-]. split_and!.
    + by eexists.
    + eexists. split; [by destruct (call_id call), (id call)|done].
    + intros ? [=].
Qed.

(** ** Connections made over a whole call *)

(** The server a connect event connected. *)
Definition connected_handle (ev : event) : option handle :=
  match ev with EvConnect s => Some s | _ => None end.

(** A computation that keeps to the cache: it connects servers of
    [servers] only, under names the cache did not hold, no name twice, keeps
    what the cache held, and when it completes the cache holds each server
    it connected under its name. *)
Definition connects_once (servers : list handle) {A} (m : M A) : Prop :=
  forall st r st',
    m st = (r, st') ->
    server_cache st ⊆ server_cache st'
    /\ exists evs,
         trace st' = trace st ++ evs
         /\ NoDup (name <$> omap connected_handle evs)
         /\ Forall (fun s => s ∈ servers
                             /\ server_cache st !! name s = None)
              (omap connected_handle evs)
         /\ (is_ok r = true ->
             Forall (fun s => server_cache st' !! name s = Some s)
               (omap connected_handle evs))
         /\ (omap connected_handle evs = [] ->
             server_cache st' = server_cache st).

Lemma connects_once_quiet (servers : list handle) {A} (m : M A) :
  (forall st r st',
      m st = (r, st') ->
      server_cache st' = server_cache st
      /\ exists evs, trace st' = trace st ++ evs
                     /\ omap connected_handle evs = []) ->
  connects_once servers m.
Proof.
  intros Hm st r st' H. destruct (Hm _ _ _ H) as (Hc & evs & Ht & Hno).
  rewrite Hc. split; [done|]. exists evs. rewrite Hno.
  split_and!; [done|constructor|constructor|by constructor|done].
Qed.

Lemma connects_once_pure (servers : list handle) {A} (r : res A) :
  connects_once servers (lift_res r).
Proof.
  apply connects_once_quiet. intros st r' st' [= <- <-].
  split; [done|]. exists []. by rewrite app_nil_r.
Qed.

Lemma connects_once_external (servers : list handle) {A}
  (f : W -> res A * W) (ev : event) :
  connected_handle ev = None -> connects_once servers (external f ev).
Proof.
  intros Hev. apply connects_once_quiet. intros st r st' H.
  unfold external in H. destruct (f (world st)) as [r1 w'].
  injection H as <- <-. simpl. split; [done|]. exists [ev].
  split; [done|]. simpl. by rewrite Hev.
Qed.

Lemma connects_once_bind (servers : list handle) {A B} (m : M A)
  (k : A -> M B) :
  connects_once servers m -> (forall a, connects_once servers (k a)) ->
  connects_once servers (bind m k).
Proof.
  intros Hm Hk st r st' H. unfold bind in H.
  destruct (m st) as [[a|e] st1] eqn:Hm1.
  2:{ injection H as <- <-. by apply (Hm _ _ _ Hm1). }
  destruct (Hm _ _ _ Hm1)
    as (Hsub1 & evs1 & Ht1 & Hnd1 & Hnew1 & Hok1 & Hsame1).
  destruct (Hk a _ _ _ H)
    as (Hsub2 & evs2 & Ht2 & Hnd2 & Hnew2 & Hok2 & Hsame2).
  specialize (Hok1 eq_refl).
  split; [by etrans|]. exists (evs1 ++ evs2).
  rewrite omap_app, fmap_app. split_and!.
  - by rewrite Ht2, Ht1, app_assoc.
  - apply NoDup_app. split_and!; [done| |done].
    intros n (s1 & -> & Hs1)%list_elem_of_fmap (s2 & Hn & Hs2)%list_elem_of_fmap.
    rewrite Forall_forall in Hok1, Hnew2.
    specialize (Hok1 _ Hs1). destruct (Hnew2 _ Hs2) as [_ Hnone].
    rewrite <- Hn in Hnone. congruence.
  - apply Forall_app. split; [done|].
    eapply Forall_impl; [exact Hnew2|]. intros s [Hin Hnone].
    split; [done|]. by eapply lookup_weaken_None.
  - intros Hr. apply Forall_app. split; [|by apply Hok2].
    eapply Forall_impl; [exact Hok1|]. intros s Hs. simpl in Hs.
    by eapply lookup_weaken.
  - intros [E1 E2]%app_eq_nil. by rewrite (Hsame2 E2), (Hsame1 E1).
Qed.

Lemma ensure_connected_connects_once (servers : list handle)
  (server : handle) :
  server ∈ servers -> connects_once servers (_ensure_connected server).
Proof.
  intros Hin st r st' H.
  destruct (server_cache st !! name server) as [cached|] eqn:Hc.
  - rewrite (ensure_connected_cached server cached st Hc) in H.
    injection H as <- <-. split; [done|]. exists [].
    rewrite app_nil_r. split_and!; [done|constructor..|by constructor|done].
  - rewrite (ensure_connected_absent server st Hc) in H.
    destruct (connect server (world st)) as [[[]|e] w']; injection H as <- <-;
      simpl.
    + split; [by apply insert_subseteq|]. exists [EvConnect server].
      split_and!; [done|apply NoDup_singleton|by repeat constructor| |done].
      intros _. repeat constructor. by rewrite lookup_insert_eq.
    + split; [done|]. exists [EvConnect server].
      split_and!;
        [done|apply NoDup_singleton|by repeat constructor|done|done].
Qed.

Lemma mapM_connects_once (servers : list handle) {A B} (f : A -> M B)
  (xs : list A) :
  Forall (fun x => connects_once servers (f x)) xs ->
  connects_once servers (mapM f xs).
Proof.
  induction 1 as [|x xs Hx _ IH]; simpl.
  { apply (connects_once_pure servers (Ok [])). }
  apply connects_once_bind; [done|]. intros y.
  apply connects_once_bind; [done|]. intros ys.
  apply (connects_once_pure servers (Ok (y :: ys))).
Qed.

Lemma prepare_mcp_tools_connects_once (servers : list handle)
  (strict : pyval) :
  connects_once servers (_prepare_mcp_tools servers strict).
Proof.
  unfold _prepare_mcp_tools. apply connects_once_bind.
  - apply mapM_connects_once, Forall_forall. intros s Hs.
    by apply ensure_connected_connects_once.
  - intros connected. apply connects_once_bind.
    + by apply connects_once_external.
    + intros tool_objs. apply (connects_once_pure servers (Ok _)).
Qed.

Lemma build_server_lookup_connects_once (all servers : list handle)
  (server_lookup : gmap string handle) :
  servers ⊆ all ->
  connects_once all (build_server_lookup servers server_lookup).
Proof.
  revert server_lookup. induction servers as [|srv servers IH];
    intros server_lookup Hsub; simpl.
  { apply (connects_once_pure all (Ok server_lookup)). }
  apply connects_once_bind.
  { apply ensure_connected_connects_once, Hsub. by left. }
  intros conn. apply connects_once_bind; [by apply connects_once_external|].
  intros ts. apply IH. intros s Hs. apply Hsub. by right.
Qed.

Lemma driver_events_no_connects (provider model : string) (api_key : pyval)
  (async_mode : bool) (evs : list event) :
  Forall (driver_event provider model api_key async_mode) evs ->
  omap connected_handle evs = [].
Proof.
  induction 1 as [|ev evs Hev _ IH]; [done|].
  destruct ev; try done; simpl; by rewrite IH.
Qed.

Lemma handle_llm_call_connects_once (fuel : nat) (model : string)
  (payload : call_style) (mcp_servers : option (list handle))
  (mcp_strict : pyval) (tools : option (list (py_dict pyval)))
  (kwargs : py_dict pyval) (async_mode : bool) :
  connects_once (default [] mcp_servers)
    (_handle_llm_call fuel model payload mcp_servers mcp_strict tools kwargs
       async_mode).
Proof.
  unfold _handle_llm_call. cbn zeta.
  apply connects_once_bind.
  { destruct (default [] mcp_servers) as [|s servers] eqn:E.
    - apply (connects_once_pure [] (Ok [])).
    - apply prepare_mcp_tools_connects_once. }
  intros mcp_schemas. apply connects_once_bind; [apply connects_once_pure|].
  intros final_tools. apply connects_once_bind.
  { by apply build_server_lookup_connects_once. }
  intros server_lookup. apply connects_once_bind; [apply connects_once_pure|].
  intros [provider api_key]. destruct payload as [messages|input].
  - apply connects_once_bind.
    + apply connects_once_quiet. intros st r st' H.
      destruct (chat_loop_driver_events _ _ _ _ _ _ _ _ _ _ _ _ _ _ H)
        as (Hc & evs & Ht & Hf & _).
      split; [done|]. exists evs. split; [done|].
      by eapply driver_events_no_connects.
    + intros resp. apply (connects_once_pure _ (Ok _)).
  - apply connects_once_bind.
    + apply connects_once_quiet. intros st r st' H.
      destruct (responses_flow_driver_events _ _ _ _ _ _ _ _ _ _ _ H)
        as (Hc & evs & Ht & Hf & _).
      split; [done|]. exists evs. split; [done|].
      by eapply driver_events_no_connects.
    + intros resp. apply (connects_once_pure _ (Ok _)).
Qed.

(** X8. Over a whole call each tool server is connected at most once.
    The servers are looked up twice, to collect the schemas and to index
    the tools, and the drivers run after that; still the connects of the
    call are connects of servers of [mcp_servers], under pairwise different
    names, none of which the cache held before.  What the cache held it
    still holds afterwards, and when the call returns, each server it
    connected is cached under its name; a call that connects nothing leaves
    the cache as it is. *)
Theorem each_server_connected_at_most_once (fuel : nat) (model : string)
  (payload : call_style) (mcp_servers : option (list handle))
  (mcp_strict : pyval) (tools : option (list (py_dict pyval)))
  (kwargs : py_dict pyval) (async_mode : bool) (st st' : state)
  (r : res completion) :
  _handle_llm_call fuel model payload mcp_servers mcp_strict tools kwargs
    async_mode st = (r, st') ->
  server_cache st ⊆ server_cache st'
  /\ exists evs,
       trace st' = trace st ++ evs
       /\ NoDup (name <$> omap connected_handle evs)
       /\ Forall (fun s => s ∈ default [] mcp_servers
                           /\ server_cache st !! name s = None)
            (omap connected_handle evs)
       /\ (is_ok r = true ->
           Forall (fun s => server_cache st' !! name s = Some s)
             (omap connected_handle evs))
       /\ (omap connected_handle evs = [] ->
           server_cache st' = server_cache st).
Proof. apply handle_llm_call_connects_once. Qed.

(** ** The server lookup *)

Lemma ensure_connected_ok (server conn : handle) (st st' : state) :
  _ensure_connected server st = (Ok conn, st') ->
  server_cache st' !! name server = Some conn.
Proof.
  destruct (server_cache st !! name server) as [cached|] eqn:Hc.
  - rewrite (ensure_connected_cached server cached st Hc).
    by intros [= <- <-].
  - rewrite (ensure_connected_absent server st Hc).
    destruct (connect server (world st)) as [[[]|e] w']; intros [= <- <-].
    simpl. by rewrite lookup_insert_eq.
Qed.

Lemma index_tools_lookup (conn : handle) (ts : list tool_obj)
  (server_lookup : gmap string handle) (n : string) :
  foldl (fun m t => <[t_name t := conn]> m) server_lookup ts !! n
  = if decide (n ∈ t_name <$> ts) then Some conn else server_lookup !! n.
Proof.
  revert server_lookup. induction ts as [|t ts IH]; intros server_lookup.
  { cbn [foldl fmap list_fmap]. case_decide as Hin; [|done].
    by apply elem_of_nil in Hin. }
  rewrite fmap_cons. cbn [foldl]. rewrite IH.
  destruct (decide (n ∈ t_name <$> ts)) as [Hin|Hnotin].
  - case_decide as Hnot; [done|]. destruct Hnot. by right.
  - destruct (decide (n = t_name t)) as [->|Hne].
    + rewrite lookup_insert_eq.
      case_decide as Hnot; [done|]. destruct Hnot. by left.
    + rewrite lookup_insert_ne by done.
      case_decide as Hc; [|done].
      by apply elem_of_cons in Hc as [?|?].
Qed.

(** The server a tool-listing event listed. *)
Definition listed_handle (ev : event) : option handle :=
  match ev with EvListTools s => Some s | _ => None end.

Lemma ensure_connected_lists_nothing (server : handle) (st st' : state)
  (r : res handle) :
  _ensure_connected server st = (r, st') ->
  exists evs, trace st' = trace st ++ evs /\ omap listed_handle evs = [].
Proof.
  destruct (server_cache st !! name server) as [cached|] eqn:Hc.
  - rewrite (ensure_connected_cached server cached st Hc).
    intros [= <- <-]. exists []. by rewrite app_nil_r.
  - rewrite (ensure_connected_absent server st Hc).
    destruct (connect server (world st)) as [[[]|e] w']; intros [= <- <-];
      by exists [EvConnect server].
Qed.

(** The listings a run of step 3 obtained, server by server, and the
    lookup they make: a name is served by the last listing that holds it. *)
Lemma build_server_lookup_listings (servers : list handle) :
  forall (init : gmap string handle) (st st' : state)
         (server_lookup : gmap string handle),
    build_server_lookup servers init st = (Ok server_lookup, st') ->
    exists (listings : list (handle * list tool_obj)) (evs : list event),
      trace st' = trace st ++ evs
      /\ omap listed_handle evs = listings.*1
      /\ Forall2 (fun srv lg => server_cache st' !! name srv = Some lg.1)
           servers listings
      /\ Forall (fun lg => exists w w', list_tools lg.1 w = (Ok lg.2, w'))
           listings
      /\ forall n,
           server_lookup !! n
           = match last (filter (fun lg => n ∈ t_name <$> lg.2) listings)
             with
             | Some lg => Some lg.1
             | None => init !! n
             end.
Proof.
  induction servers as [|srv servers IH]; intros init st st' sl; simpl.
  { intros [= <- <-]. exists [], []. rewrite app_nil_r.
    split_and!; by try constructor. }
  unfold bind at 1.
  destruct (_ensure_connected srv st) as [[conn|e] st1] eqn:Hconn; [|done].
  unfold bind at 1, external.
  destruct (list_tools conn (world st1)) as [[ts|e] w2] eqn:Hlist; [|done].
  set (st2 := State w2 (server_cache st1) (heap st1)
                (trace st1 ++ [EvListTools conn])).
  intros Hrest.
  destruct (IH _ _ _ _ Hrest)
    as (listings & evs & Ht & Hlisted & Hcached & Hreal & Hlookup).
  destruct (ensure_connected_lists_nothing _ _ _ _ Hconn)
    as (evs1 & Ht1 & Hno1).
  destruct (build_server_lookup_connects_once servers servers _
              ltac:(done) _ _ _ Hrest) as (Hsub & _).
  exists ((conn, ts) :: listings), (evs1 ++ EvListTools conn :: evs).
  split_and!.
  - rewrite Ht. subst st2. simpl. rewrite Ht1. by rewrite <- !app_assoc.
  - rewrite omap_app, Hno1.
    change (omap listed_handle (EvListTools conn :: evs))
      with (conn :: omap listed_handle evs).
    by rewrite Hlisted.
  - constructor; [|done]. simpl.
    eapply lookup_weaken; [|exact Hsub]. subst st2. simpl.
    by eapply ensure_connected_ok.
  - constructor; [|done]. simpl. by exists (world st1), w2.
  - intros n. rewrite Hlookup, filter_cons. simpl.
    rewrite index_tools_lookup.
    destruct (decide (n ∈ t_name <$> ts)) as [Hin|Hnotin].
    + rewrite last_cons.
      by destruct (last (filter _ listings)).
    + done.
Qed.

(** X9. The server lookup of step 3 serves a tool name by the last server
    of [mcp_servers] whose listing holds it (a later server overrides an
    earlier one, where the schema merger keeps the first declaration of a
    name), and by none if no listing holds it.  The connections it maps to
    are the cached ones of the servers, and the listings are those the
    [list_tools] events of the run obtained, in the order of the servers. *)
Theorem server_lookup_last_server_wins (servers : list handle)
  (st st' : state) (server_lookup : gmap string handle) :
  build_server_lookup servers ∅ st = (Ok server_lookup, st') ->
  exists (listings : list (handle * list tool_obj)) (evs : list event),
    trace st' = trace st ++ evs
    /\ omap listed_handle evs = listings.*1
    /\ Forall2 (fun srv lg => server_cache st' !! name srv = Some lg.1)
         servers listings
    /\ Forall (fun lg => exists w w', list_tools lg.1 w = (Ok lg.2, w'))
         listings
    /\ forall n,
         server_lookup !! n
         = (fun lg => lg.1)
           <$> last (filter (fun lg => n ∈ t_name <$> lg.2) listings).
Proof.
  intros H.
  destruct (build_server_lookup_listings _ _ _ _ _ H)
    as (listings & evs & Ht & Hlisted & Hcached & Hreal & Hlookup).
  exists listings, evs. split_and!; [done..|].
  intros n. rewrite Hlookup.
  destruct (last (filter _ listings)); [done|]. by rewrite lookup_empty.
Qed.

(** ** The stages of a call *)

(** Step 4: the options the drivers start with. *)
Definition call_kwargs (kwargs : py_dict pyval) (final_tools : list pyval)
  : py_dict pyval :=
  if tools_truthy (Some final_tools)
     && negb (dict_mem "tool_choice" (_clean_kwargs kwargs))
  then dict_set "tool_choice" (PStr "auto") (_clean_kwargs kwargs)
  else _clean_kwargs kwargs.

(** A call either fails during the setup, having done nothing but connect
    and list, or reaches the driver of its style with the merged tools, the
    server lookup, the provider and the options of step 4. *)
Lemma handle_llm_call_stages (fuel : nat) (model : string)
  (payload : call_style) (mcp_servers : option (list handle))
  (mcp_strict : pyval) (tools : option (list (py_dict pyval)))
  (kwargs : py_dict pyval) (async_mode : bool) (st st' : state)
  (r : res completion) :
  _handle_llm_call fuel model payload mcp_servers mcp_strict tools kwargs
    async_mode st = (r, st') ->
  exists st0 sevs,
    heap st0 = heap st /\ trace st0 = trace st ++ sevs
    /\ Forall setup_event sevs
    /\ ((exists e, r = Raise e /\ st' = st0)
        \/ exists provider api_key server_lookup mcp_schemas final_tools,
             get_llm_provider model = Ok (provider, api_key)
             /\ (default [] mcp_servers = [] -> mcp_schemas = [])
             /\ merge_tools
                  match payload with
                  | ResponsesStyle _ => true
                  | ChatStyle _ => false
                  end (default [] tools) mcp_schemas = Ok final_tools
             /\ (exists sa,
                   build_server_lookup (default [] mcp_servers) ∅ sa
                   = (Ok server_lookup, st0))
             /\ match payload with
                | ChatStyle messages =>
                    exists r0,
                      chat_loop model provider api_key async_mode
                        (default [] tools) server_lookup fuel messages 0
                        (call_kwargs kwargs final_tools) (Some final_tools)
                        st0 = (r0, st')
                      /\ r = match r0 with
                             | Ok resp => Ok (ChatCompletion resp)
                             | Raise e => Raise e
                             end
                | ResponsesStyle input =>
                    exists r0,
                      responses_flow model provider api_key async_mode
                        server_lookup input
                        (call_kwargs kwargs final_tools) final_tools st0
                      = (r0, st')
                      /\ r = match r0 with
                             | Ok resp => Ok (StructuredResponse resp)
                             | Raise e => Raise e
                             end
                end).
Proof.
  unfold _handle_llm_call.
  set (is_responses := match payload with
                       | ResponsesStyle _ => true
                       | ChatStyle _ => false
                       end).
  set (setup1 := match default [] mcp_servers with
                 | [] => ret []
                 | _ :: _ => _prepare_mcp_tools (default [] mcp_servers)
                               mcp_strict
                 end).
  assert (setup_only setup1) as Hs1.
  { subst setup1. destruct (default [] mcp_servers);
      [apply setup_only_ret|apply prepare_mcp_tools_setup_only]. }
  intros H. unfold bind at 1 in H.
  destruct (setup1 st) as [[mcp_schemas|e] sa] eqn:H1;
    destruct (Hs1 _ _ _ H1) as (Hha & evsa & Hta & Hfa);
    [|injection H as <- <-; exists sa, evsa; split_and!; try done;
      left; by eexists].
  unfold bind at 1 in H. unfold lift_res at 1 in H.
  destruct (merge_tools is_responses (default [] tools) mcp_schemas)
    as [final_tools|e] eqn:Hmerge;
    [|injection H as <- <-; exists sa, evsa; split_and!; try done;
      left; by eexists].
  unfold bind at 1 in H.
  destruct (build_server_lookup (default [] mcp_servers) ∅ sa)
    as [[server_lookup|e] sb] eqn:H2;
    destruct (build_server_lookup_setup_only _ _ _ _ _ H2)
      as (Hhb & evsb & Htb & Hfb).
  2:{ injection H as <- <-. exists sb, (evsa ++ evsb). split_and!.
      - congruence.
      - by rewrite Htb, Hta, app_assoc.
      - by apply Forall_app.
      - left. by eexists. }
  assert (heap sb = heap st) as Hh by congruence.
  assert (trace sb = trace st ++ (evsa ++ evsb)) as Ht
    by (by rewrite Htb, Hta, app_assoc).
  assert (Forall setup_event (evsa ++ evsb)) as Hf by (by apply Forall_app).
  unfold bind at 1 in H. unfold lift_res at 1 in H.
  destruct (get_llm_provider model) as [[provider api_key]|e];
    [|injection H as <- <-; exists sb, (evsa ++ evsb); split_and!; try done;
      left; by eexists].
  exists sb, (evsa ++ evsb). split_and!; try done. right.
  exists provider, api_key, server_lookup, mcp_schemas, final_tools.
  split; [done|].
  split. { intros Hnone. subst setup1. rewrite Hnone in H1. by injection H1. }
  split; [exact Hmerge|]. split; [by exists sa|].
  fold (call_kwargs kwargs final_tools) in H.
  destruct payload as [messages|input]; unfold bind in H.
  - destruct (chat_loop _ _ _ _ _ _ _ _ _ _ _ sb) as [[resp|e] sc] eqn:Hl;
      injection H as <- <-; eexists; split; try exact Hl; done.
  - destruct (responses_flow _ _ _ _ _ _ _ _ sb) as [[resp|e] sc] eqn:Hl;
      injection H as <- <-; eexists; split; try exact Hl; done.
Qed.

Lemma setup_events_no_requests (evs : list event) :
  Forall setup_event evs -> omap model_request evs = [].
Proof.
  induction 1 as [|ev evs Hev _ IH]; [done|].
  destruct ev; try done; simpl; by rewrite IH.
Qed.

Lemma setup_events_no_calls (evs : list event) :
  Forall setup_event evs -> chat_calls evs = [] /\ responses_calls evs = [].
Proof.
  induction 1 as [|ev evs Hev _ [IH1 IH2]]; [done|].
  unfold chat_calls, responses_calls in *.
  destruct ev; try done; by rewrite !filter_cons_False by (by intros []).
Qed.

(** X10. Every model request of a call goes where the provider of the
    model says: it names the model of the call, it goes to the original SDK
    method when the provider is [openai] and to the routing layer
    otherwise, in the synchronous or asynchronous variant of the patched
    method, and it carries the API key exactly when it goes to the routing
    layer.  A chat completion makes no structured-response request and a
    structured-response call no chat request. *)
Theorem every_request_follows_the_provider (fuel : nat) (model : string)
  (payload : call_style) (mcp_servers : option (list handle))
  (mcp_strict : pyval) (tools : option (list (py_dict pyval)))
  (kwargs : py_dict pyval) (async_mode : bool) (st st' : state)
  (r : res completion) (provider : string) (api_key : pyval) :
  get_llm_provider model = Ok (provider, api_key) ->
  _handle_llm_call fuel model payload mcp_servers mcp_strict tools kwargs
    async_mode st = (r, st') ->
  exists evs,
    trace st' = trace st ++ evs
    /\ (forall rq,
          rq ∈ omap model_request evs ->
          rq_model rq = model
          /\ rq_endpoint rq
             = (if String.eqb provider "openai"
                then (if async_mode then OrigAsync else OrigSync)
                else (if async_mode then RoutedAsync else RoutedSync))
          /\ rq_api_key rq
             = if String.eqb provider "openai" then None else Some api_key)
    /\ match payload with
       | ChatStyle _ => responses_calls evs = []
       | ResponsesStyle _ => chat_calls evs = []
       end.
Proof.
  intros Hp H.
  destruct (handle_llm_call_stages _ _ _ _ _ _ _ _ _ _ _ H)
    as (st0 & sevs & Hh & Ht & Hf & [(e & -> & ->)|Hrun]).
  { exists sevs. split; [done|].
    rewrite (setup_events_no_requests _ Hf).
    split; [by intros rq ?%elem_of_nil|].
    destruct (setup_events_no_calls _ Hf). by destruct payload. }
  destruct Hrun as (provider' & api_key' & sl & ms & ft & Hp' & _ & _ & _ & Hrun).
  rewrite Hp in Hp'. injection Hp' as <- <-.
  destruct (setup_events_no_calls _ Hf) as [Hnc Hnr].
  assert (Hdrv : forall evs,
            Forall (driver_event provider model api_key async_mode) evs ->
            forall rq, rq ∈ omap model_request (sevs ++ evs) ->
              routed provider model api_key async_mode rq).
  { intros evs Hd rq. rewrite omap_app, (setup_events_no_requests _ Hf).
    simpl. intros (ev & Hev & Hrq)%list_elem_of_omap.
    rewrite Forall_forall in Hd. specialize (Hd _ Hev).
    destruct ev; try done; simpl in Hrq; by injection Hrq as <-. }
  destruct payload as [messages|input]; destruct Hrun as (r0 & Hrun & _).
  - destruct (chat_loop_driver_events _ _ _ _ _ _ _ _ _ _ _ _ _ _ Hrun)
      as (_ & evs & Ht' & Hd & Hno).
    exists (sevs ++ evs). split_and!.
    + by rewrite Ht', Ht, app_assoc.
    + intros rq Hrq. by apply (Hdrv evs Hd).
    + unfold responses_calls in *. by rewrite filter_app, Hnr, Hno.
  - destruct (responses_flow_driver_events _ _ _ _ _ _ _ _ _ _ _ Hrun)
      as (_ & evs & Ht' & Hd & Hno).
    exists (sevs ++ evs). split_and!.
    + by rewrite Ht', Ht, app_assoc.
    + intros rq Hrq. by apply (Hdrv evs Hd).
    + unfold chat_calls in *. by rewrite filter_app, Hnc, Hno.
Qed.

(** ** Failing before the first model call *)

Lemma dedupe_raises (combined : list (py_dict pyval)) (s : py_dict pyval) :
  s ∈ combined -> is_ok (_normalize_schema s) = false ->
  forall deduped, is_ok (dedupe deduped combined) = false.
Proof.
  intros Hin Hs. induction combined as [|x rest IH]; intros deduped.
  { by apply elem_of_nil in Hin. }
  simpl. destruct (dedupe_step deduped x) as [d|e] eqn:Hstep; [|done].
  simpl. apply elem_of_cons in Hin as [->|Hin]; [|by apply IH].
  unfold dedupe_step in Hstep.
  by destruct (_normalize_schema x).
Qed.

Lemma merge_tools_raises (is_responses : bool)
  (explicit mcp_schemas : list (py_dict pyval)) (s : py_dict pyval) :
  s ∈ explicit -> is_ok (_normalize_schema s) = false ->
  is_ok (merge_tools is_responses explicit mcp_schemas) = false.
Proof.
  intros Hin Hs. unfold merge_tools.
  pose proof (dedupe_raises (combine explicit mcp_schemas) s
                ltac:(unfold combine; apply elem_of_app; by left) Hs [])
    as Hd.
  by destruct (dedupe [] (combine explicit mcp_schemas)).
Qed.

(** X11. A call that cannot be set up fails before anything is asked of
    the model.  If the provider of the model cannot be resolved, or one of
    the caller's declarations does not normalize (its [function] entry is
    not a dict), the call raises; by then it has connected and listed
    servers at most: no model request was made, no tool was run, and no
    message list was touched. *)
Theorem setup_failure_makes_no_model_call (fuel : nat) (model : string)
  (payload : call_style) (mcp_servers : option (list handle))
  (mcp_strict : pyval) (tools : option (list (py_dict pyval)))
  (kwargs : py_dict pyval) (async_mode : bool) (st st' : state)
  (r : res completion) :
  is_ok (get_llm_provider model) = false
  \/ (exists s, s ∈ default [] tools /\ is_ok (_normalize_schema s) = false) ->
  _handle_llm_call fuel model payload mcp_servers mcp_strict tools kwargs
    async_mode st = (r, st') ->
  exists e evs,
    r = Raise e
    /\ trace st' = trace st ++ evs
    /\ Forall setup_event evs
    /\ omap model_request evs = []
    /\ heap st' = heap st.
Proof.
  intros Hbad H.
  destruct (handle_llm_call_stages _ _ _ _ _ _ _ _ _ _ _ H)
    as (st0 & sevs & Hh & Ht & Hf & [(e & -> & ->)|Hrun]).
  { exists e, sevs. split_and!; try done.
    by apply setup_events_no_requests. }
  destruct Hrun as (provider & api_key & sl & ms & ft & Hp & _ & Hm & _ & _).
  destruct Hbad as [Hbad|(s & Hin & Hs)].
  - by rewrite Hp in Hbad.
  - pose proof (merge_tools_raises
                  match payload with
                  | ResponsesStyle _ => true
                  | ChatStyle _ => false
                  end _ ms s Hin Hs) as Hr.
    by rewrite Hm in Hr.
Qed.

Lemma normalize_schema_not_a_dict (schema : py_dict pyval) (v : pyval) :
  dict_lookup "function" schema = Some v ->
  (forall fn, v <> PDict fn) ->
  exists e, _normalize_schema schema = Raise e
            /\ exn_class e = "AttributeError".
Proof.
  intros Hs Hv. unfold _normalize_schema, dict_mem, py_get. rewrite Hs. simpl.
  destruct v as [|s|l|fn]; [by eexists..|]. by destruct (Hv fn).
Qed.

(** ** The options of the first request *)

Lemma dict_lookup_set {V} (k : string) (v : V) (d : py_dict V) :
  dict_lookup k (dict_set k v d) = Some v.
Proof.
  induction d as [|[k0 v0] d IH]; simpl; [by rewrite String.eqb_refl|].
  destruct (String.eqb k k0) eqn:E; simpl; by rewrite E.
Qed.

Lemma dict_lookup_set_ne {V} (k k' : string) (v : V) (d : py_dict V) :
  k <> k' -> dict_lookup k (dict_set k' v d) = dict_lookup k d.
Proof.
  intros Hne. induction d as [|[k0 v0] d IH]; simpl.
  { by apply String.eqb_neq in Hne as ->. }
  destruct (String.eqb k' k0) eqn:E'; simpl; [|by rewrite IH].
  apply String.eqb_eq in E' as <-. by apply String.eqb_neq in Hne as ->.
Qed.

Lemma call_kwargs_lookup (kwargs : py_dict pyval) (final_tools : list pyval) :
  NoDup kwargs.*1 ->
  forall k,
    dict_lookup k (call_kwargs kwargs final_tools)
    = if bool_decide (k = "mcp_servers" \/ k = "mcp_strict") then None
      else if bool_decide (k = "tool_choice") then
        match dict_lookup "tool_choice" kwargs with
        | Some v => Some v
        | None => match final_tools with
                  | [] => None
                  | _ :: _ => Some (PStr "auto")
                  end
        end
      else dict_lookup k kwargs.
Proof.
  intros Hnd k.
  assert (Hclean : forall k',
            dict_lookup k' (_clean_kwargs kwargs)
            = if bool_decide (k' = "mcp_servers" \/ k' = "mcp_strict")
              then None else dict_lookup k' kwargs).
  { intros k'. unfold _clean_kwargs. case_bool_decide as Hk.
    - destruct Hk as [->| ->].
      + rewrite dict_lookup_pop_ne by done. by apply dict_lookup_pop.
      + by apply dict_lookup_pop, dict_pop_NoDup.
    - rewrite !dict_lookup_pop_ne; [done|intros ->; tauto..]. }
  unfold call_kwargs, dict_mem. rewrite (Hclean "tool_choice"). simpl.
  destruct (dict_lookup "tool_choice" kwargs) as [v|] eqn:Hc; simpl.
  - rewrite andb_false_r, Hclean.
    repeat case_bool_decide; subst; try done.
  - destruct final_tools as [|t ft]; simpl.
    + rewrite Hclean. repeat case_bool_decide; subst; try done.
    + destruct (decide (k = "tool_choice")) as [->|Hne].
      * by rewrite dict_lookup_set.
      * rewrite dict_lookup_set_ne, Hclean by done.
        by rewrite (bool_decide_eq_false_2 (k = "tool_choice")).
Qed.

(** X12. What the first model request of a call carries.  Its history is
    the caller's message list (or input) as it is.  A chat completion sends
    the merged tools (merged from the caller's declarations, the schemas
    the servers advertise, none without servers, and the registry) if there
    are any and no [tools] otherwise; a structured-response call always
    sends the merged list, empty or not.
    [tool_choice] is the caller's if given, else [auto] when there are
    merged tools, else absent.  [mcp_servers] and [mcp_strict] are never
    passed on, and every other option is passed on as given. *)
Theorem first_request_options (fuel : nat) (model : string)
  (payload : call_style) (mcp_servers : option (list handle))
  (mcp_strict : pyval) (tools : option (list (py_dict pyval)))
  (kwargs : py_dict pyval) (async_mode : bool) (st st' : state)
  (r : res completion) :
  NoDup kwargs.*1 ->
  _handle_llm_call fuel model payload mcp_servers mcp_strict tools kwargs
    async_mode st = (r, st') ->
  exists evs,
    trace st' = trace st ++ evs
    /\ forall rq,
         head (omap model_request evs) = Some rq ->
         exists mcp_schemas final_tools,
           merge_tools
             match payload with
             | ResponsesStyle _ => true
             | ChatStyle _ => false
             end (default [] tools) mcp_schemas = Ok final_tools
           /\ (default [] mcp_servers = [] -> mcp_schemas = [])
           /\ rq_history rq
              = match payload with
                | ChatStyle messages => contents st messages
                | ResponsesStyle input => initial_input input st
                end
           /\ rq_tools rq
              = match payload, final_tools with
                | ChatStyle _, [] => None
                | _, _ => Some (PList final_tools)
                end
           /\ forall k,
                dict_lookup k (rq_kwargs rq)
                = if bool_decide (k = "mcp_servers" \/ k = "mcp_strict")
                  then None
                  else if bool_decide (k = "tool_choice") then
                    match dict_lookup "tool_choice" kwargs with
                    | Some v => Some v
                    | None => match final_tools with
                              | [] => None
                              | _ :: _ => Some (PStr "auto")
                              end
                    end
                  else dict_lookup k kwargs.
Proof.
  intros Hnd H.
  destruct (handle_llm_call_stages _ _ _ _ _ _ _ _ _ _ _ H)
    as (st0 & sevs & Hh & Ht & Hf & [(e & -> & ->)|Hrun]).
  { exists sevs. split; [done|].
    by rewrite (setup_events_no_requests _ Hf). }
  destruct Hrun as (provider & api_key & sl & ms & ft & Hp & Hms & Hm & _ & Hrun).
  pose proof (call_kwargs_lookup kwargs ft Hnd) as Hkw.
  destruct payload as [messages|input]; destruct Hrun as (r0 & Hrun & _).
  - destruct fuel as [|fuel].
    { injection Hrun as <- <-. exists sevs. split; [done|].
      by rewrite (setup_events_no_requests _ Hf). }
    destruct (chat_loop_first_request _ _ _ _ _ _ _ _ _ _ _ _ _ _ Hrun)
      as (resp & evs & Ht').
    eexists (sevs ++ _ :: evs). split.
    { by rewrite Ht', Ht, <- app_assoc. }
    rewrite omap_app, (setup_events_no_requests _ Hf).
    intros rq [= <-]. exists ms, ft. split_and!; [done|done| | |exact Hkw].
    + simpl. unfold contents. by rewrite Hh.
    + simpl. destruct ft as [|t ft]; [done|]. simpl.
      unfold dict_mem. rewrite (Hkw "tool_choice"). simpl.
      by destruct (dict_lookup "tool_choice" kwargs).
  - destruct (responses_flow_first_request _ _ _ _ _ _ _ _ _ _ _ Hrun)
      as (resp & evs & Ht').
    eexists (sevs ++ _ :: evs). split.
    { by rewrite Ht', Ht, <- app_assoc. }
    rewrite omap_app, (setup_events_no_requests _ Hf).
    intros rq [= <-]. exists ms, ft. split_and!; [done|done| | |exact Hkw].
    + simpl. destruct input; [|done]. simpl. unfold contents. by rewrite Hh.
    + simpl. by destruct ft.
Qed.

(** ** The cache across calls *)

Lemma handle_llm_call_caches_servers (fuel : nat) (model : string)
  (payload : call_style) (mcp_servers : option (list handle))
  (mcp_strict : pyval) (tools : option (list (py_dict pyval)))
  (kwargs : py_dict pyval) (async_mode : bool) (st st' : state)
  (c : completion) :
  _handle_llm_call fuel model payload mcp_servers mcp_strict tools kwargs
    async_mode st = (Ok c, st') ->
  forall s, s ∈ default [] mcp_servers ->
    is_Some (server_cache st' !! name s).
Proof.
  intros H s Hs.
  destruct (handle_llm_call_stages _ _ _ _ _ _ _ _ _ _ _ H)
    as (st0 & sevs & _ & _ & _ & [(e & [=] & _)|Hrun]).
  destruct Hrun as (provider & api_key & sl & ms & ft & _ & _ & _ & [sa Hsl]
                    & Hrun).
  destruct (build_server_lookup_listings _ _ _ _ _ Hsl)
    as (listings & _ & _ & _ & Hcached & _).
  assert (is_Some (server_cache st0 !! name s)) as Hsome.
  { apply list_elem_of_lookup in Hs as [i Hi].
    destruct (Forall2_lookup_l _ _ _ _ _ Hcached Hi) as (lg & _ & Hlg).
    by eexists. }
  destruct payload as [messages|input]; destruct Hrun as (r0 & Hrun & _).
  - destruct (chat_loop_driver_events _ _ _ _ _ _ _ _ _ _ _ _ _ _ Hrun)
      as (-> & _). done.
  - destruct (responses_flow_driver_events _ _ _ _ _ _ _ _ _ _ _ Hrun)
      as (-> & _). done.
Qed.

(** X13. Connections are made once for the client, not once for each call.
    After a call that returned, a further call on the same cache, of either
    style and with whatever other arguments, whose servers bear names of
    servers of the first call, connects nothing, and leaves the cache as it
    is. *)
Theorem later_calls_reuse_connections
  (fuel1 fuel2 : nat) (model1 model2 : string) (payload1 payload2 : call_style)
  (servers1 servers2 : option (list handle)) (strict1 strict2 : pyval)
  (tools1 tools2 : option (list (py_dict pyval)))
  (kwargs1 kwargs2 : py_dict pyval) (async1 async2 : bool)
  (st st1 st2 : state) (c : completion) (r : res completion) :
  _handle_llm_call fuel1 model1 payload1 servers1 strict1 tools1 kwargs1
    async1 st = (Ok c, st1) ->
  (forall s, s ∈ default [] servers2 ->
     exists s', s' ∈ default [] servers1 /\ name s' = name s) ->
  _handle_llm_call fuel2 model2 payload2 servers2 strict2 tools2 kwargs2
    async2 st1 = (r, st2) ->
  exists evs,
    trace st2 = trace st1 ++ evs
    /\ omap connected_handle evs = []
    /\ server_cache st2 = server_cache st1.
Proof.
  intros H1 Hnames H2.
  pose proof (handle_llm_call_caches_servers _ _ _ _ _ _ _ _ _ _ _ H1)
    as Hcached.
  destruct (handle_llm_call_connects_once _ _ _ _ _ _ _ _ _ _ _ H2)
    as (Hsub & evs & Ht & _ & Hnew & _ & Hsame).
  assert (omap connected_handle evs = []) as Hno.
  { destruct (omap connected_handle evs) as [|s l]; [done|].
    apply Forall_cons in Hnew as [[Hin Hnone] _].
    destruct (Hnames s Hin) as (s' & Hin' & Heq).
    destruct (Hcached s' Hin') as [h Hh]. rewrite Heq in Hh. congruence. }
  exists evs. split_and!; [done..|by apply Hsame].
Qed.

End Orchestrator.

(** * A concrete environment

    One tool server named [files] with the tools [read], [bare] (whose
    reply has no [content] field) and [boom] (which raises), one registered
    callable [add], and model backends that request a given tool.  The
    outside world is a journal of the tools in the order they ran. *)

Definition journal : Type := list string.

Definition quote_with (q : Ascii.ascii) (s : string) : string :=
  String q (s +:+ String q EmptyString).

Fixpoint join (sep : string) (l : list string) : string :=
  match l with
  | [] => ""
  | [x] => x
  | x :: rest => x +:+ sep +:+ join sep rest
  end.

(** [repr] and [json.dumps], exact on values whose strings have no quote,
    backslash or control character. *)
Fixpoint demo_repr (v : pyval) : string :=
  match v with
  | PNone => "None"
  | PStr s => quote_with (Ascii.ascii_of_nat 39) s
  | PList l => "[" +:+ join ", " (List.map demo_repr l) +:+ "]"
  | PDict d =>
      "{" +:+ join ", "
                (List.map (fun p => quote_with (Ascii.ascii_of_nat 39) (fst p)
                                    +:+ ": " +:+ demo_repr (snd p)) d)
          +:+ "}"
  end.

Fixpoint demo_dumps (v : pyval) : string :=
  match v with
  | PNone => "null"
  | PStr s => quote_with (Ascii.ascii_of_nat 34) s
  | PList l => "[" +:+ join ", " (List.map demo_dumps l) +:+ "]"
  | PDict d =>
      "{" +:+ join ", "
                (List.map (fun p => quote_with (Ascii.ascii_of_nat 34) (fst p)
                                    +:+ ": " +:+ demo_dumps (snd p)) d)
          +:+ "}"
  end.

(** [json.loads] on the two argument strings the examples use. *)
Definition demo_loads (s : string) : res pyval :=
  if String.eqb s "{}" then Ok (PDict [])
  else Raise (Exn "JSONDecodeError" "Expecting value").

Definition demo_connect (server : handle) (w : journal)
  : res unit * journal := (Ok tt, w).

Definition object_schema : pyval := PDict [("type", PStr "object")].

Definition demo_tools : list tool_obj :=
  [ToolObj "read" (PStr "Read a file") object_schema;
   ToolObj "bare" (PStr "Reply without content") object_schema;
   ToolObj "boom" (PStr "Always fails") object_schema].

Definition demo_list_tools (server : handle) (w : journal)
  : res (list tool_obj) * journal := (Ok demo_tools, w).

Definition demo_all_tools (servers : list handle) (strict : pyval)
  (w : journal) : res (list tool_obj) * journal := (Ok demo_tools, w).

Definition bare_reply : py_dict pyval := [("isError", PNone)].

Definition demo_call_tool (server : handle) (fn_name : string)
  (fn_args : pyval) (w : journal) : res (py_dict pyval) * journal :=
  if String.eqb fn_name "boom" then
    (Raise (Exn "RuntimeError" "kaput"), w ++ ["boom"])
  else if String.eqb fn_name "bare" then (Ok bare_reply, w ++ ["bare"])
  else (Ok [("content", PList [PStr fn_name; fn_args])], w ++ [fn_name]).

Definition demo_schemas : py_dict (py_dict pyval) :=
  [("add", [("name", PStr "add"); ("description", PStr "registry add");
            ("parameters", object_schema)])].

Definition demo_functions
  : gmap string (pyval -> journal -> res pyval * journal) :=
  {[ "add" := fun a w => (Ok a, w ++ ["add"]) ]}.

Definition demo_provider (model : string) : res (string * pyval) :=
  Ok ("openai", PNone).

Definition files : handle := Handle "files" 1.

Definition demo_lookup : gmap string handle :=
  <["read" := files]> (<["bare" := files]> (<["boom" := files]> ∅)).

(** The later a request stands in its batch, the sooner it completes. *)
Definition reversed (w : journal) (i : nat) : nat := 10 - i.

(** A chat backend that requests the given calls in every response. *)
Definition always_requests (calls : list tool_call) (rq : request)
  (w : journal) : chat_response * journal :=
  (ChatResponse calls (PStr "assistant turn"), w).

(** A chat backend that requests the given calls once, on the caller's
    one-message history, and answers in text afterwards. *)
Definition requests_once (calls : list tool_call) (rq : request)
  (w : journal) : chat_response * journal :=
  if length (rq_history rq) =? 1
  then (ChatResponse calls (PStr "assistant turn"), w)
  else (ChatResponse [] (PStr "final answer"), w).

(** A structured-response backend whose every response, the follow-up
    included, requests the given calls. *)
Definition always_calls (calls : list tool_call) (rq : request)
  (w : journal) : response * journal :=
  (Response (match rq_previous_response_id rq with
             | None => PStr "resp_1"
             | Some _ => PStr "resp_2"
             end)
            (OtherItem (PStr "reasoning") :: (FunctionCall <$> calls))
            PNone, w).

Definition request_of (fn_name args : string) : tool_call :=
  ToolCall (Some (PStr ("id_" +:+ fn_name))) (Some (PStr ("fc_" +:+ fn_name)))
           fn_name (ArgStr args).

(** The caller's message list at location 1, nothing connected yet. *)
Definition start : @state journal :=
  State [] ∅ {[ 1%positive := [Given (PStr "hello")] ]} [].

Definition demo_chat_loop (backend : request -> journal -> chat_response * journal)
  (explicit : list (py_dict pyval)) (fuel : nat) : M (option chat_response) :=
  chat_loop demo_call_tool demo_schemas demo_functions backend demo_loads
    demo_repr exn_arg reversed "gpt" "openai" PNone false explicit demo_lookup
    fuel 1%positive 0 [] None.

Definition demo_responses_flow
  (backend : request -> journal -> response * journal) : M response :=
  responses_flow demo_call_tool demo_functions backend demo_loads demo_dumps
    demo_repr reversed "gpt" "openai" PNone false demo_lookup
    (PayloadList 1%positive) [] [].

Definition demo_handle (chat : request -> journal -> chat_response * journal)
  (responses : request -> journal -> response * journal)
  (payload : call_style) (tools : option (list (py_dict pyval)))
  : M completion :=
  _handle_llm_call demo_connect demo_list_tools demo_call_tool demo_all_tools
    demo_schemas demo_functions chat responses demo_provider demo_loads
    demo_dumps demo_repr exn_arg reversed 20 "gpt" payload (Some [files])
    PNone tools [] false.

(** The caller's declarations of the examples: [add] in the flat shape
    with the caller's own description, [search] in the nested shape, and
    one declaration without a name. *)
Definition caller_tools : list (py_dict pyval) :=
  [[("name", PStr "add"); ("description", PStr "caller add");
    ("parameters", object_schema)];
   [("type", PStr "function");
    ("function", PDict [("name", PStr "search");
                        ("description", PStr "caller search")])];
   [("description", PStr "nameless")]].

Definition advertised : list (py_dict pyval) :=
  [[("name", PStr "read"); ("description", PStr "Read a file");
    ("parameters", object_schema)]].

(** ** The properties on the concrete environment *)

Example merge_tools_demo :
  merge_tools demo_schemas false caller_tools advertised
  = Ok [PDict [("type", PStr "function");
               ("function", PDict [("name", PStr "add");
                                   ("description", PStr "caller add");
                                   ("parameters", object_schema)])];
        PDict [("type", PStr "function");
               ("function", PDict [("name", PStr "search");
                                   ("description", PStr "caller search");
                                   ("parameters", PNone)])];
        PDict [("type", PStr "function");
               ("function", PDict [("name", PStr "read");
                                   ("description", PStr "Read a file");
                                   ("parameters", object_schema)])]].
Proof. reflexivity. Qed.

Lemma merge_tools_first_wins_witness :
  exists merged,
    merge_tools demo_schemas false caller_tools advertised = Ok merged
    /\ NoDup (tool_name false <$> merged)
    /\ (forall t, t ∈ merged ->
          exists n, tool_name false t = PStr n /\ n <> "")
    /\ (forall n,
          match List.find (declares n)
                  (caller_tools ++ advertised ++ demo_schemas.*2) with
          | Some s =>
              exists t, t ∈ merged
                        /\ tool_name false t = PStr n
                        /\ tool_description false t = declared_description s
          | None => forall t, t ∈ merged -> tool_name false t <> PStr n
          end)
    /\ (forall n s t,
          List.find (declares n) caller_tools = Some s ->
          t ∈ merged -> tool_name false t = PStr n ->
          tool_description false t = declared_description s).
Proof.
  apply (merge_tools_first_wins demo_schemas false caller_tools advertised).
  repeat (constructor; [reflexivity|]). constructor.
Defined.

(** A state in which [files] is already connected. *)
Definition connected : @state journal :=
  State [] {[ "files" := files ]}
        {[ 1%positive := [Given (PStr "hello")] ]} [].

Lemma ensure_connected_idempotent_witness :
  _ensure_connected demo_connect (Handle "files" 2) connected
  = (Ok files, connected)
  /\
  (let servers := [Handle "files" 1; Handle "files" 2; Handle "files" 3] in
   exists h st' evs,
     successive_calls demo_connect servers start
     = (replicate (length servers) (Ok h), st')
     /\ trace st' = trace start ++ evs
     /\ length (connects evs) <= 1
     /\ server_cache st' !! "files" = Some h
     /\ server_cache st' = <["files" := h]> (server_cache start)
     /\ (server_cache start !! "files" = Some h /\ evs = [] /\ st' = start
         \/ server_cache start !! "files" = None /\ head servers = Some h
            /\ evs = [EvConnect h])).
Proof.
  split.
  - apply (proj1 (ensure_connected_idempotent demo_connect)
             (Handle "files" 2) files connected).
    reflexivity.
  - intros servers.
    apply (proj2 (ensure_connected_idempotent demo_connect) servers "files"
             start).
    + repeat (constructor; [reflexivity|]). constructor.
    + discriminate.
    + intros s w _. reflexivity.
Defined.

(** A server that refuses the connection. *)
Definition refusing_connect (server : handle) (w : journal)
  : res unit * journal :=
  (Raise (Exn "ConnectionError" "refused"), w ++ ["connect " +:+ name server]).

(** C5 as stated fails: two calls with the same server name perform the
    connect twice, and the cache does not map the name afterwards, because
    a connect that raises caches nothing. *)
Lemma refused_connect_is_repeated :
  let run := successive_calls refusing_connect [files; files] start in
  run.1 = [Raise (Exn "ConnectionError" "refused");
           Raise (Exn "ConnectionError" "refused")]
  /\ connects (trace run.2) = [EvConnect files; EvConnect files]
  /\ length (connects (trace run.2)) = 2
  /\ world run.2 = ["connect files"; "connect files"]
  /\ server_cache run.2 !! "files" = None.
Proof. vm_compute. by split_and!. Qed.

(** C1 on the concrete environment: the remote call of [boom] raises.  The
    chat dispatcher turns the exception into an error text and the chat
    loop goes on to a second model call; [_execute_tool] lets the same
    exception through, and the structured-response driver ends with it
    after its first backend call. *)
Theorem remote_failure_contained_in_chat_path_only :
  (_process_tool_call demo_call_tool demo_functions demo_repr exn_arg
     (request_of "boom" "{}") "boom" (PDict []) demo_lookup "openai" false
     start).1
  = Ok (PartList [AssistantToolCalls [request_of "boom" "{}"];
                  ToolMessage "boom" "Error calling MCP tool boom: kaput"
                    (PStr "id_boom")])
  /\ (_execute_tool demo_call_tool demo_functions "boom" (PDict [])
        demo_lookup start).1
     = Raise (Exn "RuntimeError" "kaput")
  /\ (let run := demo_chat_loop (requests_once [request_of "boom" "{}"]) []
                   20 start in
      run.1 = Ok (Some (ChatResponse [] (PStr "final answer")))
      /\ length (chat_calls (trace run.2)) = 2)
  /\ (let run := demo_responses_flow (always_calls [request_of "boom" "{}"])
                   start in
      run.1 = Raise (Exn "RuntimeError" "kaput")
      /\ length (responses_calls (trace run.2)) = 1).
Proof. vm_compute. by split_and!. Qed.

(** C9 on the concrete environment: [ghost] is neither a server tool nor a
    registered callable.  Both drivers end with an exception, but only the
    chat dispatcher signals that the tool is not registered;
    [_execute_tool] calls the missing callable and fails with a
    [TypeError]. *)
Theorem unregistered_tool_lookup_failure_in_chat_path_only :
  (_process_tool_call demo_call_tool demo_functions demo_repr exn_arg
     (request_of "ghost" "{}") "ghost" (PDict []) demo_lookup "openai" false
     start).1
  = Raise (Exn "KeyError" "Tool 'ghost' not registered")
  /\ (_execute_tool demo_call_tool demo_functions "ghost" (PDict [])
        demo_lookup start).1
     = Raise (Exn "TypeError" "'NoneType' object is not callable")
  /\ (demo_chat_loop (always_requests [request_of "ghost" "{}"]) [] 20
        start).1
     = Raise (Exn "KeyError" "Tool 'ghost' not registered")
  /\ (demo_responses_flow (always_calls [request_of "ghost" "{}"]) start).1
     = Raise (Exn "TypeError" "'NoneType' object is not callable").
Proof. vm_compute. by split_and!. Qed.

(** C3 as stated fails: this model requests a tool call in every response,
    yet the loop returns after one model call and without the warning,
    because the tool is one the caller declared for itself. *)
Lemma caller_only_tool_ends_loop_at_first_round :
  let backend := always_requests [request_of "lookup" "{}"] in
  let run := demo_chat_loop backend [[("name", PStr "lookup")]] 20 start in
  (forall rq w, cr_tool_calls (backend rq w).1 <> [])
  /\ run.1 = Ok (Some (ChatResponse [request_of "lookup" "{}"]
                         (PStr "assistant turn")))
  /\ length (chat_calls (trace run.2)) = 1
  /\ last (trace run.2) <> Some max_loops_warning.
Proof. vm_compute. by split_and!. Qed.

Lemma chat_loop_stops_at_cap_witness :
  (exists rq resp st' evs,
     chat_loop demo_call_tool demo_schemas demo_functions
       (always_requests [request_of "add" "{}"]) demo_loads demo_repr exn_arg
       reversed "gpt" "openai" PNone false [] demo_lookup 20 1%positive 0 []
       None start
     = (Ok (Some resp), st')
     /\ trace st' = trace start ++ evs
     /\ length (chat_calls evs) = 20
     /\ last (chat_calls evs) = Some (EvChatCall rq resp)
     /\ last evs = Some max_loops_warning)
  /\
  (let rq := chat_request "gpt" "openai" PNone false
               (contents start 1%positive) [] None in
   let resp := (always_requests [] rq (world start)).1 in
   exists st',
     chat_loop demo_call_tool demo_schemas demo_functions
       (always_requests []) demo_loads demo_repr exn_arg reversed "gpt"
       "openai" PNone false [] demo_lookup 1 1%positive 0 [] None start
     = (Ok (Some resp), st')
     /\ heap st' = heap start
     /\ chat_calls (trace st')
        = chat_calls (trace start) ++ [EvChatCall rq resp]).
Proof.
  split.
  - apply (proj1 (chat_loop_stops_at_cap demo_call_tool demo_schemas
                    demo_functions (always_requests [request_of "add" "{}"])
                    demo_loads demo_repr exn_arg reversed "openai" []
                    demo_lookup "gpt" PNone false 1%positive) []).
    + reflexivity.
    + intros rq w. split; [discriminate|]. split.
      * repeat constructor.
      * constructor; [|constructor]. right.
        exists (fun a w => (Ok a, w ++ ["add"])). split; reflexivity.
    + apply le_n.
  - apply (proj2 (chat_loop_stops_at_cap demo_call_tool demo_schemas
                    demo_functions (always_requests []) demo_loads demo_repr
                    exn_arg reversed "openai" [] demo_lookup "gpt" PNone
                    false 1%positive) 0 0 [] None start).
    reflexivity.
Defined.


(** The same driver when the dispatch completes: two backend calls, the
    second names the first response, and the follow-up response is returned
    although it requests functions again. *)
Example follow_up_not_scanned :
  let calls := [request_of "read" "{}"; request_of "add" "{}"] in
  let run := demo_responses_flow (always_calls calls) start in
  run.1 = Ok (Response (PStr "resp_2")
                (OtherItem (PStr "reasoning") :: (FunctionCall <$> calls))
                PNone)
  /\ length (responses_calls (trace run.2)) = 2
  /\ contents run.2 1%positive = [Given (PStr "hello")].
Proof. vm_compute. by split_and!. Qed.

(** The arguments of a request are parsed before the guard is tested: a
    request of a tool the caller declared for itself, with arguments that
    do not parse, ends the call with the failure of the parser. *)
Example caller_only_tool_unparsable_arguments_raise :
  let explicit := [[("name", PStr "lookup")]] in
  let run := demo_chat_loop
               (always_requests [request_of "lookup" "not json"]) explicit 20
               start in
  explicit_names explicit = Ok [PStr "lookup"]
  /\ caller_only demo_schemas demo_lookup [PStr "lookup"] "lookup" = true
  /\ run.1 = Raise (Exn "JSONDecodeError" "Expecting value").
Proof. vm_compute. by split_and!. Qed.

(** The guard firing on a flat declaration. *)
Example caller_only_request_returns_response_demo :
  let backend := always_requests [request_of "lookup" "{}"] in
  let rq := chat_request "gpt" "openai" PNone false (contents start 1%positive)
              [] None in
  let resp := (backend rq (world start)).1 in
  exists st' evs,
    chat_loop demo_call_tool demo_schemas demo_functions backend demo_loads
      demo_repr exn_arg reversed "gpt" "openai" PNone false
      [[("name", PStr "lookup")]] demo_lookup 1 1%positive 0 [] None start
    = (Ok (Some resp), st')
    /\ heap st' = heap start
    /\ trace st' = trace start ++ EvChatCall rq resp :: evs
    /\ (evs = [] \/ evs = [max_loops_warning]).
Proof.
  apply (caller_only_request_returns_response demo_call_tool demo_schemas
           demo_functions (always_requests [request_of "lookup" "{}"])
           demo_loads demo_repr exn_arg reversed "openai"
           [[("name", PStr "lookup")]] demo_lookup "gpt" PNone false 0
           1%positive 0 [] None start [PStr "lookup"] []
           [] (request_of "lookup" "{}"));
    try reflexivity.
  repeat constructor.
Qed.

(** Three requests whose dispatches complete in reverse order: the journal
    of the world shows [boom] running first and [read] last, the messages
    follow the requests. *)
Example reverse_completion_request_order :
  let calls := [request_of "read" "{}"; request_of "add" "{}";
                request_of "boom" "{}"] in
  let run := dispatch_round demo_call_tool demo_schemas demo_functions
               demo_loads demo_repr exn_arg reversed "openai" [] demo_lookup
               1%positive calls start in
  completion_order reversed (world start) 3 = [2; 1; 0]
  /\ world run.2 = ["boom"; "add"; "read"]
  /\ contents run.2 1%positive
     = [Given (PStr "hello");
        AssistantToolCalls [request_of "read" "{}"];
        ToolMessage "read" "['read', {}]" (PStr "id_read");
        AssistantToolCalls [request_of "add" "{}"];
        ToolMessage "add" "{}" (PStr "id_add");
        AssistantToolCalls [request_of "boom" "{}"];
        ToolMessage "boom" "Error calling MCP tool boom: kaput"
          (PStr "id_boom")].
Proof. vm_compute. by split_and!. Qed.

Lemma results_appended_in_request_order_witness :
  (let calls := [request_of "read" "{}"; request_of "add" "{}";
                 request_of "boom" "{}"] in
   let run := dispatch_round demo_call_tool demo_schemas demo_functions
                demo_loads demo_repr exn_arg reversed "openai" [] demo_lookup
                1%positive calls start in
   exists args finished st1 texts,
     parse_all demo_loads calls = Ok args
     /\ run_in_order
          (zip_with (chat_task demo_call_tool demo_functions demo_repr
                       exn_arg "openai" demo_lookup) calls args)
          (completion_order reversed (world start) (length calls)) start
        = (Ok finished, st1)
     /\ finished.*1 = completion_order reversed (world start) (length calls)
     /\ length texts = length calls
     /\ (forall i call text,
           calls !! i = Some call -> texts !! i = Some text ->
           completed i finished
           = Some (PartList [AssistantToolCalls [call];
                             ToolMessage (tc_name call) text
                               (default PNone (id call))]))
     /\ contents run.2 1%positive
        = contents start 1%positive
          ++ concat (zip_with
                       (fun call text =>
                          [AssistantToolCalls [call];
                           ToolMessage (tc_name call) text
                             (default PNone (id call))])
                       calls texts))
  /\
  (let run := dispatch_round demo_call_tool demo_schemas demo_functions
                demo_loads demo_repr exn_arg reversed "openai" [] demo_lookup
                1%positive [request_of "read" "{}"; request_of "ghost" "{}"]
                start in
   heap run.2 = heap start)
  /\
  (let calls := [request_of "read" "{}"; request_of "add" "{}"] in
   let run := dispatch_outputs demo_call_tool demo_functions demo_loads
                demo_dumps reversed demo_lookup 1%positive calls start in
   exists args finished st1 results,
     parse_all demo_loads calls = Ok args
     /\ run_in_order
          (zip_with (fun call a =>
                       _execute_tool demo_call_tool demo_functions
                         (tc_name call) a demo_lookup) calls args)
          (completion_order reversed (world start) (length calls)) start
        = (Ok finished, st1)
     /\ finished.*1 = completion_order reversed (world start) (length calls)
     /\ length results = length calls
     /\ (forall i, results !! i = completed i finished)
     /\ Forall (fun c => is_Some (call_id c)) calls
     /\ contents run.2 1%positive
        = contents start 1%positive
          ++ zip_with (fun call result =>
                         FunctionCallOutput (default PNone (call_id call))
                           (output_text demo_dumps result))
                      calls results).
Proof.
  split_and!.
  - intros calls run.
    apply (proj1 (results_appended_in_request_order demo_call_tool
                    demo_schemas demo_functions demo_loads demo_dumps
                    demo_repr exn_arg reversed "openai" [] demo_lookup)
             1%positive calls start run.2).
    vm_compute. reflexivity.
  - intros run.
    apply (proj1 (proj2 (results_appended_in_request_order demo_call_tool
                           demo_schemas demo_functions demo_loads demo_dumps
                           demo_repr exn_arg reversed "openai" []
                           demo_lookup))
             1%positive [request_of "read" "{}"; request_of "ghost" "{}"]
             start run.2 run.1).
    + vm_compute. reflexivity.
    + vm_compute. discriminate.
  - intros calls run.
    apply (proj2 (proj2 (results_appended_in_request_order demo_call_tool
                           demo_schemas demo_functions demo_loads demo_dumps
                           demo_repr exn_arg reversed "openai" []
                           demo_lookup))
             1%positive calls start run.2).
    vm_compute. reflexivity.
Defined.


(** The caller's list after the two calls above: extended in place by the
    chat style, untouched by the structured-response style. *)
Example caller_list_after_the_call :
  contents (demo_handle
              (requests_once [request_of "read" "{}"; request_of "add" "{}"])
              (always_calls []) (ChatStyle 1%positive) (Some caller_tools)
              start).2 1%positive
  = [Given (PStr "hello");
     AssistantToolCalls [request_of "read" "{}"];
     ToolMessage "read" "['read', {}]" (PStr "id_read");
     AssistantToolCalls [request_of "add" "{}"];
     ToolMessage "add" "{}" (PStr "id_add")]
  /\ contents (demo_handle (requests_once [])
                 (always_calls [request_of "read" "{}";
                                request_of "add" "{}"])
                 (ResponsesStyle (PayloadList 1%positive))
                 (Some caller_tools) start).2 1%positive
     = [Given (PStr "hello")].
Proof. vm_compute. by split_and!. Qed.

(** * Every order of completion is modelled

    The drivers' properties hold for every latency; conversely every
    permutation of a batch is the completion order of some latency, namely
    the position of a coroutine in that permutation. *)

Fixpoint position (i : nat) (order : list nat) : nat :=
  match order with
  | [] => 0
  | j :: rest => if Nat.eqb i j then 0 else S (position i rest)
  end.

Lemma position_app (i : nat) (before rest : list nat) :
  i ∉ before ->
  position i (before ++ rest) = length before + position i rest.
Proof.
  induction before as [|j before IH]; simpl; [done|].
  rewrite not_elem_of_cons. intros [Hne Hni].
  destruct (Nat.eqb_spec i j); [done|]. by rewrite IH.
Qed.

Lemma position_inj (i j : nat) (order : list nat) :
  i ∈ order -> j ∈ order -> position i order = position j order -> i = j.
Proof.
  induction order as [|k order IH]; simpl; [by intros ?%elem_of_nil|].
  intros Hi Hj.
  destruct (Nat.eqb_spec i k) as [->|Hik], (Nat.eqb_spec j k) as [->|Hjk];
    try done.
  intros [= Heq]. apply IH; [| |done].
  - by apply elem_of_cons in Hi as [?|?].
  - by apply elem_of_cons in Hj as [?|?].
Qed.

Lemma sorted_by_position (before rest : list nat) :
  NoDup (before ++ rest) ->
  StronglySorted (fun i j => position i (before ++ rest)
                             <= position j (before ++ rest)) rest.
Proof.
  revert before. induction rest as [|x rest IH]; intros before Hnd;
    [constructor|].
  pose proof Hnd as Hnd'.
  apply NoDup_app in Hnd' as (_ & Hdisj & [Hx _]%NoDup_cons).
  assert (x ∉ before) as Hxb.
  { intros Hin. apply (Hdisj x Hin). left. }
  constructor.
  - specialize (IH (before ++ [x])). rewrite <- app_assoc in IH.
    by apply IH.
  - apply Forall_forall. intros j Hj.
    assert (j ∉ before) as Hjb.
    { intros Hin. apply (Hdisj j Hin). by right. }
    rewrite !position_app by done. simpl. rewrite Nat.eqb_refl.
    destruct (Nat.eqb_spec j x) as [->|]; [done|]. lia.
Qed.

Lemma every_order_is_a_completion_order {W : Type} (order : list nat)
  (n : nat) (w : W) :
  order ≡ₚ seq 0 n ->
  completion_order (fun _ i => position i order) w n = order.
Proof.
  intros Hperm. unfold completion_order.
  set (R := sooner (fun (_ : W) i => position i order) w).
  assert (Transitive R) as Htrans.
  { intros i j k. unfold R, sooner. lia. }
  assert (Total R) as Htotal.
  { intros i j. unfold R, sooner. lia. }
  apply (StronglySorted_unique_strong R).
  - intros i j Hi Hj Hij Hji. unfold R, sooner in Hij, Hji.
    apply (position_inj i j order); [|done|lia].
    by rewrite merge_sort_Permutation, <- Hperm in Hi.
  - by apply StronglySorted_merge_sort.
  - apply (sorted_by_position [] order). simpl. rewrite Hperm.
    apply NoDup_seq.
  - by rewrite merge_sort_Permutation.
Qed.

(** * Further properties on the concrete environment *)

Lemma chat_loop_never_exceeds_cap_witness :
  let run := demo_chat_loop (requests_once [request_of "boom" "{}"]) [] 20
               start in
  run.1 <> Ok None
  /\ exists evs,
       trace run.2 = trace start ++ evs
       /\ 1 <= length (chat_calls evs)
       /\ length (chat_calls evs) <= MAX_TOOL_LOOPS
       /\ (max_loops_warning ∈ evs
           <-> length (chat_calls evs) = MAX_TOOL_LOOPS).
Proof.
  intros run.
  apply (chat_loop_never_exceeds_cap demo_call_tool demo_schemas
           demo_functions (requests_once [request_of "boom" "{}"]) demo_loads
           demo_repr exn_arg reversed "openai" [] demo_lookup "gpt" PNone
           false 1%positive 20 [] None start run.2 run.1).
  - apply le_n.
  - vm_compute. reflexivity.
Defined.

(** The merged tools and the options of the examples. *)
Definition demo_final_tools : list pyval :=
  [PDict [("type", PStr "function");
          ("function", PDict [("name", PStr "read");
                              ("description", PStr "Read a file");
                              ("parameters", object_schema)])]].

Definition demo_kwargs : py_dict pyval :=
  [("temperature", PStr "0"); ("tool_choice", PStr "required")].

Lemma tools_sent_with_first_request_only_witness :
  let run := chat_loop demo_call_tool demo_schemas demo_functions
               (requests_once [request_of "read" "{}"]) demo_loads demo_repr
               exn_arg reversed "gpt" "openai" PNone false [] demo_lookup 20
               1%positive 0 demo_kwargs (Some demo_final_tools) start in
  exists evs,
    trace run.2 = trace start ++ evs
    /\ (forall rq resp,
          head (omap chat_pair evs) = Some (rq, resp) ->
          rq = chat_request "gpt" "openai" PNone false
                 (contents start 1%positive) demo_kwargs
                 (Some demo_final_tools))
    /\ Forall (fun p => rq_tools p.1 = None
                        /\ dict_lookup "tool_choice" (rq_kwargs p.1) = None
                        /\ forall k, k <> "tool_choice" -> k <> "tools" ->
                             dict_lookup k (rq_kwargs p.1)
                             = dict_lookup k demo_kwargs)
         (tail (omap chat_pair evs)).
Proof.
  intros run.
  apply (tools_sent_with_first_request_only demo_call_tool demo_schemas
           demo_functions (requests_once [request_of "read" "{}"]) demo_loads
           demo_repr exn_arg reversed "openai" [] demo_lookup "gpt" PNone
           false 1%positive 20 0 demo_kwargs (Some demo_final_tools) start
           run.2 run.1).
  - apply (bool_decide_unpack _). vm_compute. exact I.
  - vm_compute. reflexivity.
Defined.

(** The caller's declarations with [search] in the flat shape. *)
Definition caller_tools_flat : list (py_dict pyval) :=
  [[("name", PStr "add"); ("description", PStr "caller add");
    ("parameters", object_schema)];
   [("name", PStr "search"); ("description", PStr "caller search")];
   [("description", PStr "nameless")]].

Lemma merge_tools_shape_independent_witness :
  merge_tools demo_schemas true caller_tools advertised
  = merge_tools demo_schemas true caller_tools_flat advertised.
Proof.
  apply (merge_tools_shape_independent demo_schemas true caller_tools
           caller_tools_flat advertised).
  constructor; [left; reflexivity|].
  constructor; [right; split; reflexivity|].
  constructor; [left; reflexivity|]. constructor.
Defined.

Lemma clean_kwargs_removes_mcp_options_only_witness :
  let kwargs := [("mcp_strict", PNone); ("temperature", PStr "0");
                 ("mcp_servers", PList []); ("user", PStr "u")] in
  (forall k,
      dict_lookup k (_clean_kwargs kwargs)
      = if bool_decide (k = "mcp_servers" \/ k = "mcp_strict") then None
        else dict_lookup k kwargs)
  /\ sublist (_clean_kwargs kwargs) kwargs
  /\ NoDup (_clean_kwargs kwargs).*1.
Proof.
  intros kwargs. apply (clean_kwargs_removes_mcp_options_only kwargs).
  apply (bool_decide_unpack _). vm_compute. exact I.
Defined.

Lemma dispatchers_agree_on_success_witness :
  let call := request_of "read" "{}" in
  let run := _execute_tool demo_call_tool demo_functions "read" (PDict [])
               demo_lookup start in
  let v := PList [PStr "read"; PDict []] in
  (exists st1,
      _process_tool_call demo_call_tool demo_functions demo_repr exn_arg call
        "read" (PDict []) demo_lookup "openai" false start
      = (Ok (PartList [AssistantToolCalls [call];
                       ToolMessage "read" (py_str demo_repr v)
                         (default PNone (id call))]), st1)
      /\ world st1 = world run.2)
  /\ (exists st1,
        _process_tool_call demo_call_tool demo_functions demo_repr exn_arg
          call "read" (PDict []) demo_lookup "openai" true start
        = (Ok (PartDict
                 (FunctionCallOutput
                    (match call_id call, id call with
                     | Some c, _ => c
                     | None, Some i => i
                     | None, None => PNone
                     end)
                    (py_str demo_repr v))), st1)
        /\ world st1 = world run.2)
  /\ (forall server,
        demo_lookup !! "read" = Some server ->
        exists reply,
          demo_call_tool server "read" (PDict []) (world start)
          = (Ok reply, world run.2)
          /\ v = py_get reply "content").
Proof.
  intros call run v.
  apply (dispatchers_agree_on_success demo_call_tool demo_functions demo_repr
           exn_arg call "read" (PDict []) demo_lookup "openai" start run.2 v).
  vm_compute. reflexivity.
Defined.

Lemma served_tools_never_fail_a_chat_call_witness :
  exists resp st' rq evs,
    demo_chat_loop (requests_once [request_of "boom" "{}"]) [] 20 start
    = (Ok (Some resp), st')
    /\ trace st' = trace start ++ evs
    /\ last (omap chat_pair evs) = Some (rq, resp).
Proof.
  apply (served_tools_never_fail_a_chat_call demo_call_tool demo_schemas
           demo_functions (requests_once [request_of "boom" "{}"]) demo_loads
           demo_repr exn_arg reversed "openai" [] demo_lookup "gpt" PNone
           false 1%positive [] 20 [] None start).
  - reflexivity.
  - intros rq w. unfold requests_once.
    destruct (length (rq_history rq) =? 1); simpl.
    + split; (constructor; [|constructor]).
      * split; reflexivity.
      * left. reflexivity.
    + split; constructor.
  - apply le_n.
Defined.

(** A registry whose callable [div] raises. *)
Definition failing_functions
  : gmap string (pyval -> journal -> res pyval * journal) :=
  {[ "div" := fun a w => (Raise (Exn "ZeroDivisionError" "division by zero"),
                          w ++ ["div"]) ]}.

Lemma local_tool_failure_aborts_chat_call_witness :
  let backend := always_requests [request_of "div" "{}"] in
  let rq := chat_request "gpt" "openai" PNone false (contents start 1%positive)
              [] None in
  let resp := (backend rq (world start)).1 in
  exists st',
    chat_loop demo_call_tool demo_schemas failing_functions backend
      demo_loads demo_repr exn_arg reversed "gpt" "openai" PNone false []
      demo_lookup 20 1%positive 0 [] None start
    = (Raise (Exn "ZeroDivisionError" "division by zero"), st')
    /\ heap st' = heap start
    /\ world st' = ["div"]
    /\ chat_calls (trace st') = chat_calls (trace start) ++ [EvChatCall rq resp].
Proof.
  apply (local_tool_failure_aborts_chat_call demo_call_tool demo_schemas
           failing_functions (always_requests [request_of "div" "{}"])
           demo_loads demo_repr exn_arg reversed "openai" [] demo_lookup
           "gpt" PNone false 19 1%positive 0 [] None start []
           (request_of "div" "{}") (PDict [])
           (fun a w => (Raise (Exn "ZeroDivisionError" "division by zero"),
                        w ++ ["div"]))
           (Exn "ZeroDivisionError" "division by zero") ["div"]);
    try reflexivity.
  unfold MAX_TOOL_LOOPS. simpl. repeat constructor.
Defined.

(** A second server object of the same name, and a server of another
    name. *)
Definition files_again : handle := Handle "files" 2.
Definition notes : handle := Handle "notes" 3.

Lemma each_server_connected_at_most_once_witness :
  let run := _handle_llm_call demo_connect demo_list_tools demo_call_tool
               demo_all_tools demo_schemas demo_functions
               (requests_once [request_of "read" "{}"]) (always_calls [])
               demo_provider demo_loads demo_dumps demo_repr exn_arg reversed
               20 "gpt" (ChatStyle 1%positive)
               (Some [files; notes; files_again]) PNone None [] false start in
  server_cache start ⊆ server_cache run.2
  /\ exists evs,
       trace run.2 = trace start ++ evs
       /\ NoDup (name <$> omap connected_handle evs)
       /\ Forall (fun s => s ∈ [files; notes; files_again]
                           /\ server_cache start !! name s = None)
            (omap connected_handle evs)
       /\ (is_ok run.1 = true ->
           Forall (fun s => server_cache run.2 !! name s = Some s)
             (omap connected_handle evs))
       /\ (omap connected_handle evs = [] ->
           server_cache run.2 = server_cache start).
Proof.
  intros run.
  apply (each_server_connected_at_most_once demo_connect demo_list_tools
           demo_call_tool demo_all_tools demo_schemas demo_functions
           (requests_once [request_of "read" "{}"]) (always_calls [])
           demo_provider demo_loads demo_dumps demo_repr exn_arg reversed
           20 "gpt" (ChatStyle 1%positive)
           (Some [files; notes; files_again]) PNone None [] false start
           run.2 run.1).
  vm_compute. reflexivity.
Defined.

(** Two servers that both list [read]. *)
Definition listing_of (server : handle) (w : journal)
  : res (list tool_obj) * journal :=
  if String.eqb (name server) "files" then (Ok demo_tools, w)
  else (Ok [ToolObj "read" (PStr "Read a note") object_schema;
            ToolObj "write" (PStr "Write a note") object_schema], w).

Lemma server_lookup_last_server_wins_witness :
  let run := build_server_lookup demo_connect listing_of [files; notes] ∅
               start in
  let server_lookup : gmap string handle :=
    <["read" := notes]> (<["write" := notes]>
      (<["bare" := files]> (<["boom" := files]> ∅))) in
  exists (listings : list (handle * list tool_obj)) (evs : list event),
    trace run.2 = trace start ++ evs
    /\ omap listed_handle evs = listings.*1
    /\ Forall2 (fun srv lg => server_cache run.2 !! name srv = Some lg.1)
         [files; notes] listings
    /\ Forall (fun lg => exists w w', listing_of lg.1 w = (Ok lg.2, w'))
         listings
    /\ forall n,
         server_lookup !! n
         = (fun lg => lg.1)
           <$> last (filter (fun lg => n ∈ t_name <$> lg.2) listings).
Proof.
  intros run server_lookup.
  apply (server_lookup_last_server_wins demo_connect listing_of
           [files; notes] start run.2 server_lookup).
  vm_compute. reflexivity.
Defined.

Lemma every_request_follows_the_provider_witness :
  let run := demo_handle (requests_once [request_of "read" "{}"])
               (always_calls []) (ChatStyle 1%positive) (Some caller_tools)
               start in
  exists evs,
    trace run.2 = trace start ++ evs
    /\ (forall rq,
          rq ∈ omap model_request evs ->
          rq_model rq = "gpt"
          /\ rq_endpoint rq
             = (if String.eqb "openai" "openai"
                then (if false then OrigAsync else OrigSync)
                else (if false then RoutedAsync else RoutedSync))
          /\ rq_api_key rq
             = if String.eqb "openai" "openai" then None else Some PNone)
    /\ responses_calls evs = [].
Proof.
  intros run.
  apply (every_request_follows_the_provider demo_connect demo_list_tools
           demo_call_tool demo_all_tools demo_schemas demo_functions
           (requests_once [request_of "read" "{}"]) (always_calls [])
           demo_provider demo_loads demo_dumps demo_repr exn_arg reversed 20
           "gpt" (ChatStyle 1%positive) (Some [files]) PNone
           (Some caller_tools) [] false start run.2 run.1 "openai" PNone).
  - reflexivity.
  - vm_compute. reflexivity.
Defined.

Lemma setup_failure_makes_no_model_call_witness :
  let run := demo_handle (requests_once [request_of "read" "{}"])
               (always_calls []) (ChatStyle 1%positive)
               (Some [[("function", PStr "read")]]) start in
  exists e evs,
    run.1 = Raise e
    /\ trace run.2 = trace start ++ evs
    /\ Forall setup_event evs
    /\ omap model_request evs = []
    /\ heap run.2 = heap start.
Proof.
  intros run.
  apply (setup_failure_makes_no_model_call demo_connect demo_list_tools
           demo_call_tool demo_all_tools demo_schemas demo_functions
           (requests_once [request_of "read" "{}"]) (always_calls [])
           demo_provider demo_loads demo_dumps demo_repr exn_arg reversed 20
           "gpt" (ChatStyle 1%positive) (Some [files]) PNone
           (Some [[("function", PStr "read")]]) [] false start run.2 run.1).
  - right. exists [("function", PStr "read")]. split; [|reflexivity].
    apply list_elem_of_singleton. reflexivity.
  - vm_compute. reflexivity.
Defined.

Lemma first_request_options_witness :
  let kwargs := [("temperature", PStr "0"); ("mcp_strict", PNone)] in
  let run := _handle_llm_call demo_connect demo_list_tools demo_call_tool
               demo_all_tools demo_schemas demo_functions
               (requests_once [request_of "read" "{}"]) (always_calls [])
               demo_provider demo_loads demo_dumps demo_repr exn_arg reversed
               20 "gpt" (ResponsesStyle (PayloadOther (PStr "hello")))
               (Some [files]) PNone None kwargs false start in
  exists evs,
    trace run.2 = trace start ++ evs
    /\ forall rq,
         head (omap model_request evs) = Some rq ->
         exists mcp_schemas final_tools,
           merge_tools demo_schemas true [] mcp_schemas = Ok final_tools
           /\ ([files] = [] -> mcp_schemas = [])
           /\ rq_history rq
              = initial_input demo_repr (PayloadOther (PStr "hello")) start
           /\ rq_tools rq = Some (PList final_tools)
           /\ forall k,
                dict_lookup k (rq_kwargs rq)
                = if bool_decide (k = "mcp_servers" \/ k = "mcp_strict")
                  then None
                  else if bool_decide (k = "tool_choice") then
                    match dict_lookup "tool_choice" kwargs with
                    | Some v => Some v
                    | None => match final_tools with
                              | [] => None
                              | _ :: _ => Some (PStr "auto")
                              end
                    end
                  else dict_lookup k kwargs.
Proof.
  intros kwargs run.
  apply (first_request_options demo_connect demo_list_tools demo_call_tool
           demo_all_tools demo_schemas demo_functions
           (requests_once [request_of "read" "{}"]) (always_calls [])
           demo_provider demo_loads demo_dumps demo_repr exn_arg reversed 20
           "gpt" (ResponsesStyle (PayloadOther (PStr "hello")))
           (Some [files]) PNone None kwargs false start run.2 run.1).
  - apply (bool_decide_unpack _). vm_compute. exact I.
  - vm_compute. reflexivity.
Defined.

Lemma later_calls_reuse_connections_witness :
  let first := demo_handle (requests_once [request_of "read" "{}"])
                 (always_calls []) (ChatStyle 1%positive) None start in
  let second := _handle_llm_call demo_connect demo_list_tools demo_call_tool
                  demo_all_tools demo_schemas demo_functions
                  (requests_once [request_of "read" "{}"]) (always_calls [])
                  demo_provider
                  demo_loads demo_dumps demo_repr exn_arg reversed 20 "gpt"
                  (ResponsesStyle (PayloadList 1%positive))
                  (Some [files_again]) PNone None [] true first.2 in
  exists evs,
    trace second.2 = trace first.2 ++ evs
    /\ omap connected_handle evs = []
    /\ server_cache second.2 = server_cache first.2.
Proof.
  intros first second.
  apply (later_calls_reuse_connections demo_connect demo_list_tools
           demo_call_tool demo_all_tools demo_schemas demo_functions
           (requests_once [request_of "read" "{}"]) (always_calls [])
           demo_provider demo_loads demo_dumps demo_repr exn_arg reversed
           20 20 "gpt" "gpt" (ChatStyle 1%positive)
           (ResponsesStyle (PayloadList 1%positive)) (Some [files])
           (Some [files_again]) PNone PNone None None [] [] false true
           start first.2 second.2
           (match first.1 with
            | Ok c => c
            | Raise _ => ChatCompletion None
            end)
           second.1).
  - vm_compute. reflexivity.
  - intros s Hs. apply list_elem_of_singleton in Hs. exists files.
    split; [apply list_elem_of_singleton; reflexivity|].
    rewrite Hs. reflexivity.
  - vm_compute. reflexivity.
Defined.


(** * The HTTP bridge for tool calls (src/agentd/mcp_bridge.py)

    [MCPBridge] keeps two registries, tool name to server connection and
    tool name to local function, and answers three routes.  The handlers
    are coroutines of the same monad as the orchestrator's; of its state
    they use the world and the trace only.  The HTTP server itself
    ([start], [stop], the thread) is not modelled: a handler is applied to
    a request directly. *)

Section Bridge.

Context {W : Type}.

Variable call_tool : handle -> string -> pyval -> W -> res (py_dict pyval) * W.
Variable py_repr : pyval -> string.
Variable exn_text : exn -> string.

Notation "'let*' x := m 'in' k" := (bind m (fun x => k))
  (at level 10, x binder, m at level 100, k at level 200).

(** The registries, in insertion order. *)
Record MCPBridge : Type := Bridge {
  servers : py_dict handle;
  local_tools : py_dict (pyval -> W -> res pyval * W)
}.

Definition register_server (tool_name : string) (server : handle)
  (self : MCPBridge) : MCPBridge :=
  Bridge (dict_set tool_name server (servers self)) (local_tools self).

Definition register_local_tool (tool_name : string)
  (func : pyval -> W -> res pyval * W) (self : MCPBridge) : MCPBridge :=
  Bridge (servers self) (dict_set tool_name func (local_tools self)).

(** A request: the [tool_name] of the route, and what [await request.json()]
    gives, the decoded body or the exception of the decoder. *)
Record web_request : Type := WebRequest {
  match_info_tool_name : string;
  request_json : res pyval
}.

(** [web.json_response(data, status=status)] *)
Record web_response : Type := WebResponse {
  status : nat;
  data : pyval
}.

Definition json_response (data : pyval) (status : nat) : web_response :=
  WebResponse status data.

Definition is_log (ev : event) : bool :=
  match ev with EvLog _ _ => true | _ => false end.

Definition handle_call (self : MCPBridge) (request : web_request)
  : M (W:=W) web_response :=
  let tool_name := match_info_tool_name request in
  let* args :=
    try_except (lift_res (request_json request))
      (fun e => if String.eqb (exn_class e) "JSONDecodeError"
                then ret (PDict []) else raise e) in
  let* _ := emit (EvLog Info ("Tool call: " +:+ tool_name +:+ "(" +:+
                              py_str py_repr args +:+ ")")) in
  match dict_lookup tool_name (servers self) with
  | Some server =>
      try_except
        (let* result := external (call_tool server tool_name args)
                                 (EvCallTool server tool_name args) in
         let content := default (PDict result)
                                (dict_lookup "content" result) in
         ret (json_response content 200))
        (fun e =>
         let* _ := emit (EvLog Error
                           ("MCP tool call failed: " +:+ exn_text e)) in
         ret (json_response (PDict [("error", PStr (exn_text e))]) 500))
  | None =>
      match dict_lookup tool_name (local_tools self) with
      | Some func =>
          try_except
            (let* result := external (func args)
                                     (EvLocalCall tool_name args) in
             ret (json_response (PDict [("result", result)]) 200))
            (fun e =>
             let* _ := emit (EvLog Error
                               ("Local tool call failed: " +:+ exn_text e)) in
             ret (json_response (PDict [("error", PStr (exn_text e))]) 500))
      | None =>
          ret (json_response
                 (PDict [("error", PStr ("Tool '" +:+ tool_name +:+
                                         "' not found"))]) 404)
      end
  end.

Definition handle_list_tools (self : MCPBridge) : M (W:=W) web_response :=
  let tools := (servers self).*1 ++ (local_tools self).*1 in
  ret (json_response (PDict [("tools", PList (PStr <$> tools))]) 200).

Definition handle_health : M (W:=W) web_response :=
  ret (json_response (PDict [("status", PStr "ok")]) 200).

(** The arguments a call is made with: the decoded body, and the empty
    dict for a body that does not decode. *)
Definition call_args (request : web_request) : option pyval :=
  match request_json request with
  | Ok v => Some v
  | Raise e =>
      if String.eqb (exn_class e) "JSONDecodeError" then Some (PDict [])
      else None
  end.


(** ** Properties of the bridge *)

Lemma handle_call_decoded (self : MCPBridge) (request : web_request)
  (args : pyval) (st : state) :
  call_args request = Some args ->
  handle_call self request st
  = let tool_name := match_info_tool_name request in
    let st1 := State (world st) (server_cache st) (heap st)
                 (trace st ++ [EvLog Info ("Tool call: " +:+ tool_name +:+
                                           "(" +:+ py_str py_repr args +:+
                                           ")")]) in
    match dict_lookup tool_name (servers self) with
    | Some server =>
        match call_tool server tool_name args (world st) with
        | (Ok result, w') =>
            (Ok (json_response
                   (default (PDict result) (dict_lookup "content" result))
                   200),
             State w' (server_cache st) (heap st)
               (trace st1 ++ [EvCallTool server tool_name args]))
        | (Raise e, w') =>
            (Ok (json_response (PDict [("error", PStr (exn_text e))]) 500),
             State w' (server_cache st) (heap st)
               (trace st1 ++ [EvCallTool server tool_name args;
                              EvLog Error ("MCP tool call failed: " +:+
                                           exn_text e)]))
        end
    | None =>
        match dict_lookup tool_name (local_tools self) with
        | Some func =>
            match func args (world st) with
            | (Ok result, w') =>
                (Ok (json_response (PDict [("result", result)]) 200),
                 State w' (server_cache st) (heap st)
                   (trace st1 ++ [EvLocalCall tool_name args]))
            | (Raise e, w') =>
                (Ok (json_response (PDict [("error", PStr (exn_text e))])
                       500),
                 State w' (server_cache st) (heap st)
                   (trace st1 ++ [EvLocalCall tool_name args;
                                  EvLog Error ("Local tool call failed: " +:+
                                               exn_text e)]))
            end
        | None =>
            (Ok (json_response
                   (PDict [("error", PStr ("Tool '" +:+ tool_name +:+
                                           "' not found"))]) 404), st1)
        end
    end.
Proof.
  intros Hargs. unfold handle_call, call_args in *. cbn zeta.
  unfold bind at 1, try_except at 1, lift_res.
  assert ((match request_json request with
           | Ok a => (Ok a, st)
           | Raise e =>
               (if String.eqb (exn_class e) "JSONDecodeError"
                then ret (PDict []) else raise e) st
           end) = (Ok args, st)) as ->.
  { destruct (request_json request) as [v|e]; [by injection Hargs as ->|].
    destruct (String.eqb (exn_class e) "JSONDecodeError"); [|done].
    by injection Hargs as <-. }
  unfold bind at 1, emit at 1. cbn [world server_cache heap trace].
  destruct (dict_lookup (match_info_tool_name request) (servers self))
    as [server|].
  - unfold try_except, bind, external, emit, ret. simpl.
    destruct (call_tool server _ args (world st)) as [[result|e] w'];
      simpl; [done|]. by rewrite <- app_assoc.
  - destruct (dict_lookup (match_info_tool_name request) (local_tools self))
      as [func|]; [|done].
    unfold try_except, bind, external, emit, ret. simpl.
    destruct (func args (world st)) as [[result|e] w'];
      simpl; [done|]. by rewrite <- app_assoc.
Qed.

(** X14. The bridge answers every call whose body it could read: a body
    that is not JSON counts as no arguments, and whatever the tool does,
    [handle_call] returns a response and raises nothing.  The tool that is
    run is the server registered under the name, else the local function
    registered under it; it is run once, on the arguments of the call.  If
    it returns, the status is 200 and the body is the [content] field of
    the server's reply (the whole reply if it has none), or the result of
    the local function under [result]; if it raises, the status is 500 and
    the body carries the text of the exception; if the name is in neither
    registry the status is 404 and no tool was run.  Any other failure to
    read the body is raised as it is, before anything is done. *)
Theorem handle_call_always_answers (self : MCPBridge)
  (request : web_request) (st : state) :
  (forall args,
      call_args request = Some args ->
      exists resp st' evs,
        handle_call self request st = (Ok resp, st')
        /\ trace st' = trace st ++ evs
        /\ (status resp = 404
            <-> dict_lookup (match_info_tool_name request) (servers self)
                = None
                /\ dict_lookup (match_info_tool_name request)
                     (local_tools self) = None)
        /\ (status resp = 404 ->
            world st' = world st /\ Forall (fun ev => is_log ev = true) evs)
        /\ (status resp = 500 ->
            exists e, data resp = PDict [("error", PStr (exn_text e))])
        /\ (status resp = 200 \/ status resp = 500 \/ status resp = 404)
        /\ match dict_lookup (match_info_tool_name request) (servers self),
                 dict_lookup (match_info_tool_name request)
                   (local_tools self)
           with
           | Some server, _ =>
               match call_tool server (match_info_tool_name request) args
                       (world st) with
               | (Ok reply, w') =>
                   resp = WebResponse 200
                            match dict_lookup "content" reply with
                            | Some content => content
                            | None => PDict reply
                            end
                   /\ world st' = w'
               | (Raise e, w') =>
                   resp = WebResponse 500
                            (PDict [("error", PStr (exn_text e))])
                   /\ world st' = w'
               end
           | None, Some func =>
               match func args (world st) with
               | (Ok result, w') =>
                   resp = WebResponse 200 (PDict [("result", result)])
                   /\ world st' = w'
               | (Raise e, w') =>
                   resp = WebResponse 500
                            (PDict [("error", PStr (exn_text e))])
                   /\ world st' = w'
               end
           | None, None =>
               resp = WebResponse 404
                        (PDict [("error",
                                 PStr ("Tool '" +:+
                                       match_info_tool_name request +:+
                                       "' not found"))])
               /\ world st' = world st
           end)
  /\ (forall e,
        request_json request = Raise e ->
        exn_class e <> "JSONDecodeError" ->
        handle_call self request st = (Raise e, st)).
Proof.
  split.
  - intros args Hargs. rewrite (handle_call_decoded self request args st Hargs).
    cbn zeta.
    destruct (dict_lookup (match_info_tool_name request) (servers self))
      as [server|].
    + destruct (call_tool server _ args (world st)) as [[result|e] w'];
        eexists _, _, (_ :: _); (split; [reflexivity|]); simpl;
        (split; [by rewrite <- app_assoc|]);
        split_and!; try done; try (split; [done|by intros [? _]]);
        try (by left); try (by right; left).
      intros _. by exists e.
    + destruct (dict_lookup (match_info_tool_name request) (local_tools self))
        as [func|].
      * destruct (func args (world st)) as [[result|e] w'];
          eexists _, _, (_ :: _); (split; [reflexivity|]); simpl;
          (split; [by rewrite <- app_assoc|]);
          split_and!; try done; try (split; [done|by intros [_ ?]]);
          try (by left); try (by right; left).
        intros _. by exists e.
      * eexists _, _, [_]. split; [reflexivity|]. simpl.
        split_and!; try done.
        -- intros _. split; [done|]. by repeat constructor.
        -- by right; right.
  - intros e He Hclass. unfold handle_call. cbn zeta.
    unfold bind at 1, try_except at 1, lift_res. rewrite He.
    apply String.eqb_neq in Hclass. by rewrite Hclass.
Qed.

(** X15. A tool that has a server in the bridge is served by that server,
    whatever local function bears the same name, and the two ways to a
    server differ on a reply without [content]: for the same successful
    reply the bridge answers 200 with the [content] field and [_execute_tool]
    returns that field, but where the reply has no such field the bridge
    answers with the whole reply and [_execute_tool] returns [None]. *)
Theorem bridge_falls_back_to_the_whole_reply (self : MCPBridge)
  (request : web_request) (args : pyval) (server : handle)
  (reply : py_dict pyval) (w' : W) (st : state)
  (FUNCTION_REGISTRY : gmap string (pyval -> W -> res pyval * W))
  (server_lookup : gmap string handle) :
  call_args request = Some args ->
  dict_lookup (match_info_tool_name request) (servers self) = Some server ->
  server_lookup !! match_info_tool_name request = Some server ->
  call_tool server (match_info_tool_name request) args (world st)
  = (Ok reply, w') ->
  exists resp st1 out st2,
    handle_call self request st = (Ok resp, st1)
    /\ _execute_tool call_tool FUNCTION_REGISTRY
         (match_info_tool_name request) args server_lookup st
       = (Ok out, st2)
    /\ status resp = 200 /\ world st1 = w' /\ world st2 = w'
    /\ match dict_lookup "content" reply with
       | Some c => data resp = c /\ out = c
       | None => data resp = PDict reply /\ out = PNone
       end.
Proof.
  intros Hargs Hs Hl Hcall.
  rewrite (handle_call_decoded self request args st Hargs). cbn zeta.
  rewrite Hs. simpl. rewrite Hcall.
  unfold _execute_tool, bind, external, ret. rewrite Hl, Hcall.
  eexists _, _, _, _. split; [reflexivity|]. split; [reflexivity|].
  simpl. split_and!; try done. unfold py_get.
  by destruct (dict_lookup "content" reply).
Qed.

(** X16. The tools the bridge lists are the tools it serves: a name is in
    the answer of [handle_list_tools] exactly when a call of that name is
    not answered with 404.  Listing runs no tool and changes nothing. *)
Theorem listed_tools_are_the_served_ones (self : MCPBridge)
  (request : web_request) (args : pyval) (st : state) :
  call_args request = Some args ->
  exists names resp st',
    handle_list_tools self st
    = (Ok (json_response (PDict [("tools", PList (PStr <$> names))]) 200), st)
    /\ handle_call self request st = (Ok resp, st')
    /\ (match_info_tool_name request ∈ names <-> status resp <> 404).
Proof.
  intros Hargs.
  exists ((servers self).*1 ++ (local_tools self).*1).
  rewrite (handle_call_decoded self request args st Hargs). cbn zeta.
  destruct (dict_lookup (match_info_tool_name request) (servers self))
    as [server|] eqn:Hs.
  - assert (match_info_tool_name request ∈ (servers self).*1) as Hin.
    { apply dict_lookup_elem in Hs. by apply (list_elem_of_fmap_2 fst) in Hs. }
    destruct (call_tool server _ args (world st)) as [[result|e] w'];
      eexists _, _; (split; [reflexivity|]); (split; [reflexivity|]);
      simpl; (split; [done|intros _; apply elem_of_app; by left]).
  - apply dict_lookup_None in Hs.
    destruct (dict_lookup (match_info_tool_name request) (local_tools self))
      as [func|] eqn:Hf.
    + assert (match_info_tool_name request ∈ (local_tools self).*1) as Hin.
      { apply dict_lookup_elem in Hf.
        by apply (list_elem_of_fmap_2 fst) in Hf. }
      destruct (func args (world st)) as [[result|e] w'];
        eexists _, _; (split; [reflexivity|]); (split; [reflexivity|]);
        simpl; (split; [done|intros _; apply elem_of_app; by right]).
    + apply dict_lookup_None in Hf.
      eexists _, _. split; [reflexivity|]. split; [reflexivity|]. simpl.
      split; [by intros [?|?]%elem_of_app|done].
Qed.

(** X17. Registering a server for a name takes effect for that name and
    for no other: after [register_server] a call of the name runs the
    registered server, whatever was registered under the name before and
    whatever local function is registered under it afterwards, and a call
    of any other name is answered as before the registration. *)
Theorem register_server_serves_its_name (self : MCPBridge) (n : string)
  (server : handle) (func : pyval -> W -> res pyval * W)
  (request : web_request) (args : pyval) (st : state) :
  call_args request = Some args ->
  (match_info_tool_name request = n ->
   exists resp st' evs,
     handle_call (register_local_tool n func (register_server n server self))
       request st = (Ok resp, st')
     /\ status resp <> 404
     /\ world st' = (call_tool server n args (world st)).2
     /\ trace st' = trace st ++ evs
     /\ EvCallTool server n args ∈ evs
     /\ EvLocalCall n args ∉ evs)
  /\ (match_info_tool_name request <> n ->
      handle_call (register_server n server self) request st
      = handle_call self request st).
Proof.
  intros Hargs. split.
  - intros Hn.
    rewrite (handle_call_decoded _ request args st Hargs). cbn zeta.
    rewrite Hn. simpl. rewrite dict_lookup_set.
    destruct (call_tool server n args (world st)) as [[result|e] w'];
      eexists _, _, (_ :: _ :: _); (split; [reflexivity|]); simpl;
      split_and!; try done.
    + by rewrite <- app_assoc.
    + apply elem_of_cons. right. apply elem_of_cons. by left.
    + intros [?|[?|?%elem_of_nil]%elem_of_cons]%elem_of_cons; done.
    + by rewrite <- app_assoc.
    + apply elem_of_cons. right. apply elem_of_cons. by left.
    + intros [?|[?|[?|?%elem_of_nil]%elem_of_cons]%elem_of_cons]%elem_of_cons;
        done.
  - intros Hne.
    rewrite !(handle_call_decoded _ request args st Hargs). cbn zeta.
    simpl. by rewrite dict_lookup_set_ne.
Qed.

End Bridge.

(** ** The bridge on the concrete environment *)

(** A bridge with the server [files] for [read] and [bare], and the local
    function [add], also registered under [read]. *)
Definition demo_bridge : @MCPBridge journal :=
  register_local_tool "read" (fun a w => (Ok a, w ++ ["local read"]))
    (register_local_tool "add" (fun a w => (Ok a, w ++ ["add"]))
       (register_server "bare" files
          (register_server "read" files (Bridge [] [])))).

Lemma bridge_falls_back_to_the_whole_reply_witness :
  let request := WebRequest "bare"
                   (Raise (Exn "JSONDecodeError" "Expecting value")) in
  exists resp st1 out st2,
    handle_call demo_call_tool demo_repr exn_arg demo_bridge request start
    = (Ok resp, st1)
    /\ _execute_tool demo_call_tool demo_functions "bare" (PDict [])
         demo_lookup start
       = (Ok out, st2)
    /\ status resp = 200 /\ world st1 = ["bare"] /\ world st2 = ["bare"]
    /\ match dict_lookup "content" bare_reply with
       | Some c => data resp = c /\ out = c
       | None => data resp = PDict bare_reply /\ out = PNone
       end.
Proof.
  intros request.
  apply (bridge_falls_back_to_the_whole_reply demo_call_tool demo_repr
           exn_arg demo_bridge request (PDict []) files bare_reply ["bare"]
           start demo_functions demo_lookup); reflexivity.
Defined.

Lemma listed_tools_are_the_served_ones_witness :
  let request := WebRequest "write" (Ok (PDict [])) in
  exists names resp st',
    handle_list_tools demo_bridge start
    = (Ok (json_response (PDict [("tools", PList (PStr <$> names))]) 200),
       start)
    /\ handle_call demo_call_tool demo_repr exn_arg demo_bridge request start
       = (Ok resp, st')
    /\ ("write" ∈ names <-> status resp <> 404).
Proof.
  intros request.
  apply (listed_tools_are_the_served_ones demo_call_tool demo_repr exn_arg
           demo_bridge request (PDict []) start).
  reflexivity.
Defined.

Lemma register_server_serves_its_name_witness :
  let request := WebRequest "add" (Ok (PDict [])) in
  let func := fun (a : pyval) (w : journal) => (Ok a, w ++ ["local"]) in
  ("add" = "add" ->
   exists resp st' evs,
     handle_call demo_call_tool demo_repr exn_arg
       (register_local_tool "add" func (register_server "add" files
                                          demo_bridge))
       request start = (Ok resp, st')
     /\ status resp <> 404
     /\ world st' = (demo_call_tool files "add" (PDict []) (world start)).2
     /\ trace st' = trace start ++ evs
     /\ EvCallTool files "add" (PDict []) ∈ evs
     /\ EvLocalCall "add" (PDict []) ∉ evs)
  /\ ("add" <> "add" ->
      handle_call demo_call_tool demo_repr exn_arg
        (register_server "add" files demo_bridge) request start
      = handle_call demo_call_tool demo_repr exn_arg demo_bridge request
          start).
Proof.
  intros request func.
  apply (register_server_serves_its_name demo_call_tool demo_repr exn_arg
           demo_bridge "add" files func request (PDict []) start).
  reflexivity.
Defined.

(** A name that is in both registries goes to the server; a name in
    neither is answered with 404 and runs nothing; a local function that
    raises is answered with 500. *)
Example handle_call_demo :
  (handle_call demo_call_tool demo_repr exn_arg demo_bridge
     (WebRequest "read" (Ok (PDict []))) start).1
  = Ok (WebResponse 200 (PList [PStr "read"; PDict []]))
  /\ world (handle_call demo_call_tool demo_repr exn_arg demo_bridge
              (WebRequest "read" (Ok (PDict []))) start).2 = ["read"]
  /\ (handle_call demo_call_tool demo_repr exn_arg demo_bridge
        (WebRequest "write" (Ok (PDict []))) start).1
     = Ok (WebResponse 404
             (PDict [("error", PStr "Tool 'write' not found")]))
  /\ (handle_call demo_call_tool demo_repr exn_arg
        (register_local_tool "div"
           (fun a w => (Raise (Exn "ZeroDivisionError" "division by zero"),
                        w)) demo_bridge)
        (WebRequest "div" (Ok (PDict []))) start).1
     = Ok (WebResponse 500 (PDict [("error", PStr "division by zero")])).
Proof. repeat split; reflexivity. Qed.

(** * Where the orchestrator falls short of a sibling path *)


(** The declaration of [lookup] by the caller, in the nested shape of the
    chat style and in the flat shape. *)
Definition lookup_nested : py_dict pyval :=
  [("type", PStr "function");
   ("function", PDict [("name", PStr "lookup");
                       ("description", PStr "caller lookup");
                       ("parameters", object_schema)])].

Definition lookup_flat : py_dict pyval :=
  [("name", PStr "lookup"); ("description", PStr "caller lookup");
   ("parameters", object_schema)].

(** The names of the tools of a merge. *)
Definition merged_names (merged : res (list pyval)) : list pyval :=
  match merged with
  | Ok tools => tool_name false <$> tools
  | Raise _ => []
  end.

(** C8 on the concrete environment: the caller declares [lookup], no server
    lists it and the registry does not hold it, and the model requests it
    with arguments that parse.  With the declaration in the nested shape
    the merger reads its name and the tool is sent to the model, but the
    guard of the chat loop collects no name from it: the request is
    dispatched, and the call ends with the failure of an unregistered tool
    where the response was to be returned.  With the same declaration in
    the flat shape the guard fires: the response is returned after one
    model call, nothing is dispatched and the message list is untouched. *)
Theorem caller_only_guard_misses_nested_declaration :
  let backend := always_requests [request_of "lookup" "{}"] in
  let nested := demo_handle backend (always_calls []) (ChatStyle 1%positive)
                  (Some [lookup_nested]) start in
  let flat := demo_handle backend (always_calls []) (ChatStyle 1%positive)
                (Some [lookup_flat]) start in
  declared_name lookup_nested = Some "lookup"
  /\ merge_tools demo_schemas false [lookup_nested] []
     = merge_tools demo_schemas false [lookup_flat] []
  /\ merged_names (merge_tools demo_schemas false [lookup_nested] [])
     = [PStr "lookup"; PStr "add"]
  /\ in_lookup "lookup" demo_lookup = false
  /\ dict_mem "lookup" demo_schemas = false
  /\ explicit_names [lookup_nested] = Ok [PNone]
  /\ explicit_names [lookup_flat] = Ok [PStr "lookup"]
  /\ nested.1 = Raise (Exn "KeyError" "Tool 'lookup' not registered")
  /\ flat.1 = Ok (ChatCompletion
                    (Some (ChatResponse [request_of "lookup" "{}"]
                             (PStr "assistant turn"))))
  /\ length (chat_calls (trace flat.2)) = 1
  /\ contents flat.2 1%positive = contents start 1%positive
  /\ world flat.2 = world start.
Proof. vm_compute. by split_and!. Qed.

(** A caller's declaration in the nested shape takes precedence as one in
    the flat shape does: [add] is declared by the caller, advertised by a
    server and held by the registry, and the merged entry is the
    caller's. *)
Example nested_caller_declaration_wins :
  merge_tools demo_schemas true
    [[("type", PStr "function");
      ("function", PDict [("name", PStr "add");
                          ("description", PStr "caller add")])]]
    [[("name", PStr "add"); ("description", PStr "server add");
      ("parameters", object_schema)]]
  = Ok [PDict [("type", PStr "function"); ("name", PStr "add");
               ("description", PStr "caller add"); ("parameters", PNone)]].
Proof. reflexivity. Qed.
